(** * zapret-ui: the orchestration core of [service.go] and [app.go]

    A shallow embedding of the Go service (report parser, release manager,
    strategy catalog, process tracking, state aggregator, test runs) and the
    proofs of its specified properties and of further properties of the
    code.

    Go values are modelled as follows.
    - [string] is Go's [string]: a sequence of bytes ([ascii] is a byte).
    - [int] is [Z]; the build target is windows/amd64, so [int] has 64 bits.
    - [map[string]TestResult] is [gmap string TestResult].
    - [time.Time] is a [Z] counted from Go's zero time.
    - a Go [error] result is the [Err] case of [Result]. *)

From Stdlib Require Import ZArith NArith String Ascii List Lia Bool.
From Stdlib Require Import Sorting.Sorted Sorting.Permutation.
From stdpp Require Import base gmap strings list.

Local Open Scope string_scope.
Local Open Scope Z_scope.

(** ** Errors and results *)

Inductive error : Type :=
| errors_New (msg : string)   (* errors.New and fmt.Errorf values *)
| PathError (op : string)     (* *fs.PathError of an os call *)
| URLError                    (* http.NewRequest rejecting the URL *)
| NetError                    (* transport error of http.Client.Do or io.ReadAll *)
| ZipError                    (* zip.NewReader or zip.File.Open rejecting the data *)
| ExecError.                  (* exec.Cmd.Run failing or exiting non-zero *)

Inductive Result (A : Type) : Type :=
| Ok (a : A)
| Err (e : error).
Arguments Ok {A} a.
Arguments Err {A} e.

Definition is_ok {A} (r : Result A) : bool :=
  match r with Ok _ => true | Err _ => false end.

(** ** The Go [strings] functions the service calls *)

Module strings.

Definition byte (c : ascii) : N := N_of_ascii c.

Fixpoint HasPrefix (s prefix : string) : bool :=
  match prefix, s with
  | EmptyString, _ => true
  | String p prefix', String c s' => Ascii.eqb c p && HasPrefix s' prefix'
  | String _ _, EmptyString => false
  end.

Fixpoint TrimPrefix (s prefix : string) : option string :=
  match prefix, s with
  | EmptyString, _ => Some s
  | String p prefix', String c s' =>
      if Ascii.eqb c p then TrimPrefix s' prefix' else None
  | String _ _, EmptyString => None
  end.

Definition HasSuffix (s suffix : string) : bool :=
  HasPrefix (String.rev s) (String.rev suffix).

(** [strings.Contains]: some suffix of [s] starts with [substr]. *)
Fixpoint Contains (s substr : string) : bool :=
  HasPrefix s substr ||
  match s with
  | EmptyString => false
  | String _ s' => Contains s' substr
  end.

(** [strings.Split(s, sep)] for a one-byte separator: always at least one
    piece, the pieces between consecutive separators. *)
Fixpoint Split (s : string) (sep : ascii) : list string :=
  match s with
  | EmptyString => [EmptyString]
  | String c s' =>
      if Ascii.eqb c sep then EmptyString :: Split s' sep
      else match Split s' sep with
           | piece :: rest => String c piece :: rest
           | [] => [String c EmptyString]
           end
  end.

(** The UTF-8 encodings of the runes for which [unicode.IsSpace] holds:
    TAB, LF, VT, FF, CR, SPACE, U+0085, U+00A0, U+1680, U+2000..U+200A,
    U+2028, U+2029, U+202F, U+205F, U+3000. *)
Definition space_runes : list (list N) :=
  [ [9]; [10]; [11]; [12]; [13]; [32];
    [194; 133]; [194; 160];
    [225; 154; 128];
    [226; 128; 128]; [226; 128; 129]; [226; 128; 130]; [226; 128; 131];
    [226; 128; 132]; [226; 128; 133]; [226; 128; 134]; [226; 128; 135];
    [226; 128; 136]; [226; 128; 137]; [226; 128; 138];
    [226; 128; 168]; [226; 128; 169]; [226; 128; 175];
    [226; 129; 159];
    [227; 128; 128] ]%N.

(** [strip bs s]: the rest of [s] after the bytes [bs], when it starts
    with them. *)
Fixpoint strip (bs : list N) (s : string) : option string :=
  match bs, s with
  | [], _ => Some s
  | b :: bs', String c s' => if (byte c =? b)%N then strip bs' s' else None
  | _ :: _, EmptyString => None
  end.

Fixpoint strip_any (runes : list (list N)) (s : string) : option string :=
  match runes with
  | [] => None
  | r :: runes' =>
      match strip r s with
      | Some s' => Some s'
      | None => strip_any runes' s
      end
  end.

(** Dropping white-space runes from the front; [fuel] bounds the number
    of runes, [String.length s] is always enough. *)
Fixpoint trim_front (runes : list (list N)) (fuel : nat) (s : string) : string :=
  match fuel with
  | O => s
  | S fuel' =>
      match strip_any runes s with
      | Some s' => trim_front runes fuel' s'
      | None => s
      end
  end.

Definition TrimLeftSpace (s : string) : string :=
  trim_front space_runes (String.length s) s.

(** The last rune is decoded backwards: on the reversed string the
    encodings are read reversed. *)
Definition TrimRightSpace (s : string) : string :=
  String.rev (trim_front (map (@rev N) space_runes) (String.length s) (String.rev s)).

(** [strings.TrimSpace]. *)
Definition TrimSpace (s : string) : string :=
  TrimRightSpace (TrimLeftSpace s).

(** [strings.TrimRight(s, cutset)] for a one-byte cutset. *)
Definition TrimRight (s : string) (cut : ascii) : string :=
  let fix go (r : string) : string :=
    match r with
    | String c r' => if Ascii.eqb c cut then go r' else r
    | EmptyString => EmptyString
    end in
  String.rev (go (String.rev s)).

Definition lower_byte (c : ascii) : ascii :=
  let n := byte c in
  if ((65 <=? n) && (n <=? 90))%N then ascii_of_N (n + 32) else c.

(** [strings.ToLower]. ASCII letters are lowered; of the other runes Go
    lowers exactly two to an ASCII letter, U+0130 (bytes C4 B0) to [i] and
    U+212A (bytes E2 84 AA) to [k]. Every other rune outside ASCII is
    written back as a rune outside ASCII; it is left as it is here, which
    no comparison with an ASCII literal tells apart. *)
Fixpoint ToLower (s : string) : string :=
  match s with
  | EmptyString => EmptyString
  | String c1 s1 =>
      match s1 with
      | String c2 s2 =>
          if ((byte c1 =? 196) && (byte c2 =? 176))%N
          then String "i" (ToLower s2)
          else
            match s2 with
            | String c3 s3 =>
                if ((byte c1 =? 226) && (byte c2 =? 132) && (byte c3 =? 170))%N
                then String "k" (ToLower s3)
                else String (lower_byte c1) (ToLower s1)
            | EmptyString => String (lower_byte c1) (ToLower s1)
            end
      | EmptyString => String (lower_byte c1) EmptyString
      end
  end.

End strings.

(** ** [strconv.Atoi] on a 64-bit [int] *)

Module strconv.

Inductive NumError : Type := ErrSyntax | ErrRange.

Definition is_digit (c : ascii) : bool :=
  ((48 <=? strings.byte c) && (strings.byte c <=? 57))%N.

Definition digit (c : ascii) : Z := Z.of_N (strings.byte c) - 48.

Definition maxUint64 : Z := 2 ^ 64 - 1.

(** The digit loop of [ParseUint(s, 10, 64)]: a byte that is no digit is a
    syntax error, an overflow stops the loop with the largest value. *)
Fixpoint ParseUint_loop (s : string) (n : Z) : Z * option NumError :=
  match s with
  | EmptyString => (n, None)
  | String c s' =>
      if is_digit c then
        if maxUint64 / 10 + 1 <=? n then (maxUint64, Some ErrRange)
        else
          let n1 := n * 10 + digit c in
          if maxUint64 <? n1 then (maxUint64, Some ErrRange)
          else ParseUint_loop s' n1
      else (0, Some ErrSyntax)
  end.

Definition ParseUint (s : string) : Z * option NumError :=
  match s with
  | EmptyString => (0, Some ErrSyntax)
  | _ => ParseUint_loop s 0
  end.

Definition sign (s : string) : bool * string :=
  match s with
  | String "+" s' => (false, s')
  | String "-" s' => (true, s')
  | _ => (false, s)
  end.

(** [ParseInt(s, 10, 0)]. *)
Definition ParseInt (s : string) : Z * option NumError :=
  match s with
  | EmptyString => (0, Some ErrSyntax)
  | _ =>
      let '(neg, s1) := sign s in
      match ParseUint s1 with
      | (_, Some ErrSyntax) => (0, Some ErrSyntax)
      | (un, _) =>
          let cutoff := 2 ^ 63 in
          if negb neg && (cutoff <=? un) then (cutoff - 1, Some ErrRange)
          else if neg && (cutoff <? un) then (- cutoff, Some ErrRange)
          else (if neg then - un else un, None)
      end
  end.

(** The fast path of [Atoi] for fewer than 19 bytes. *)
Fixpoint fast_loop (s : string) (n : Z) : option Z :=
  match s with
  | EmptyString => Some n
  | String c s' =>
      if is_digit c then fast_loop s' (n * 10 + digit c) else None
  end.

Definition Atoi (s : string) : Z * option NumError :=
  let sLen := String.length s in
  if (Nat.ltb 0 sLen && Nat.ltb sLen 19)%bool then
    let '(neg, s1) := sign s in
    match s1 with
    | EmptyString => (0, Some ErrSyntax)
    | _ =>
        match fast_loop s1 0 with
        | Some n => (if neg then - n else n, None)
        | None => (0, Some ErrSyntax)
        end
    end
  else ParseInt s.

(** [strconv.Itoa], which is what [fmt.Sprintf("%d", n)] writes: the digits
    are produced from the right; a number has no more decimal than binary
    digits, which bounds the loop. *)
Fixpoint Itoa_loop (fuel : nat) (n : Z) (acc : string) : string :=
  match fuel with
  | O => acc
  | S fuel' =>
      let acc' := String (ascii_of_N (48 + Z.to_N (n mod 10))) acc in
      if n / 10 =? 0 then acc' else Itoa_loop fuel' (n / 10) acc'
  end.

Definition Itoa (n : Z) : string :=
  let fuel := S (Z.to_nat (Z.log2 (Z.abs n))) in
  if n <? 0 then String "-" (Itoa_loop fuel (- n) EmptyString)
  else Itoa_loop fuel n EmptyString.

End strconv.

(** [atoi] of service.go: the error of [strconv.Atoi] is dropped. *)
Definition atoi (s : string) : Z := fst (strconv.Atoi s).

(** ** The two report-line patterns of [parseAnalytics]

    Both patterns are anchored at the start, open with a greedy group of
    any bytes but the line feed, and go on with literals that alternate
    with greedy groups of one or more digits. Go's regexp prefers, like a
    backtracking matcher, the longest first group after which the rest of
    the pattern matches, and a digit group takes the whole run of digits
    (every literal after a digit group starts with a comma, so a shorter run
    cannot be followed by it). *)

Module regexp.

(** The longest run of digits [s] starts with, and what follows it. *)
Fixpoint digits (s : string) : string * string :=
  match s with
  | String c s' =>
      if strconv.is_digit c
      then let '(d, rest) := digits s' in (String c d, rest)
      else (EmptyString, s)
  | EmptyString => (EmptyString, EmptyString)
  end.

(** The literals [lits], each followed by a digit group, at the start of
    [s]: the captured digit groups. *)
Fixpoint groups (lits : list string) (s : string) : option (list string) :=
  match lits with
  | [] => Some []
  | lit :: lits' =>
      match strings.TrimPrefix s lit with
      | Some s1 =>
          match digits s1 with
          | (EmptyString, _) => None
          | (d, s2) =>
              match groups lits' s2 with
              | Some caps => Some (d :: caps)
              | None => None
              end
          end
      | None => None
      end
  end.

(** [FindStringSubmatch] of the pattern with literals [lits]: the
    submatches after the whole match (first group, then the digit groups),
    or [None] where Go returns nil. *)
Fixpoint FindStringSubmatch (lits : list string) (s : string) : option (list string) :=
  let here :=
    match groups lits s with
    | Some caps => Some (EmptyString :: caps)
    | None => None
    end in
  match s with
  | EmptyString => here
  | String c s' =>
      if Ascii.eqb c "010" then here
      else
        match FindStringSubmatch lits s' with
        | Some (m1 :: caps) => Some (String c m1 :: caps)
        | _ => here
        end
  end.

End regexp.

Definition reStd : list string :=
  [" : HTTP OK: "; ", ERR: "; ", UNSUP: "; ", Ping OK: "; ", Fail: "].

Definition reDpi : list string :=
  [" : OK: "; ", FAIL: "; ", UNSUP: "; ", BLOCKED: "].

(** ** Data model *)

Record TestResult : Type := {
  Name : string;
  HTTP_OK : Z;
  HTTP_ERR : Z;
  HTTP_UNSUP : Z;
  PingOK : Z;
  PingFail : Z;
  Fail : Z;
  Blocked : Z;
  Status : string;   (* ok | fail *)
  LastTestedAt : Z
}.

Record parsedResults : Type := {
  Results : gmap string TestResult;
  Best : string
}.

(** ** [parseAnalytics] *)

(** The result built from a line of the standard form. *)
Definition stdResult (name m2 m3 m4 m5 m6 : string) : TestResult :=
  let httpErr := atoi m3 in
  let pingFail := atoi m6 in
  {| Name := name;
     HTTP_OK := atoi m2;
     HTTP_ERR := httpErr;
     HTTP_UNSUP := atoi m4;
     PingOK := atoi m5;
     PingFail := pingFail;
     Fail := 0;
     Blocked := 0;
     Status := if (httpErr =? 0) && (pingFail =? 0) then "ok" else "fail";
     LastTestedAt := 0 |}.

(** The result built from a line of the DPI-summary form. *)
Definition dpiResult (name m2 m3 m4 m5 : string) : TestResult :=
  let fail := atoi m3 in
  let blocked := atoi m5 in
  {| Name := name;
     HTTP_OK := atoi m2;
     HTTP_ERR := 0;
     HTTP_UNSUP := atoi m4;
     PingOK := 0;
     PingFail := 0;
     Fail := fail;
     Blocked := blocked;
     Status := if (fail =? 0) && (blocked =? 0) then "ok" else "fail";
     LastTestedAt := 0 |}.

(** What the loop body of [parseAnalytics] does with one raw line: the
    branch of its if-chain that the line takes. *)
Inductive LineKind : Type :=
| Marker                          (* "=== ANALYTICS ===" *)
| BestStrategy (best : string)    (* "Best strategy: <name>" *)
| Blank
| Standard (res : TestResult)     (* reStd matched *)
| DpiSummary (res : TestResult)   (* reStd did not match, reDpi did *)
| Ignored.

Definition classify (raw : string) : LineKind :=
  let line := strings.TrimSpace raw in
  if String.eqb line "=== ANALYTICS ===" then Marker
  else
    match strings.TrimPrefix line "Best strategy:" with
    | Some rest => BestStrategy (strings.TrimSpace rest)
    | None =>
        if String.eqb line "" then Blank
        else
          match regexp.FindStringSubmatch reStd line with
          | Some [m1; m2; m3; m4; m5; m6] =>
              Standard (stdResult (strings.TrimSpace m1) m2 m3 m4 m5 m6)
          | _ =>
              match regexp.FindStringSubmatch reDpi line with
              | Some [m1; m2; m3; m4; m5] =>
                  DpiSummary (dpiResult (strings.TrimSpace m1) m2 m3 m4 m5)
              | _ => Ignored
              end
          end
    end.

(** One iteration: [results[name] = res] or [best = ...] or [continue]. *)
Definition parse_step (acc : gmap string TestResult * string) (raw : string)
  : gmap string TestResult * string :=
  match classify raw with
  | Standard res | DpiSummary res => (<[Name res := res]> (fst acc), snd acc)
  | BestStrategy best => (fst acc, best)
  | Marker | Blank | Ignored => acc
  end.

Definition parse_lines (lines : list string) : gmap string TestResult * string :=
  fold_left parse_step lines (∅, EmptyString).

Definition parseAnalytics (content : string) : Result parsedResults :=
  let lines := strings.Split content "010" in
  let '(results, best) := parse_lines lines in
  if Nat.eqb (size results) 0
  then Err (errors_New "no analytics parsed")
  else Ok {| Results := results; Best := best |}.

(** ** Persisted state and the snapshot given to the UI

    [Config.Meta] is created empty and never read or written by the
    service; it is left out. A file path is the list of its elements below
    the releases directory ([path]); the empty string that
    [currentReleasePath] returns when there is no release is [None]. *)

Abbreviation path := (list string).

Module RunningInfo.
Record t : Type := {
  File : string;
  PID : Z;
  StartedAt : Z
}.
End RunningInfo.
Abbreviation RunningInfo := RunningInfo.t.

Module Config.
Record t : Type := {
  Version : string;
  LastStrategy : string;
  LastTestAt : Z;
  TestResults : gmap string TestResult;
  BestStrategy : string;
  Running : option RunningInfo;
  TestInProgress : bool
}.

Definition set_Version (v : string) (c : t) : t :=
  {| Version := v; LastStrategy := LastStrategy c; LastTestAt := LastTestAt c;
     TestResults := TestResults c; BestStrategy := BestStrategy c;
     Running := Running c; TestInProgress := TestInProgress c |}.

Definition set_LastStrategy (v : string) (c : t) : t :=
  {| Version := Version c; LastStrategy := v; LastTestAt := LastTestAt c;
     TestResults := TestResults c; BestStrategy := BestStrategy c;
     Running := Running c; TestInProgress := TestInProgress c |}.

Definition set_TestResults (v : gmap string TestResult) (c : t) : t :=
  {| Version := Version c; LastStrategy := LastStrategy c; LastTestAt := LastTestAt c;
     TestResults := v; BestStrategy := BestStrategy c;
     Running := Running c; TestInProgress := TestInProgress c |}.

Definition set_BestStrategy (v : string) (c : t) : t :=
  {| Version := Version c; LastStrategy := LastStrategy c; LastTestAt := LastTestAt c;
     TestResults := TestResults c; BestStrategy := v;
     Running := Running c; TestInProgress := TestInProgress c |}.

Definition set_Running (v : option RunningInfo) (c : t) : t :=
  {| Version := Version c; LastStrategy := LastStrategy c; LastTestAt := LastTestAt c;
     TestResults := TestResults c; BestStrategy := BestStrategy c;
     Running := v; TestInProgress := TestInProgress c |}.

(** The value [loadConfig] starts from: two empty maps, zero values. *)
Definition fresh : t :=
  {| Version := ""; LastStrategy := ""; LastTestAt := 0;
     TestResults := ∅; BestStrategy := "";
     Running := None; TestInProgress := false |}.
End Config.
Abbreviation Config := Config.t.

(** The zero value of [TestResult]. *)
Definition noResult : TestResult :=
  {| Name := ""; HTTP_OK := 0; HTTP_ERR := 0; HTTP_UNSUP := 0; PingOK := 0;
     PingFail := 0; Fail := 0; Blocked := 0; Status := ""; LastTestedAt := 0 |}.

Module Strategy.
Record t : Type := {
  Name : string;
  File : path;
  Result : TestResult;
  Best : bool
}.
End Strategy.
Abbreviation Strategy := Strategy.t.

Module State.
Record t : Type := {
  Config : Config.t;
  Strategies : list Strategy;
  LatestTag : string;
  HasUpdate : bool;
  CurrentPath : option path;
  LastTestLog : string;
  Running : option RunningInfo
}.
End State.
Abbreviation State := State.t.

(** ** Sorting as [sort.Slice] and [sort.Strings] leave a slice

    The result is the sorted arrangement of the elements; insertion from
    the right builds it. *)

Fixpoint insert_by {A} (less : A → A → bool) (x : A) (l : list A) : list A :=
  match l with
  | [] => [x]
  | y :: l' => if less y x then y :: insert_by less x l' else x :: l
  end.

Definition sort_Slice {A} (less : A → A → bool) (l : list A) : list A :=
  foldr (insert_by less) [] l.

Definition sort_Strings (l : list string) : list string :=
  sort_Slice String.ltb l.

(** ** The file tree below the releases directory

    A tree is the finite map of its nodes; the directory itself is the
    empty path. The [os] calls below are the ones the service makes. *)

Inductive Node : Type :=
| DirNode
| FileNode (data : string) (mtime : Z).

Abbreviation FS := (gmap (list string) Node).

Definition IsDir (n : Node) : bool :=
  match n with DirNode => true | FileNode _ _ => false end.

Definition ModTime (n : Node) : Z :=
  match n with DirNode => 0 | FileNode _ t => t end.

(** [os.Stat]. *)
Definition Stat (fs : FS) (p : path) : Result Node :=
  match p with
  | [] => Ok DirNode
  | _ => match fs !! p with
         | Some n => Ok n
         | None => Err (PathError "stat")
         end
  end.

(** [filepath.Dir] and [filepath.Base]. *)
Definition Dir (p : path) : path := removelast p.
Definition Base (p : path) : string := List.last p ".".

(** [os.MkdirAll]: every missing directory on the way down is created; a
    regular file on the way is an error. *)
Fixpoint mkdirs (fs : FS) (done todo : path) : Result unit * FS :=
  match todo with
  | [] => (Ok tt, fs)
  | d :: todo' =>
      let p := (done ++ [d])%list in
      match fs !! p with
      | Some DirNode => mkdirs fs p todo'
      | Some (FileNode _ _) => (Err (PathError "mkdir"), fs)
      | None => mkdirs (<[p := DirNode]> fs) p todo'
      end
  end.

Definition MkdirAll (fs : FS) (p : path) : Result unit * FS := mkdirs fs [] p.

(** [os.OpenFile(p, O_CREATE|O_WRONLY|O_TRUNC)]: the file is created or
    emptied; it fails on a directory and below anything but a directory. *)
Definition OpenFile (now : Z) (fs : FS) (p : path) : Result unit * FS :=
  match Stat fs (Dir p), p with
  | Ok DirNode, _ :: _ =>
      match fs !! p with
      | Some DirNode => (Err (PathError "open"), fs)
      | _ => (Ok tt, <[p := FileNode "" now]> fs)
      end
  | _, _ => (Err (PathError "open"), fs)
  end.

(** [os.ReadFile]. *)
Definition ReadFile (fs : FS) (p : path) : Result string :=
  match fs !! p with
  | Some (FileNode data _) => Ok data
  | _ => Err (PathError "read")
  end.

Fixpoint strip_prefix (p q : path) : option path :=
  match p, q with
  | [], _ => Some q
  | a :: p', b :: q' => if String.eqb a b then strip_prefix p' q' else None
  | _ :: _, [] => None
  end.

Definition child_of (p : path) (entry : path * Node) : option (string * Node) :=
  match strip_prefix p (fst entry) with
  | Some [name] => Some (name, snd entry)
  | _ => None
  end.

(** [os.ReadDir]: the entries of a directory, sorted by file name. *)
Definition ReadDir (fs : FS) (p : path) : Result (list (string * Node)) :=
  match Stat fs p with
  | Ok DirNode =>
      Ok (sort_Slice (λ a b, String.ltb (fst a) (fst b))
            (omap (child_of p) (map_to_list fs)))
  | Ok (FileNode _ _) => Err (PathError "readdir")
  | Err e => Err e
  end.

Fixpoint path_ltb (p q : path) : bool :=
  match p, q with
  | [], [] => false
  | [], _ :: _ => true
  | _ :: _, [] => false
  | a :: p', b :: q' =>
      match String.compare a b with
      | Lt => true
      | Gt => false
      | Eq => path_ltb p' q'
      end
  end.

(** A loop over a slice that changes the tree and returns at the first error. *)
Fixpoint each {A} (f : FS → A → Result unit * FS) (l : list A) (fs : FS)
  : Result unit * FS :=
  match l with
  | [] => (Ok tt, fs)
  | x :: l' =>
      match f fs x with
      | (Ok _, fs') => each f l' fs'
      | (Err e, fs') => (Err e, fs')
      end
  end.

(** [copyFile]: the source is open already; make the parent, create the
    destination, copy. *)
Definition copyFile (now : Z) (data : string) (fs : FS) (dst : path) : Result unit * FS :=
  match MkdirAll fs (Dir dst) with
  | (Err e, fs1) => (Err e, fs1)
  | (Ok _, fs1) =>
      match OpenFile now fs1 dst with
      | (Err e, fs2) => (Err e, fs2)
      | (Ok _, fs2) => (Ok tt, <[dst := FileNode data now]> fs2)
      end
  end.

(** [copyDir]: [filepath.WalkDir] visits [src] and everything below it in
    lexical order; directories are made, files copied. *)
Definition walk (tree : FS) (src : path) : list (path * Node) :=
  sort_Slice (λ a b, path_ltb (fst a) (fst b))
    (omap (λ e, match strip_prefix src (fst e) with
                | Some rel => Some (rel, snd e)
                | None => None
                end) (map_to_list tree)).

Definition copyDir (now : Z) (tree : FS) (src dst : path) (fs : FS) : Result unit * FS :=
  each (λ fs e,
          let target := (dst ++ fst e)%list in
          match snd e with
          | DirNode => MkdirAll fs target
          | FileNode data _ => copyFile now data fs target
          end) (walk tree src) fs.

(** ** Archives *)

Inductive ZipBody : Type :=
| OpenFails                    (* f.Open returns an error *)
| CopyFails (written : string) (* io.Copy stops with an error *)
| Data (data : string).

Record ZipFile : Type := {
  zName : path;      (* f.Name, split at its slashes *)
  zIsDir : bool;     (* f.FileInfo().IsDir() *)
  zBody : ZipBody
}.

(** The body of the loop of [unzipBuffer] for one archive member. *)
Definition unzip_member (now : Z) (dest : path) (fs : FS) (f : ZipFile) : Result unit * FS :=
  let fp := (dest ++ zName f)%list in
  if zIsDir f then MkdirAll fs fp
  else
    match MkdirAll fs (Dir fp) with
    | (Err e, fs1) => (Err e, fs1)
    | (Ok _, fs1) =>
        match zBody f with
        | OpenFails => (Err ZipError, fs1)
        | CopyFails written =>
            match OpenFile now fs1 fp with
            | (Err e, fs2) => (Err e, fs2)
            | (Ok _, fs2) => (Err ZipError, <[fp := FileNode written now]> fs2)
            end
        | Data data =>
            match OpenFile now fs1 fp with
            | (Err e, fs2) => (Err e, fs2)
            | (Ok _, fs2) => (Ok tt, <[fp := FileNode data now]> fs2)
            end
        end
    end.

(** [unzipBuffer]: [None] is a buffer that [zip.NewReader] rejects. *)
Definition unzipBuffer (now : Z) (data : option (list ZipFile)) (dest : path) (fs : FS)
  : Result unit * FS :=
  match data with
  | None => (Err ZipError, fs)
  | Some files => each (unzip_member now dest) files fs
  end.

(** ** The host the service runs on *)

Inductive Body : Type :=
| ReadAllFails
| Bytes (data : option (list ZipFile)).

Inductive Response : Type :=
| DoFails
| Resp (StatusCode : Z) (Status : string) (Location : string) (body : Body).

(** The commands the service starts. *)
Inductive Cmd : Type :=
| TaskkillImage (image : string)             (* taskkill /IM image /T /F *)
| StopProcessName (name : string)            (* powershell: Get-Process -Name name | Stop-Process -Force *)
| WmicDelete (image : string)                (* wmic process where name='image' delete *)
| StopProcessId (pid : Z)                    (* powershell: Stop-Process -Id pid -Force *)
| TaskkillPid (pid : Z)                      (* taskkill /PID pid /T /F *)
| Tasklist (pid : Z)                         (* tasklist /FI "pid eq pid" *)
| StartProcess (full workdir : path) (hidden : bool). (* powershell: Start-Process ... -PassThru *)

Inductive Event : Type :=
| EvGet (url : string)         (* an HTTP request was sent *)
| EvUnzip (dest : path)        (* an archive was handed to unzipBuffer *)
| EvWriteFile (cfg : Config)   (* config.json was handed to os.WriteFile *)
| EvRun (c : Cmd).             (* a command was started *)

(** What the service cannot decide: the outcome of the calls that leave the
    process. [run] gives, for a command and the process table it meets, its
    outcome (combined output or failure) and the process table it leaves. *)
Record Env : Type := {
  mkdir_dirs : Result unit;         (* os.MkdirAll of baseDir, releasesDir, logsDir *)
  config_writable : bool;           (* whether os.WriteFile(configPath) succeeds *)
  bundled : option FS;              (* the tree of ./release, if it can be listed *)
  NewRequest_ok : string → bool;    (* whether http.NewRequest accepts the URL *)
  http_Do : string → Response;      (* the answer to a GET, by URL *)
  tasklist_fails : bool;
  run : Cmd → gmap Z string → Result string * gmap Z string;
  now : Z;                          (* time.Now() *)
  RUN_PROCESS_HIDDEN : bool
}.

(** The service together with its host: [config] is [Service.config] (nil
    is [None]); [configFile] is config.json as [json.Unmarshal] reads it onto
    the fresh value ([None]: missing or unreadable); [fs] is the tree below
    releasesDir; [procs] maps the live process ids to their image names. *)
Record Sys : Type := {
  env : Env;
  config : option Config;
  configFile : option Config;
  fs : FS;
  procs : gmap Z string;
  trace : list Event
}.

Definition set_config (v : option Config) (s : Sys) : Sys :=
  {| env := env s; config := v; configFile := configFile s; fs := fs s;
     procs := procs s; trace := trace s |}.

Definition set_configFile (v : option Config) (s : Sys) : Sys :=
  {| env := env s; config := config s; configFile := v; fs := fs s;
     procs := procs s; trace := trace s |}.

Definition set_fs (v : FS) (s : Sys) : Sys :=
  {| env := env s; config := config s; configFile := configFile s; fs := v;
     procs := procs s; trace := trace s |}.

Definition set_procs (v : gmap Z string) (s : Sys) : Sys :=
  {| env := env s; config := config s; configFile := configFile s; fs := fs s;
     procs := v; trace := trace s |}.

Definition log (e : Event) (s : Sys) : Sys :=
  {| env := env s; config := config s; configFile := configFile s; fs := fs s;
     procs := procs s; trace := (trace s ++ [e])%list |}.

(** ** The monad of the service: state and Go's [error] results *)

Definition M (A : Type) : Type := Sys → Result A * Sys.

Definition ret {A} (a : A) : M A := λ s, (Ok a, s).

Definition fail {A} (e : error) : M A := λ s, (Err e, s).

Definition bind {A B} (m : M A) (k : A → M B) : M B :=
  λ s, match m s with
       | (Ok a, s') => k a s'
       | (Err e, s') => (Err e, s')
       end.

(** [r, err := f()] with the error looked at, or dropped, by the caller. *)
Definition try {A} (m : M A) : M (Result A) :=
  λ s, (Ok (fst (m s)), snd (m s)).

Definition gets {A} (f : Sys → A) : M A := λ s, (Ok (f s), s).

Definition modify (f : Sys → Sys) : M unit := λ s, (Ok tt, f s).

Definition lift {A} (r : Result A) : M A := λ s, (r, s).

(** A call that looks at the host and leaves it as it is. *)
Definition read {A} (f : Sys → Result A) : M A := λ s, (f s, s).

(** A call that changes the tree below releasesDir. *)
Definition on_fs (f : FS → Result unit * FS) : M unit :=
  λ s, (fst (f (fs s)), set_fs (snd (f (fs s))) s).

Notation "x <- m ;; k" := (bind m (λ x, k))
  (at level 20, m at level 99, k at level 200, only parsing).
Notation "m ;; k" := (bind m (λ _, k))
  (at level 100, k at level 200, right associativity, only parsing).

(** [cfg] is the pointer [s.config]: what is read or assigned through it is
    read from, or assigned in, the service's config. *)
Definition cfg_read {A} (f : Config → A) : M A :=
  λ s, match config s with
       | Some c => (Ok (f c), s)
       | None => (Err (errors_New "nil pointer dereference"), s)
       end.

Definition cfg_write (f : Config → Config) : M unit :=
  λ s, match config s with
       | Some c => (Ok tt, set_config (Some (f c)) s)
       | None => (Err (errors_New "nil pointer dereference"), s)
       end.

Definition repoLatestURL : string :=
  "https://github.com/Flowseal/zapret-discord-youtube/releases/latest".

(** [fmt.Sprintf(downloadTemplate, tag, tag)]. *)
Definition downloadURL (tag : string) : string :=
  "https://github.com/Flowseal/zapret-discord-youtube/releases/download/"
  +:+ tag +:+ "/zapret-discord-youtube-" +:+ tag +:+ ".zip".

(** [client.Do(req)] for a GET of [url]. *)
Definition http_get (url : string) : M Response :=
  λ s, (Ok (http_Do (env s) url), log (EvGet url) s).

(** [exec.Command(...).Run()] with the combined output. *)
Definition exec (c : Cmd) : M string :=
  λ s, (fst (run (env s) c (procs s)),
        log (EvRun c) (set_procs (snd (run (env s) c (procs s))) s)).

(** What [tasklist /FI "pid eq N"] prints: the table row of the process
    when it is alive, an information line otherwise. *)
Definition tasklist_output (table : gmap Z string) (pid : Z) : string :=
  match table !! pid with
  | Some image =>
      "Image Name PID Session Name Session# Mem Usage" +:+ String "010" (
      image +:+ " " +:+ strconv.Itoa pid +:+ " Console 1 K")
  | None => "INFO: No tasks are running which match the specified criteria."
  end.

Definition tasklist (pid : Z) : M string :=
  λ s, (if tasklist_fails (env s) then Err ExecError
        else Ok (tasklist_output (procs s) pid),
        log (EvRun (Tasklist pid)) s).

(** [isPIDRunning]. *)
Definition isPIDRunning (pid : Z) : M bool :=
  if pid <=? 0 then ret false
  else
    out <- try (tasklist pid) ;;
    match out with
    | Err _ => ret false
    | Ok out => ret (strings.Contains out (strconv.Itoa pid))
    end.

(** The file argument of [RunStrategy], as [filepath.IsAbs] and
    [filepath.Join] read it: relative, or the absolute path of a node below
    releasesDir. *)
Inductive filename : Type :=
| Rel (p : path)
| Abs (p : path).

Module Service.

Definition ensureDirs : M unit := read (λ s, mkdir_dirs (env s)).

(** [seedLocalRelease]. *)
Definition seedLocalRelease : M string :=
  tree <- gets (λ s, bundled (env s)) ;;
  match tree with
  | None => fail (PathError "open")
  | Some tree =>
      entries <- lift (ReadDir tree []) ;;
      let versions := map fst (filter (λ e, IsDir (snd e)) entries) in
      match sort_Strings versions with
      | [] => fail (errors_New "no bundled releases")
      | v :: vs =>
          let latest := List.last vs v in
          st <- gets (λ s, Stat (fs s) [latest]) ;;
          match st with
          | Ok _ => ret latest
          | Err _ =>
              t <- gets (λ s, now (env s)) ;;
              on_fs (copyDir t tree [latest] [latest]) ;;
              ret latest
          end
      end
  end.

(** [loadConfig]. *)
Definition loadConfig : M Config :=
  cached <- gets config ;;
  match cached with
  | Some cfg => ret cfg
  | None =>
      ensureDirs ;;
      file <- gets configFile ;;
      let cfg := match file with Some c => c | None => Config.fresh end in
      (if String.eqb (Config.Version cfg) ""
       then
         v <- try seedLocalRelease ;;
         match v with
         | Ok v =>
             if negb (String.eqb v "")
             then modify (set_config (Some (Config.set_Version v cfg)))
             else modify (set_config (Some cfg))
         | Err _ => modify (set_config (Some cfg))
         end
       else modify (set_config (Some cfg))) ;;
      cfg_read id
  end.

(** [saveConfig]. *)
Definition saveConfig : M unit :=
  cached <- gets config ;;
  match cached with
  | None => fail (errors_New "config nil")
  | Some cfg =>
      modify (log (EvWriteFile cfg)) ;;
      ok <- gets (λ s, config_writable (env s)) ;;
      if (ok : bool) then modify (set_configFile (Some cfg))
      else fail (PathError "open")
  end.

(** [currentReleasePath]. *)
Definition currentReleasePath : M (option path) :=
  cfg <- try loadConfig ;;
  match cfg with
  | Err _ => ret None
  | Ok cfg =>
      if String.eqb (Config.Version cfg) "" then ret None
      else ret (Some [Config.Version cfg])
  end.

(** [latestTag]. [http.NewRequest] cannot fail on the constant URL. *)
Definition latestTag : M string :=
  resp <- http_get repoLatestURL ;;
  match resp with
  | DoFails => fail NetError
  | Resp _ _ location _ =>
      let loc := if String.eqb location "" then repoLatestURL else location in
      match strings.Split (strings.TrimRight loc "/") "/" with
      | [] => fail (errors_New "cannot parse latest tag")
      | p :: parts => ret (List.last parts p)
      end
  end.

(** [downloadAndUnpack]. *)
Definition downloadAndUnpack (tag : string) : M unit :=
  if String.eqb tag "" then fail (errors_New "tag empty")
  else
    ensureDirs ;;
    let targetDir := [tag] in
    st <- gets (λ s, Stat (fs s) targetDir) ;;
    match st with
    | Ok DirNode => ret tt   (* already unpacked *)
    | _ =>
        let url := downloadURL tag in
        accepted <- gets (λ s, NewRequest_ok (env s) url) ;;
        if negb accepted then fail URLError
        else
          resp <- http_get url ;;
          match resp with
          | DoFails => fail NetError
          | Resp code status _ body =>
              if 400 <=? code then fail (errors_New ("download failed: " +:+ status))
              else
                match body with
                | ReadAllFails => fail NetError
                | Bytes buf =>
                    modify (log (EvUnzip targetDir)) ;;
                    t <- gets (λ s, now (env s)) ;;
                    on_fs (unzipBuffer t buf targetDir)
                end
          end
    end.

(** [listStrategies]. *)
Definition listStrategies : M (list Strategy) :=
  current <- currentReleasePath ;;
  match current with
  | None => ret []
  | Some current =>
      entries <- read (λ s, ReadDir (fs s) current) ;;
      let res :=
        omap (λ e : string * Node,
                let name := fst e in
                if IsDir (snd e) || strings.HasPrefix (strings.ToLower name) "service"
                then None
                else if strings.HasSuffix (strings.ToLower name) ".bat"
                        && strings.HasPrefix (strings.ToLower name) "general"
                then Some {| Strategy.Name := name;
                             Strategy.File := (current ++ [name])%list;
                             Strategy.Result := noResult;
                             Strategy.Best := false |}
                else None) entries in
      ret (sort_Slice (λ a b, String.ltb (Strategy.Name a) (Strategy.Name b)) res)
  end.

(** [parseLatestResult]: the loop keeps the entry whose modification time is
    after every earlier one's and after the zero time. *)
Definition latest_entry (entries : list (string * Node)) : option (string * Node) :=
  fst (fold_left
         (λ (acc : option (string * Node) * Z) (e : string * Node),
            if IsDir (snd e) then acc
            else if snd acc <? ModTime (snd e) then (Some e, ModTime (snd e))
            else acc)
         entries (None, 0)).

Definition parseLatestResult (current : path) : M parsedResults :=
  let dir := (current ++ ["utils"; "test results"])%list in
  entries <- read (λ s, ReadDir (fs s) dir) ;;
  match latest_entry entries with
  | None => fail (errors_New "no test results found")
  | Some latest =>
      data <- read (λ s, ReadFile (fs s) (dir ++ [fst latest])%list) ;;
      lift (parseAnalytics data)
  end.

(** The loop of [State] over the strategies: the stored result and the
    best marker are attached by name. *)
Definition decorate (cfg : Config) (st : Strategy) : Strategy :=
  {| Strategy.Name := Strategy.Name st;
     Strategy.File := Strategy.File st;
     Strategy.Result :=
       match Config.TestResults cfg !! Strategy.Name st with
       | Some res => res
       | None => Strategy.Result st
       end;
     Strategy.Best :=
       if negb (String.eqb (Config.BestStrategy cfg) "")
          && String.eqb (Config.BestStrategy cfg) (Strategy.Name st)
       then true else Strategy.Best st |}.

(** The first block of [State]: "Rehydrate last test results from disk for
    initial UI load". *)
Definition rehydrate (current : path) : M unit :=
  latest <- try (parseLatestResult current) ;;
  match latest with
  | Ok latest =>
      if Nat.ltb 0 (size (Results latest))
      then
        cfg_write (Config.set_TestResults (Results latest)) ;;
        cfg_write (Config.set_BestStrategy (Best latest)) ;;
        try saveConfig ;;
        ret tt
      else ret tt
  | Err _ => ret tt
  end.

(** The second block of [State], inside the same [if current != ""]:
    "Validate running process if we have one recorded". *)
Definition validate_running : M unit :=
  running <- cfg_read Config.Running ;;
  match running with
  | Some r =>
      alive <- isPIDRunning (RunningInfo.PID r) ;;
      if negb alive
      then cfg_write (Config.set_Running None) ;; try saveConfig ;; ret tt
      else ret tt
  | None => ret tt
  end.

(** The rest of [State], from [latestTag] to the returned value. *)
Definition snapshot : M State.t :=
  latest <- try latestTag ;;
  let latest := match latest with Ok tag => tag | Err _ => "" end in
  version <- cfg_read Config.Version ;;
  let hasUpdate := negb (String.eqb latest "") && negb (String.eqb latest version) in
  strategies <- try listStrategies ;;
  let strategies := match strategies with Ok l => l | Err _ => [] end in
  cfg <- cfg_read id ;;
  current <- currentReleasePath ;;
  ret {| State.Config := cfg;
         State.Strategies := map (decorate cfg) strategies;
         State.LatestTag := latest;
         State.HasUpdate := hasUpdate;
         State.CurrentPath := current;
         State.LastTestLog := "";
         State.Running := Config.Running cfg |}.

(** [State]. *)
Definition State : M State.t :=
  loadConfig ;;
  current <- currentReleasePath ;;
  match current with
  | Some current => rehydrate current ;; validate_running
  | None => ret tt
  end ;;
  snapshot.

(** [CheckAndUpdate]. *)
Definition CheckAndUpdate : M State.t :=
  cfg <- loadConfig ;;
  latest <- latestTag ;;
  if String.eqb (Config.Version cfg) latest && negb (String.eqb latest "")
  then State
  else
    downloadAndUnpack latest ;;
    cfg_write (Config.set_Version latest) ;;
    saveConfig ;;
    State.

(** [StopRunning]: three attempts on every winws.exe, then the tracked
    process; no outcome of a command is looked at. *)
Definition StopRunning : M unit :=
  loadConfig ;;
  try (exec (TaskkillImage "winws.exe")) ;;
  try (exec (StopProcessName "winws")) ;;
  try (exec (WmicDelete "winws.exe")) ;;
  running <- cfg_read Config.Running ;;
  match running with
  | Some r =>
      alive <- isPIDRunning (RunningInfo.PID r) ;;
      (if (alive : bool)
       then
         try (exec (StopProcessId (RunningInfo.PID r))) ;;
         try (exec (TaskkillPid (RunningInfo.PID r))) ;;
         ret tt
       else ret tt) ;;
      cfg_write (Config.set_Running None) ;;
      try saveConfig ;;
      ret tt
  | None => ret tt
  end.

(** [StopAllRunning]. *)
Definition StopAllRunning : M unit := try StopRunning ;; ret tt.

(** [RunStrategy]. *)
Definition RunStrategy (file : filename) : M State.t :=
  loadConfig ;;
  (* Stop previously running strategy if tracked *)
  try StopRunning ;;
  current <- currentReleasePath ;;
  match current with
  | None => fail (errors_New "no current release")
  | Some current =>
      let full := match file with
                  | Abs p => p
                  | Rel p => (current ++ p)%list
                  end in
      read (λ s, Stat (fs s) full) ;;
      hidden <- gets (λ s, RUN_PROCESS_HIDDEN (env s)) ;;
      out <- exec (StartProcess full (Dir full) hidden) ;;
      let pid := atoi (strings.TrimSpace out) in
      (if 0 <? pid
       then
         t <- gets (λ s, now (env s)) ;;
         cfg_write (Config.set_Running
                      (Some {| RunningInfo.File := Base full;
                               RunningInfo.PID := pid;
                               RunningInfo.StartedAt := t |})) ;;
         try saveConfig ;;
         ret tt
       else ret tt) ;;
      cfg_write (Config.set_LastStrategy (Base full)) ;;
      try saveConfig ;;
      State
  end.

End Service.

(** ** The bridge of [app.go] *)

Module App.

Definition GetState : M State.t := Service.State.

Definition CheckAndUpdate : M State.t := Service.CheckAndUpdate.

Definition RunStrategy (file : filename) : M State.t := Service.RunStrategy file.

(** [StopStrategy]. *)
Definition StopStrategy : M State.t :=
  Service.StopRunning ;;
  Service.State.

Definition StopAll : M unit := try Service.StopRunning ;; ret tt.

End App.

(** ** [RunTests]

    The test script runs beside the service, which waits for it in a
    [select] loop. The parts of [RunTests] before and after the loop are
    embedded as they are written; the loop is embedded as a function of the
    cases that [select] takes, one after the other. *)

Definition set_LastTestAt (v : Z) (c : Config) : Config :=
  {| Config.Version := Config.Version c; Config.LastStrategy := Config.LastStrategy c;
     Config.LastTestAt := v;
     Config.TestResults := Config.TestResults c; Config.BestStrategy := Config.BestStrategy c;
     Config.Running := Config.Running c; Config.TestInProgress := Config.TestInProgress c |}.

Definition set_TestInProgress (v : bool) (c : Config) : Config :=
  {| Config.Version := Config.Version c; Config.LastStrategy := Config.LastStrategy c;
     Config.LastTestAt := Config.LastTestAt c;
     Config.TestResults := Config.TestResults c; Config.BestStrategy := Config.BestStrategy c;
     Config.Running := Config.Running c; Config.TestInProgress := v |}.

(** What both results of a Go function that returns a state and an error
    are: either may be nil. *)
Abbreviation Returned := (option State.t * option error)%type.

(** [killProcessTree]. *)
Definition killProcessTree (pid : Z) : M unit :=
  if pid <=? 0 then ret tt
  else try (exec (TaskkillPid pid)) ;; ret tt.

Section RunTests.

(** [os.RemoveAll], whose outcome [RunTests] drops: whatever it does to the
    tree below releasesDir. *)
Variable RemoveAll : path → FS → Result unit * FS.

(** [RunTests] from its start to the point where the watcher and the test
    script are started; it returns the current release path. *)
Definition RunTests_prepare : M path :=
  Service.loadConfig ;;
  current <- Service.currentReleasePath ;;
  match current with
  | None => fail (errors_New "no current release")
  | Some current =>
      let ps1 := (current ++ ["utils"; "test zapret.ps1"])%list in
      read (λ s, Stat (fs s) ps1) ;;
      (* Remove old test results files to ensure only fresh output is parsed *)
      let resultsDir := (current ++ ["utils"; "test results"])%list in
      try (on_fs (RemoveAll resultsDir)) ;;
      try (on_fs (λ fs, MkdirAll fs resultsDir)) ;;
      (* Clear config and mark tests as in progress for the UI *)
      cfg_write (Config.set_TestResults ∅) ;;
      cfg_write (Config.set_BestStrategy "") ;;
      cfg_write (set_TestInProgress true) ;;
      t <- gets (λ s, now (env s)) ;;
      cfg_write (set_LastTestAt t) ;;
      try Service.saveConfig ;;
      ret current
  end.

End RunTests.

(** The branch [if startErr != nil] of [RunTests]. *)
Definition RunTests_notStarted (startErr : error) : M Returned :=
  cfg_write (Config.set_TestResults ∅) ;;
  cfg_write (Config.set_BestStrategy "") ;;
  cfg_write (set_TestInProgress false) ;;
  t <- gets (λ s, now (env s)) ;;
  cfg_write (set_LastTestAt t) ;;
  try Service.saveConfig ;;
  state <- try Service.State ;;
  match state with
  | Err stateErr => ret (None, Some stateErr)
  | Ok state => ret (Some state, Some startErr)
  end.

(** The three variables of the wait loop. *)
Module Wait.
Record t : Type := {
  parsed : option parsedResults;
  watchErr : option error;
  cmdErr : option error
}.

(** [var parsed *parsedResults; var watchErr error; var cmdErr error]. *)
Definition start : t := {| parsed := None; watchErr := None; cmdErr := None |}.
End Wait.

(** The case that [select] takes in one round of the wait loop. The watcher
    sends results and errors that are not nil; PowerShell's exit comes with
    an error or with none; [ctx.Err()] is what the deadline left. *)
Inductive Selected : Type :=
| GotResult (p : parsedResults)   (* case parsed = <-resultCh *)
| GotWatchErr (e : error)         (* case watchErr = <-errCh *)
| GotExit (e : option error)      (* case cmdErr = <-psDone *)
| GotDone (e : error)             (* case <-ctx.Done(), with ctx.Err() *)
| Idle.                           (* default *)

(** The wait loop of [RunTests] for a test script that runs as process
    [pid]: [None] while it has not left the loop. *)
Fixpoint waitLoop (pid : Z) (selected : list Selected) (w : Wait.t) : M (option Wait.t) :=
  match selected with
  | [] => ret None
  | GotResult p :: _ =>
      (* We have results; stop PowerShell even if it is waiting for ReadKey. *)
      killProcessTree pid ;;
      ret (Some {| Wait.parsed := Some p; Wait.watchErr := None;
                   Wait.cmdErr := Wait.cmdErr w |})
  | GotWatchErr e :: _ =>
      killProcessTree pid ;;
      ret (Some {| Wait.parsed := Wait.parsed w; Wait.watchErr := Some e;
                   Wait.cmdErr := Wait.cmdErr w |})
  | GotExit (Some e) :: _ =>
      ret (Some {| Wait.parsed := Wait.parsed w; Wait.watchErr := Wait.watchErr w;
                   Wait.cmdErr := Some e |})
  | GotExit None :: rest =>
      waitLoop pid rest {| Wait.parsed := Wait.parsed w; Wait.watchErr := Wait.watchErr w;
                           Wait.cmdErr := None |}
  | GotDone e :: _ =>
      killProcessTree pid ;;
      ret (Some {| Wait.parsed := Wait.parsed w; Wait.watchErr := Some e;
                   Wait.cmdErr := Wait.cmdErr w |})
  | Idle :: rest => waitLoop pid rest w
  end.

(** [context.Canceled]. *)
Definition context_Canceled : error := errors_New "context canceled".

Definition is_Canceled (e : error) : bool :=
  match e with
  | errors_New msg => String.eqb msg "context canceled"
  | _ => false
  end.

(** "Bubble up the most relevant error while still returning state for the
    UI": the error that [RunTests] returns after the loop. *)
Definition bubble_up (w : Wait.t) (stateErr : option error) : option error :=
  match Wait.parsed w with
  | None =>
      match Wait.watchErr w, Wait.cmdErr w with
      | Some e, cmdErr =>
          if negb (is_Canceled e) then Some e
          else match cmdErr with
               | Some e' => Some e'
               | None => Some (errors_New "test results file not found")
               end
      | None, Some e' => Some e'
      | None, None => Some (errors_New "test results file not found")
      end
  | Some _ =>
      match Wait.cmdErr w with
      | Some e' => Some e'
      | None => stateErr
      end
  end.

(** [RunTests] after the wait loop. *)
Definition RunTests_finish (w : Wait.t) : M Returned :=
  match Wait.parsed w with
  | Some parsed =>
      cfg_write (Config.set_TestResults (Results parsed)) ;;
      cfg_write (Config.set_BestStrategy (Best parsed))
  | None =>
      cfg_write (Config.set_TestResults ∅) ;;
      cfg_write (Config.set_BestStrategy "")
  end ;;
  cfg_write (set_TestInProgress false) ;;
  t <- gets (λ s, now (env s)) ;;
  cfg_write (set_LastTestAt t) ;;
  try Service.saveConfig ;;
  state <- try Service.State ;;
  match state with
  | Ok state => ret (Some state, bubble_up w None)
  | Err stateErr => ret (None, bubble_up w (Some stateErr))
  end.

(** Whether the results directory has a file of the test script: the inner
    loop of [waitForResultFile]. *)
Definition hasResultFile (entries : list (string * Node)) : bool :=
  existsb (λ e, negb (IsDir (snd e))
                && strings.HasPrefix (strings.ToLower (fst e)) "test_results_"
                && strings.HasSuffix (strings.ToLower (fst e)) ".txt") entries.

(** What one tick of [waitForResultFile] does. *)
Inductive Tick : Type :=
| KeepWaiting                     (* continue *)
| SendErr (e : error)             (* errCh <- err; return *)
| SendResult (p : parsedResults). (* resultCh <- parsed; return *)

Definition waitForResultFile_tick (current : path) : M Tick :=
  let resultsDir := (current ++ ["utils"; "test results"])%list in
  entries <- try (read (λ s, ReadDir (fs s) resultsDir)) ;;
  match entries with
  | Err e => ret (SendErr e)
  | Ok entries =>
      if negb (hasResultFile entries) then ret KeepWaiting
      else
        parsed <- try (Service.parseLatestResult current) ;;
        match parsed with
        | Err _ => ret KeepWaiting   (* File may still be being written; keep waiting. *)
        | Ok parsed => ret (SendResult parsed)
        end
  end.

(** * Vocabulary of the statements *)

(** ** Report lines *)

(** The result a line stores, if it takes one of the two result branches. *)
Definition result_of (raw : string) : option TestResult :=
  match classify raw with
  | Standard res | DpiSummary res => Some res
  | _ => None
  end.

(** The text of a report line: the literals of a pattern, each followed by
    a numeral. *)
Fixpoint tail_of (lits nums : list string) : string :=
  match lits, nums with
  | lit :: lits', n :: nums' => lit +:+ n +:+ tail_of lits' nums'
  | _, _ => EmptyString
  end.

(** Every byte is an ASCII digit. *)
Fixpoint all_digits (s : string) : bool :=
  match s with
  | EmptyString => true
  | String c s' => strconv.is_digit c && all_digits s'
  end.

(** One or more digits. *)
Definition numeral (s : string) : Prop := s ≠ "" ∧ all_digits s = true.

(** A literal that a digit group can be followed by: it starts with a byte
    that is no digit. *)
Definition stops_digits (lit : string) : Prop :=
  match lit with
  | String c _ => strconv.is_digit c = false
  | EmptyString => False
  end.

(** No place in the text where a space is followed by a colon. *)
Definition colon_free (s : string) : Prop := strings.Contains s " :" = false.

(** The first literal of a pattern starts with a space and a colon. *)
Definition starts_space_colon (lits : list string) : Prop :=
  match lits with
  | lit :: _ => strings.HasPrefix lit " :" = true
  | [] => False
  end.

(** The two line forms of the report: a name followed by the literals of
    the standard pattern, or of the DPI-summary pattern, with a numeral
    after each. *)
Definition std_line (name n2 n3 n4 n5 n6 : string) : string :=
  name +:+ tail_of reStd [n2; n3; n4; n5; n6].

Definition dpi_line (name n2 n3 n4 n5 : string) : string :=
  name +:+ tail_of reDpi [n2; n3; n4; n5].

(** The first literal of either pattern without its leading space. *)
Definition reStd_rest : list string :=
  [": HTTP OK: "; ", ERR: "; ", UNSUP: "; ", Ping OK: "; ", Fail: "].

Definition reDpi_rest : list string :=
  [": OK: "; ", FAIL: "; ", UNSUP: "; ", BLOCKED: "].

(** A single byte occurs in a text. *)
Fixpoint occurs (c : ascii) (s : string) : bool :=
  match s with
  | EmptyString => false
  | String d s' => Ascii.eqb d c || occurs c s'
  end.

(** ** States before and after a call *)

(** A relation between the state before and after a call that every run of
    the call respects. *)
Definition preserves {A} (R : relation Sys) (m : M A) : Prop :=
  ∀ s, R s (snd (m s)).

(** The download work in the trace: archive requests and extractions; the
    request for the latest tag is none. *)
Definition is_work (e : Event) : bool :=
  match e with
  | EvGet url => negb (String.eqb url repoLatestURL)
  | EvUnzip _ => true
  | EvWriteFile _ | EvRun _ => false
  end.

Definition work (s : Sys) : list Event := List.filter is_work (trace s).

(** The config in memory together with the one in config.json. *)
Abbreviation stored := (Config * option Config)%type.

(** Once the config is loaded: the host's answers, the release tree, the
    process table and the download work stay as they are, the trace only
    grows, and the config stays loaded; config and config.json change
    within [Rc]. *)
Definition frame (Rc : relation stored) (s s' : Sys) : Prop :=
  ∀ c, config s = Some c →
    env s' = env s ∧ fs s' = fs s ∧ procs s' = procs s ∧ work s' = work s ∧
    (∀ e, e ∈ trace s → e ∈ trace s') ∧
    ∃ c', config s' = Some c' ∧ Rc (c, configFile s) (c', configFile s').

(** Nothing but the release tree differs. *)
Definition same_but_fs (s s' : Sys) : Prop :=
  env s' = env s ∧ config s' = config s ∧ configFile s' = configFile s ∧
  procs s' = procs s ∧ trace s' = trace s.

(** The state after [saveConfig] has handed the config [c] to the file
    system: the file holds it when the write succeeds. *)
Definition saved (c : Config) (s : Sys) : Sys :=
  if config_writable (env s)
  then set_configFile (Some c) (log (EvWriteFile c) s)
  else log (EvWriteFile c) s.

Definition any_change : relation stored := λ _ _, True.

(** Once the config is loaded the call returns a value, never an error, and
    leaves the config loaded. *)
Definition succeeds {A} (m : M A) : Prop :=
  ∀ s c, config s = Some c → ∃ a s', m s = (Ok a, s') ∧ is_Some (config s').

(** [latest, _ := s.latestTag()]: the error is dropped, the tag is empty
    then. *)
Definition tag_or_empty (r : Result string) : string :=
  match r with Ok tag => tag | Err _ => "" end.

(** The version in memory is the same. *)
Definition same_version : relation stored :=
  λ x y, Config.Version (fst y) = Config.Version (fst x).

(** The blocks of [State] between loading the config and the snapshot. *)
Definition refresh (current : option path) : M unit :=
  match current with
  | Some current => bind (Service.rehydrate current) (λ _, Service.validate_running)
  | None => ret tt
  end.

(** Config, config.json and the host's answers are the same. *)
Definition same_config (s s' : Sys) : Prop :=
  config s' = config s ∧ configFile s' = configFile s ∧ env s' = env s.





(** Only the process table and the trace differ. *)
Definition same_store (s s' : Sys) : Prop :=
  config s' = config s ∧ configFile s' = configFile s ∧ env s' = env s ∧ fs s' = fs s.

(** What tasklist prints when no process matches the filter. *)
Definition no_tasks : string :=
  "INFO: No tasks are running which match the specified criteria.".

(** The config with the results and the best strategy of a parsed report. *)
Definition with_results (p : parsedResults) (c : Config) : Config :=
  Config.set_BestStrategy (Best p) (Config.set_TestResults (Results p) c).

(** The running entry in memory is the same. *)
Definition same_running : relation stored :=
  λ x y, Config.Running (fst y) = Config.Running (fst x).

(** No running entry appears, and the last strategy is the same. *)
Definition stays_stopped : relation stored :=
  λ x y, (Config.Running (fst x) = None → Config.Running (fst y) = None) ∧
         Config.LastStrategy (fst y) = Config.LastStrategy (fst x).

(** The path [RunStrategy] launches. *)
Definition launch_path (current : path) (file : filename) : path :=
  match file with
  | Abs p => p
  | Rel p => (current ++ p)%list
  end.

(** ** The strategy catalog *)

(** A strategy file: the lowered name starts with "general" and ends with
    ".bat". *)
Definition is_general (name : string) : bool :=
  strings.HasPrefix (strings.ToLower name) "general"
  && strings.HasSuffix (strings.ToLower name) ".bat".

(** The lowered name starts with "service". *)
Definition is_service (name : string) : bool :=
  strings.HasPrefix (strings.ToLower name) "service".

(** The byte-wise order of the names, as Go's [<] on strings. *)
Definition name_le (a b : Strategy) : Prop :=
  String.leb (Strategy.Name a) (Strategy.Name b) = true.

(** ** A host to run the service on

    One release (1.8.0) with two strategies, a service script, a text file
    and a report of an earlier test run; the tracked process 4242 is gone;
    the remote offers 1.9.0. *)

Module Fixture.

Definition archive : list ZipFile :=
  [ {| zName := ["utils"]; zIsDir := true; zBody := Data "" |};
    {| zName := ["general.bat"]; zIsDir := false; zBody := Data "winws.exe" |} ].

Definition kill_image (image : string) (table : gmap Z string) : gmap Z string :=
  filter (λ p, snd p ≠ image) table.

(** Commands that do what they are asked; [Start-Process] prints the id of
    the process it starts, or [started] in its place. *)
Definition commands (started : Result string) (c : Cmd) (table : gmap Z string)
  : Result string * gmap Z string :=
  match c with
  | TaskkillImage image | WmicDelete image => (Ok "", kill_image image table)
  | StopProcessName name => (Ok "", kill_image (name +:+ ".exe") table)
  | StopProcessId pid | TaskkillPid pid => (Ok "", delete pid table)
  | Tasklist _ => (Ok "", table)
  | StartProcess _ _ _ =>
      match started with
      | Ok out => (Ok out, <[atoi (strings.TrimSpace out) := "cmd.exe"]> table)
      | Err e => (Err e, table)
      end
  end.

Definition latest_location : string :=
  "https://github.com/Flowseal/zapret-discord-youtube/releases/tag/1.9.0".

Definition host_with (dirs : Result unit) (download : Response) (started : Result string)
  : Env :=
  {| mkdir_dirs := dirs;
     config_writable := true;
     bundled := None;
     NewRequest_ok := λ _, true;
     http_Do := λ url, if String.eqb url repoLatestURL
                       then Resp 302 "302 Found" latest_location (Bytes None)
                       else download;
     tasklist_fails := false;
     run := commands started;
     now := 1700000000;
     RUN_PROCESS_HIDDEN := false |}.

Definition host : Env :=
  host_with (Ok tt) (Resp 200 "200 OK" "" (Bytes (Some archive))) (Ok "5000").

Definition report : string :=
  "=== ANALYTICS ===" +:+ String "010" (
  "general1.bat : HTTP OK: 5, ERR: 0, UNSUP: 0, Ping OK: 5, Fail: 0" +:+ String "010" (
  "general2.BAT : OK: 2, FAIL: 1, UNSUP: 0, BLOCKED: 1" +:+ String "010" (
  "Best strategy: general1.bat"))).

Definition tree : FS :=
  list_to_map
    [ (["1.8.0"], DirNode);
      (["1.8.0"; "general1.bat"], FileNode "winws.exe --wf-tcp=80,443" 1690000000);
      (["1.8.0"; "general2.BAT"], FileNode "winws.exe --wf-udp=443" 1690000000);
      (["1.8.0"; "service.bat"], FileNode "sc create zapret" 1690000000);
      (["1.8.0"; "readme.txt"], FileNode "zapret" 1690000000);
      (["1.8.0"; "utils"], DirNode);
      (["1.8.0"; "utils"; "test results"], DirNode);
      (["1.8.0"; "utils"; "test results"; "test_results_1.txt"],
       FileNode report 1695000000) ].

Definition tracked : RunningInfo :=
  {| RunningInfo.File := "general1.bat"; RunningInfo.PID := 4242;
     RunningInfo.StartedAt := 1699990000 |}.

Definition cfg (version : string) : Config :=
  {| Config.Version := version; Config.LastStrategy := "general1.bat";
     Config.LastTestAt := 0; Config.TestResults := ∅; Config.BestStrategy := "";
     Config.Running := Some tracked; Config.TestInProgress := false |}.

(** The service before its first call, with config.json at [version]. *)
Definition boot (e : Env) (version : string) : Sys :=
  {| env := e; config := None; configFile := Some (cfg version); fs := tree;
     procs := ∅; trace := [] |}.

Definition sys : Sys := boot host "1.8.0".

(** What [report] parses to. *)
Definition parsed : parsedResults :=
  {| Results :=
       <["general1.bat" := stdResult "general1.bat" "5" "0" "0" "5" "0"]>
         (<["general2.BAT" := dpiResult "general2.BAT" "2" "1" "0" "1"]> ∅);
     Best := "general1.bat" |}.

(** The listing of the catalog scenario: four files and nothing else. *)
Definition four_files : FS :=
  list_to_map
    [ (["1.8.0"], DirNode);
      (["1.8.0"; "general1.bat"], FileNode "winws.exe --wf-tcp=80,443" 1690000000);
      (["1.8.0"; "general2.BAT"], FileNode "winws.exe --wf-udp=443" 1690000000);
      (["1.8.0"; "service.bat"], FileNode "sc create zapret" 1690000000);
      (["1.8.0"; "readme.txt"], FileNode "zapret" 1690000000) ].

Definition catalog : Sys := set_fs four_files sys.

End Fixture.

(** ** Further vocabulary *)

(** The number that the digits of [s] write after the number [acc]. *)
Fixpoint decimal_from (acc : Z) (s : string) : Z :=
  match s with
  | EmptyString => acc
  | String c s' => decimal_from (acc * 10 + strconv.digit c) s'
  end.

Definition decimal (s : string) : Z := decimal_from 0 s.

(** The largest [int]. *)
Definition maxInt : Z := 2 ^ 63 - 1.

(** A counter as the parser can store it. *)
Definition counter (n : Z) : Prop := 0 ≤ n ≤ maxInt.

(** A line that stores no result and names no best strategy. *)
Definition is_skipped (raw : string) : bool :=
  match classify raw with
  | Marker | Blank | Ignored => true
  | _ => false
  end.

(** A result as the two branches build it: every counter is a number an
    [int] holds and is not negative, and the time of the test is the zero
    time. *)
Definition well_formed (res : TestResult) : Prop :=
  counter (HTTP_OK res) ∧ counter (HTTP_ERR res) ∧ counter (HTTP_UNSUP res) ∧
  counter (PingOK res) ∧ counter (PingFail res) ∧
  counter (Fail res) ∧ counter (Blocked res) ∧
  LastTestedAt res = 0.

(** [tag] is the last element of the slash-separated [loc]. *)
Definition last_element (loc tag : string) : Prop :=
  occurs "/" tag = false ∧ (loc = tag ∨ ∃ pre, loc = pre +:+ String "/" tag).

(** The host [e] with a config.json that cannot be written. *)
Definition read_only (e : Env) : Env :=
  {| mkdir_dirs := mkdir_dirs e; config_writable := false; bundled := bundled e;
     NewRequest_ok := NewRequest_ok e; http_Do := http_Do e;
     tasklist_fails := tasklist_fails e; run := run e; now := now e;
     RUN_PROCESS_HIDDEN := RUN_PROCESS_HIDDEN e |}.

(** The host [e] with the tree [tree] in ./release. *)
Definition with_bundled (tree : FS) (e : Env) : Env :=
  {| mkdir_dirs := mkdir_dirs e; config_writable := config_writable e;
     bundled := Some tree;
     NewRequest_ok := NewRequest_ok e; http_Do := http_Do e;
     tasklist_fails := tasklist_fails e; run := run e; now := now e;
     RUN_PROCESS_HIDDEN := RUN_PROCESS_HIDDEN e |}.

(** Two bundled releases; "1.10.0" comes before "1.9.0" in byte order. *)
Definition two_releases : FS :=
  list_to_map
    [ (["1.10.0"], DirNode);
      (["1.10.0"; "general.bat"], FileNode "winws.exe --new" 1700000000);
      (["1.9.0"], DirNode);
      (["1.9.0"; "bin"], DirNode);
      (["1.9.0"; "bin"; "winws.exe"], FileNode "MZ" 1690000000);
      (["1.9.0"; "general.bat"], FileNode "winws.exe --old" 1690000000) ].

(** The three attempts of [StopRunning] on every winws.exe. *)
Definition kill_every_winws : list Event :=
  [EvRun (TaskkillImage "winws.exe"); EvRun (StopProcessName "winws");
   EvRun (WmicDelete "winws.exe")].

(** The state after them. *)
Definition after_kills (s : Sys) : Sys :=
  snd (exec (WmicDelete "winws.exe")
         (snd (exec (StopProcessName "winws")
                 (snd (exec (TaskkillImage "winws.exe") s))))).

(** The process check can see process [pid] in [s]: the pid is positive,
    tasklist can be run, and the process table has the process. *)
Definition answers_alive (pid : Z) (s : Sys) : bool :=
  (0 <? pid) && negb (tasklist_fails (env s))
  && match procs s !! pid with Some _ => true | None => false end.

(** What [StopRunning] starts after the three attempts for a tracked
    process of id [pid], and what it hands to [saveConfig]. *)
Definition stop_tracked (pid : Z) (alive : bool) (c : Config) : list Event :=
  ((if 0 <? pid then [EvRun (Tasklist pid)] else []) ++
   (if alive then [EvRun (StopProcessId pid); EvRun (TaskkillPid pid)] else []) ++
   [EvWriteFile c])%list.

(** The test run of a config is the same: in progress or not, and its time. *)
Definition same_test_run : relation stored :=
  λ x y, Config.TestInProgress (fst y) = Config.TestInProgress (fst x) ∧
         Config.LastTestAt (fst y) = Config.LastTestAt (fst x).

(** * Properties *)

(** ** The report parser *)

Section Parser.

Implicit Types (raw content : string) (res : TestResult).

Lemma parse_step_result raw res acc :
  result_of raw = Some res →
  parse_step acc raw = (<[Name res := res]> (fst acc), snd acc).
Proof.
  unfold result_of, parse_step.
  destruct (classify raw); intros H; inversion H; subst; reflexivity.
Qed.

Lemma parse_step_other raw acc :
  result_of raw = None → fst (parse_step acc raw) = fst acc.
Proof.
  unfold result_of, parse_step.
  destruct (classify raw); intros H; try discriminate; reflexivity.
Qed.

(** Whatever the loop has stored was built from one of the lines it has
    seen, or was there before. *)
Lemma fold_parse_step_lookup lines : ∀ acc name res,
  fst (fold_left parse_step lines acc) !! name = Some res →
  fst acc !! name = Some res ∨
  ∃ raw, raw ∈ lines ∧ result_of raw = Some res ∧ Name res = name.
Proof.
  induction lines as [|raw lines IH]; intros acc name res Hl; simpl in Hl.
  - by left.
  - destruct (IH _ _ _ Hl) as [Hacc | (raw' & Hin & Hres & Hname)].
    + destruct (result_of raw) as [r|] eqn:Hr.
      * rewrite (parse_step_result _ _ _ Hr) in Hacc. simpl in Hacc.
        destruct (decide (Name r = name)) as [<-|Hne].
        -- rewrite lookup_insert_eq in Hacc. inversion Hacc; subst.
           right. exists raw. split; [left | done].
        -- rewrite lookup_insert_ne in Hacc by done. by left.
      * rewrite (parse_step_other _ _ Hr) in Hacc. by left.
    + right. exists raw'. split; [by right | done].
Qed.

(** The loop stores nothing when no line is a result line. *)
Lemma fold_parse_step_none lines : ∀ acc,
  (∀ raw, raw ∈ lines → result_of raw = None) →
  fst (fold_left parse_step lines acc) = fst acc.
Proof.
  induction lines as [|raw lines IH]; intros acc Hnone; simpl; [done|].
  rewrite IH.
  - apply parse_step_other, Hnone. left.
  - intros raw' Hin. apply Hnone. by right.
Qed.

(** Once a result is stored the map stays non-empty. *)
Lemma fold_parse_step_nonempty lines : ∀ acc,
  fst acc ≠ ∅ → fst (fold_left parse_step lines acc) ≠ ∅.
Proof.
  induction lines as [|raw lines IH]; intros acc Hne; simpl; [done|].
  apply IH. destruct (result_of raw) as [r|] eqn:Hr.
  - rewrite (parse_step_result _ _ _ Hr). simpl. apply insert_non_empty.
  - by rewrite (parse_step_other _ _ Hr).
Qed.

Lemma fold_parse_step_some lines : ∀ acc raw res,
  raw ∈ lines → result_of raw = Some res →
  fst (fold_left parse_step lines acc) ≠ ∅.
Proof.
  induction lines as [|l lines IH]; intros acc raw res Hin Hres.
  - by apply elem_of_nil in Hin.
  - simpl. apply elem_of_cons in Hin as [<-|Hin].
    + apply fold_parse_step_nonempty.
      rewrite (parse_step_result _ _ _ Hres). simpl. apply insert_non_empty.
    + by eapply IH.
Qed.

Lemma parseAnalytics_unfold content :
  parseAnalytics content =
    if Nat.eqb (size (fst (parse_lines (strings.Split content "010")))) 0
    then Err (errors_New "no analytics parsed")
    else Ok {| Results := fst (parse_lines (strings.Split content "010"));
               Best := snd (parse_lines (strings.Split content "010")) |}.
Proof.
  unfold parseAnalytics.
  by destruct (parse_lines (strings.Split content "010")).
Qed.

(** The parser fails exactly on the texts without a result line. *)
Lemma parseAnalytics_error_iff content :
  parseAnalytics content = Err (errors_New "no analytics parsed") ↔
  ∀ raw, raw ∈ strings.Split content "010" → result_of raw = None.
Proof.
  rewrite parseAnalytics_unfold. unfold parse_lines. split.
  - intros H raw Hin. destruct (result_of raw) as [res|] eqn:Hres; [|done].
    destruct (Nat.eqb_spec
      (size (fst (fold_left parse_step (strings.Split content "010") (∅, "")))) 0)
      as [Hz|]; [|discriminate].
    apply map_size_empty_inv in Hz.
    by destruct (fold_parse_step_some _ (∅, "") _ _ Hin Hres).
  - intros Hnone. rewrite (fold_parse_step_none _ _ Hnone). simpl.
    by rewrite map_size_empty.
Qed.

Lemma parseAnalytics_ok_nonempty content p :
  parseAnalytics content = Ok p → Results p ≠ ∅.
Proof.
  rewrite parseAnalytics_unfold.
  destruct (Nat.eqb_spec (size (fst (parse_lines (strings.Split content "010")))) 0)
    as [|Hnz]; [discriminate|].
  intros [= <-]. simpl. intros Hempty. apply Hnz. rewrite Hempty. apply map_size_empty.
Qed.

Lemma stdResult_status name m2 m3 m4 m5 m6 :
  let res := stdResult name m2 m3 m4 m5 m6 in
  (Status res = "ok" ↔ HTTP_ERR res = 0 ∧ PingFail res = 0) ∧
  (Status res ≠ "ok" → Status res = "fail").
Proof.
  simpl. destruct (Z.eqb_spec (atoi m3) 0), (Z.eqb_spec (atoi m6) 0); simpl;
    (split; [split; [intros; try discriminate; lia | intros []; done] | done]).
Qed.

Lemma dpiResult_status name m2 m3 m4 m5 :
  let res := dpiResult name m2 m3 m4 m5 in
  (Status res = "ok" ↔ Fail res = 0 ∧ Blocked res = 0) ∧
  (Status res ≠ "ok" → Status res = "fail").
Proof.
  simpl. destruct (Z.eqb_spec (atoi m3) 0), (Z.eqb_spec (atoi m5) 0); simpl;
    (split; [split; [intros; try discriminate; lia | intros []; done] | done]).
Qed.

(** The results of the two branches are exactly [stdResult] and
    [dpiResult] values. *)
Lemma classify_Standard raw res :
  classify raw = Standard res →
  ∃ name m2 m3 m4 m5 m6, res = stdResult name m2 m3 m4 m5 m6.
Proof.
  unfold classify. intros H.
  repeat match type of H with
         | context [if ?b then _ else _] => destruct b
         | context [match ?x with _ => _ end] => destruct x
         end; try discriminate; inversion H; eauto 10.
Qed.

Lemma classify_DpiSummary raw res :
  classify raw = DpiSummary res →
  ∃ name m2 m3 m4 m5, res = dpiResult name m2 m3 m4 m5.
Proof.
  unfold classify. intros H.
  repeat match type of H with
         | context [if ?b then _ else _] => destruct b
         | context [match ?x with _ => _ end] => destruct x
         end; try discriminate; inversion H; eauto 10.
Qed.

End Parser.

(** ** The line forms of the report *)

Lemma app_nil s : "" +:+ s = s.
Proof. done. Qed.

Lemma app_cons c a b : String c a +:+ b = String c (a +:+ b).
Proof. done. Qed.

Lemma HasPrefix_nil s : strings.HasPrefix s "" = true.
Proof. by destruct s. Qed.

Lemma TrimPrefix_app lit s : strings.TrimPrefix (lit +:+ s) lit = Some s.
Proof.
  induction lit as [|c lit IH]; rewrite ?app_nil, ?app_cons; simpl; [by destruct s|].
  by rewrite Ascii.eqb_refl.
Qed.

Lemma digits_numeral n r :
  all_digits n = true → (r = "" ∨ stops_digits r) →
  regexp.digits (n +:+ r) = (n, r).
Proof.
  intros Hn Hr. induction n as [|c n IH]; rewrite ?app_nil, ?app_cons.
  - destruct Hr as [->|Hr]; [done|]. destruct r as [|d r]; [done|].
    cbn [regexp.digits]. unfold stops_digits in Hr. by rewrite Hr.
  - cbn [all_digits] in Hn. apply andb_true_iff in Hn as [Hc Hn].
    cbn [regexp.digits]. by rewrite Hc, (IH Hn).
Qed.

Lemma tail_of_stops lits nums :
  Forall stops_digits lits → tail_of lits nums = "" ∨ stops_digits (tail_of lits nums).
Proof.
  intros Hl. destruct lits as [|lit lits], nums as [|n nums]; simpl; auto.
  right. apply Forall_cons in Hl as [Hl _]. destruct lit; [done|]. by rewrite app_cons.
Qed.

Lemma groups_tail_of lits : ∀ nums,
  length nums = length lits → Forall stops_digits lits → Forall numeral nums →
  regexp.groups lits (tail_of lits nums) = Some nums.
Proof.
  induction lits as [|lit lits IH]; intros [|n nums] Hlen Hl Hn; try done.
  simpl. rewrite TrimPrefix_app.
  apply Forall_cons in Hl as [_ Hl]. apply Forall_cons in Hn as [[Hne Hd] Hn].
  rewrite (digits_numeral _ _ Hd (tail_of_stops lits nums Hl)).
  destruct n as [|c n]; [done|].
  rewrite IH; [done | by injection Hlen | done | done].
Qed.

Lemma colon_free_cons c s :
  colon_free (String c s) ↔ strings.HasPrefix (String c s) " :" = false ∧ colon_free s.
Proof. unfold colon_free. simpl strings.Contains. apply orb_false_iff. Qed.

Lemma colon_free_digits n r :
  all_digits n = true → colon_free r → colon_free (n +:+ r).
Proof.
  intros Hn Hr. induction n as [|c n IH]; rewrite ?app_nil, ?app_cons; [done|].
  cbn [all_digits] in Hn.
  apply andb_true_iff in Hn as [Hc Hn]. apply colon_free_cons. split; [|by apply IH].
  cbn [strings.HasPrefix].
  destruct (Ascii.eqb_spec c " ") as [->|]; [by vm_compute in Hc | done].
Qed.

(** A literal without such a place can be followed by anything that does
    not start with a colon. *)
Lemma colon_free_lit lit r :
  colon_free lit → strings.HasPrefix r ":" = false → colon_free r →
  colon_free (lit +:+ r).
Proof.
  intros Hl Hr0 Hr. induction lit as [|c lit IH]; rewrite ?app_nil, ?app_cons; [done|].
  apply colon_free_cons in Hl as [Hp Hl]. apply colon_free_cons. split; [|by apply IH].
  cbn [strings.HasPrefix] in *. destruct (Ascii.eqb c " "); cbn [andb] in *; [|done].
  destruct lit as [|d lit]; rewrite ?app_nil, ?app_cons; [done|].
  cbn [strings.HasPrefix] in *. rewrite HasPrefix_nil in *. by destruct (Ascii.eqb d ":").
Qed.

Lemma numeral_no_colon n r : numeral n → strings.HasPrefix (n +:+ r) ":" = false.
Proof.
  intros [Hne Hd]. destruct n as [|c n]; [done|]. rewrite app_cons.
  cbn [strings.HasPrefix all_digits] in *.
  apply andb_true_iff in Hd as [Hc _].
  destruct (Ascii.eqb_spec c ":") as [->|]; [by vm_compute in Hc | done].
Qed.

Lemma colon_free_tail_of lits : ∀ nums,
  Forall colon_free lits → Forall numeral nums → colon_free (tail_of lits nums).
Proof.
  induction lits as [|lit lits IH]; intros [|n nums] Hl Hn; try done.
  simpl. apply Forall_cons in Hl as [Hlit Hl]. apply Forall_cons in Hn as [Hnum Hn].
  apply colon_free_lit; [done | by apply numeral_no_colon |].
  apply colon_free_digits; [apply Hnum | by apply IH].
Qed.

Lemma HasPrefix_trans s lit p :
  strings.HasPrefix lit p = true → strings.HasPrefix s p = false →
  strings.TrimPrefix s lit = None.
Proof.
  revert s p. induction lit as [|c lit IH]; intros s p Hp Hs.
  - destruct p; [by destruct s | done].
  - destruct p as [|d p]; [by destruct s|]. destruct s as [|e s]; [done|]. simpl in *.
    apply andb_true_iff in Hp as [Hcd Hp]. apply Ascii.eqb_eq in Hcd as ->.
    destruct (Ascii.eqb e d); [|done]. simpl in Hs. by eapply IH.
Qed.

Lemma groups_none lits s :
  starts_space_colon lits → strings.HasPrefix s " :" = false →
  regexp.groups lits s = None.
Proof.
  intros Hl Hs. destruct lits as [|lit lits]; [done|]. simpl in *.
  by rewrite (HasPrefix_trans _ _ _ Hl Hs).
Qed.

Lemma Find_none lits s :
  starts_space_colon lits → colon_free s → regexp.FindStringSubmatch lits s = None.
Proof.
  intros Hl. induction s as [|c s IH]; intros Hs.
  - simpl. by rewrite groups_none.
  - apply colon_free_cons in Hs as [Hp Hs].
    cbn [regexp.FindStringSubmatch]. rewrite (groups_none _ _ Hl Hp), (IH Hs).
    by destruct (Ascii.eqb c "010").
Qed.

Lemma Find_here lits s caps :
  regexp.groups lits (String " " s) = Some caps →
  regexp.FindStringSubmatch lits s = None →
  regexp.FindStringSubmatch lits (String " " s) = Some ("" :: caps).
Proof. intros Hg Hn. cbn [regexp.FindStringSubmatch]. by rewrite Hg, Hn. Qed.

Lemma Find_app lits name : ∀ s m1 caps,
  occurs "010" name = false →
  regexp.FindStringSubmatch lits s = Some (m1 :: caps) →
  regexp.FindStringSubmatch lits (name +:+ s) = Some ((name +:+ m1) :: caps).
Proof.
  induction name as [|c name IH]; intros s m1 caps Hnl Hs; [done|].
  simpl in Hnl. apply orb_false_iff in Hnl as [Hc Hnl].
  rewrite app_cons. cbn [regexp.FindStringSubmatch]. rewrite Hc.
  by rewrite (IH _ _ _ Hnl Hs).
Qed.

Lemma append_nil_r s : s +:+ "" = s.
Proof. induction s as [|c s IH]; [done|]. by rewrite app_cons, IH. Qed.

Lemma Find_none_app lits name : ∀ s,
  starts_space_colon lits → colon_free name →
  strings.HasPrefix s ":" = false →
  regexp.FindStringSubmatch lits s = None →
  regexp.FindStringSubmatch lits (name +:+ s) = None.
Proof.
  induction name as [|c name IH]; intros s Hl Hname Hs0 Hs; [done|].
  apply colon_free_cons in Hname as [Hp Hname].
  rewrite app_cons. cbn [regexp.FindStringSubmatch].
  rewrite (IH s Hl Hname Hs0 Hs), groups_none; [by destruct (Ascii.eqb c "010") | done |].
  cbn [strings.HasPrefix] in *. destruct (Ascii.eqb c " "); cbn [andb] in *; [|done].
  destruct name as [|d name]; rewrite ?app_nil, ?app_cons; [done|].
  cbn [strings.HasPrefix] in *. rewrite HasPrefix_nil in *. by destruct (Ascii.eqb d ":").
Qed.

Lemma occurs_app_r c a b : occurs c b = true → occurs c (a +:+ b) = true.
Proof.
  intros Hb. induction a as [|d a IH]; [done|].
  rewrite app_cons. cbn [occurs]. rewrite IH. apply orb_true_r.
Qed.

Lemma occurs_eqb c a b : occurs c a = true → occurs c b = false → String.eqb a b = false.
Proof. intros Ha Hb. apply String.eqb_neq. intros ->. congruence. Qed.

Lemma Find_standard name n2 n3 n4 n5 n6 :
  occurs "010" name = false → Forall numeral [n2; n3; n4; n5; n6] →
  regexp.FindStringSubmatch reStd (std_line name n2 n3 n4 n5 n6)
  = Some [name; n2; n3; n4; n5; n6].
Proof.
  intros Hnl Hn. unfold std_line.
  rewrite <- (append_nil_r name) at 2. apply Find_app; [done|].
  change (tail_of reStd [n2; n3; n4; n5; n6])
    with (String " " (tail_of reStd_rest [n2; n3; n4; n5; n6])).
  apply Find_here.
  - change (String " " (tail_of reStd_rest [n2; n3; n4; n5; n6]))
      with (tail_of reStd [n2; n3; n4; n5; n6]).
    apply groups_tail_of; [done | | done]. by repeat constructor.
  - apply Find_none; [done|]. apply colon_free_tail_of; [|done]. by repeat constructor.
Qed.

Lemma Find_dpi name n2 n3 n4 n5 :
  occurs "010" name = false → Forall numeral [n2; n3; n4; n5] →
  regexp.FindStringSubmatch reDpi (dpi_line name n2 n3 n4 n5)
  = Some [name; n2; n3; n4; n5].
Proof.
  intros Hnl Hn. unfold dpi_line.
  rewrite <- (append_nil_r name) at 2. apply Find_app; [done|].
  change (tail_of reDpi [n2; n3; n4; n5])
    with (String " " (tail_of reDpi_rest [n2; n3; n4; n5])).
  apply Find_here.
  - change (String " " (tail_of reDpi_rest [n2; n3; n4; n5]))
      with (tail_of reDpi [n2; n3; n4; n5]).
    apply groups_tail_of; [done | | done]. by repeat constructor.
  - apply Find_none; [done|]. apply colon_free_tail_of; [|done]. by repeat constructor.
Qed.

(** The standard pattern finds nothing in a DPI-summary line whose name
    has no space followed by a colon. *)
Lemma Find_standard_dpi name n2 n3 n4 n5 :
  colon_free name → Forall numeral [n2; n3; n4; n5] →
  regexp.FindStringSubmatch reStd (dpi_line name n2 n3 n4 n5) = None.
Proof.
  intros Hname Hn. unfold dpi_line. apply Find_none_app; [done | done | done |].
  change (tail_of reDpi [n2; n3; n4; n5])
    with (String " " (tail_of reDpi_rest [n2; n3; n4; n5])).
  cbn [regexp.FindStringSubmatch].
  rewrite Find_none; [| done | apply colon_free_tail_of; [by repeat constructor | done]].
  change (String " " (tail_of reDpi_rest [n2; n3; n4; n5]))
    with (" : " +:+ ("OK: " +:+ n2 +:+ tail_of (tail reDpi) [n3; n4; n5])).
  replace (regexp.groups reStd (" : " +:+ ("OK: " +:+ n2 +:+ tail_of (tail reDpi) [n3; n4; n5])))
    with (@None (list string)); [done|].
  unfold reStd. cbn [regexp.groups]. by rewrite !app_cons, app_nil.
Qed.

Lemma classify_standard_line raw name n2 n3 n4 n5 n6 :
  strings.TrimSpace raw = std_line name n2 n3 n4 n5 n6 →
  strings.TrimPrefix (std_line name n2 n3 n4 n5 n6) "Best strategy:" = None →
  occurs "010" name = false → Forall numeral [n2; n3; n4; n5; n6] →
  classify raw = Standard (stdResult (strings.TrimSpace name) n2 n3 n4 n5 n6).
Proof.
  intros Hraw Hbest Hnl Hn. unfold classify. rewrite Hraw, Hbest.
  assert (occurs ":" (std_line name n2 n3 n4 n5 n6) = true) as Hcolon.
  { apply occurs_app_r. by vm_compute. }
  rewrite (occurs_eqb ":" _ "=== ANALYTICS ===" Hcolon eq_refl).
  rewrite (occurs_eqb ":" _ "" Hcolon eq_refl).
  by rewrite Find_standard.
Qed.

Lemma classify_dpi_line raw name n2 n3 n4 n5 :
  strings.TrimSpace raw = dpi_line name n2 n3 n4 n5 →
  strings.TrimPrefix (dpi_line name n2 n3 n4 n5) "Best strategy:" = None →
  occurs "010" name = false → colon_free name → Forall numeral [n2; n3; n4; n5] →
  classify raw = DpiSummary (dpiResult (strings.TrimSpace name) n2 n3 n4 n5).
Proof.
  intros Hraw Hbest Hnl Hname Hn. unfold classify. rewrite Hraw, Hbest.
  assert (occurs ":" (dpi_line name n2 n3 n4 n5) = true) as Hcolon.
  { apply occurs_app_r. by vm_compute. }
  rewrite (occurs_eqb ":" _ "=== ANALYTICS ===" Hcolon eq_refl).
  rewrite (occurs_eqb ":" _ "" Hcolon eq_refl).
  by rewrite Find_standard_dpi, Find_dpi.
Qed.

(** ** Running the monad *)

Section Monad.

Context {A B : Type}.

Lemma bind_ok (m : M A) (k : A → M B) s a s1 :
  m s = (Ok a, s1) → bind m k s = k a s1.
Proof. unfold bind. by intros ->. Qed.

Lemma bind_err (m : M A) (k : A → M B) s e s1 :
  m s = (Err e, s1) → bind m k s = (Err e, s1).
Proof. unfold bind. by intros ->. Qed.

Lemma bind_inv_ok (m : M A) (k : A → M B) s b s' :
  bind m k s = (Ok b, s') → ∃ a s1, m s = (Ok a, s1) ∧ k a s1 = (Ok b, s').
Proof.
  unfold bind. destruct (m s) as [[a|e] s1]; [eauto | discriminate].
Qed.

Lemma bind_inv_err (m : M A) (k : A → M B) s e s' :
  bind m k s = (Err e, s') →
  m s = (Err e, s') ∨ ∃ a s1, m s = (Ok a, s1) ∧ k a s1 = (Err e, s').
Proof.
  unfold bind. destruct (m s) as [[a|e0] s1]; [eauto | intros [= -> ->]; eauto].
Qed.

End Monad.

Section Preserves.

Context (R : relation Sys) `{!Reflexive R, !Transitive R}.

Lemma preserves_ret {A} (a : A) : preserves R (ret a).
Proof. intros s. simpl. reflexivity. Qed.

Lemma preserves_fail {A} e : preserves R (@fail A e).
Proof. intros s. simpl. reflexivity. Qed.

Lemma preserves_gets {A} (f : Sys → A) : preserves R (gets f).
Proof. intros s. simpl. reflexivity. Qed.

Lemma preserves_read {A} (f : Sys → Result A) : preserves R (read f).
Proof. intros s. simpl. reflexivity. Qed.

Lemma preserves_lift {A} (r : Result A) : preserves R (lift r).
Proof. intros s. simpl. reflexivity. Qed.

Lemma preserves_bind {A B} (m : M A) (k : A → M B) :
  preserves R m → (∀ a, preserves R (k a)) → preserves R (bind m k).
Proof.
  intros Hm Hk s. unfold bind. specialize (Hm s).
  destruct (m s) as [[a|e] s1]; simpl in *; [|done].
  etrans; [exact Hm | apply Hk].
Qed.

Lemma preserves_try {A} (m : M A) : preserves R m → preserves R (try m).
Proof. intros Hm s. apply Hm. Qed.

End Preserves.

(** Breaks a program into its calls; what is left are the calls that touch
    the state. *)
Ltac preserves_step :=
  lazymatch goal with
  | |- preserves ?R (bind _ _) => apply (preserves_bind R); [ | intros ?]
  | |- preserves ?R (try _) => apply (preserves_try R)
  | |- preserves ?R (ret _) => apply (preserves_ret R)
  | |- preserves ?R (fail _) => apply (preserves_fail R)
  | |- preserves ?R (gets _) => apply (preserves_gets R)
  | |- preserves ?R (read _) => apply (preserves_read R)
  | |- preserves ?R (lift _) => apply (preserves_lift R)
  | |- preserves _ (match ?x with _ => _ end) => destruct x
  | |- preserves _ (let _ := _ in _) => cbv zeta
  end.

(** ** What a call leaves alone

    [is_work] marks the events of downloading and unpacking: a request for
    anything but the latest-release URL, and an archive being unpacked. *)

Section Frame.

Context (Rc : relation stored) `{!Reflexive Rc, !Transitive Rc}.

#[local] Instance frame_refl : Reflexive (frame Rc).
Proof. intros s c Hc. repeat split; eauto. Qed.

#[local] Instance frame_trans : Transitive (frame Rc).
Proof.
  intros s1 s2 s3 H12 H23 c Hc.
  destruct (H12 c Hc) as (He & Hf & Hp & Hw & Ht & c' & Hc' & Hr).
  destruct (H23 c' Hc') as (He' & Hf' & Hp' & Hw' & Ht' & c'' & Hc'' & Hr').
  repeat split; try congruence; [auto|].
  exists c''. split; [done | by etrans].
Qed.

Lemma loadConfig_cached s c :
  config s = Some c → Service.loadConfig s = (Ok c, s).
Proof.
  intros Hc. unfold Service.loadConfig, bind, gets. simpl. by rewrite Hc.
Qed.

Lemma frame_loadConfig : preserves (frame Rc) Service.loadConfig.
Proof. intros s c Hc. rewrite (loadConfig_cached _ _ Hc). by apply frame_refl. Qed.

Lemma frame_cfg_read {A} (f : Config → A) : preserves (frame Rc) (cfg_read f).
Proof.
  intros s c Hc. unfold cfg_read. rewrite Hc. simpl. repeat split; eauto.
Qed.

Lemma frame_cfg_write (f : Config → Config) :
  (∀ c file, Rc (c, file) (f c, file)) → preserves (frame Rc) (cfg_write f).
Proof.
  intros Hf s c Hc. unfold cfg_write. rewrite Hc. simpl. repeat split; eauto.
Qed.

Lemma work_log e s : work (log e s) = (work s ++ (if is_work e then [e] else []))%list.
Proof.
  unfold work, log. simpl. rewrite List.filter_app. simpl. by destruct (is_work e).
Qed.

Lemma frame_log e : is_work e = false → preserves (frame Rc) (modify (log e)).
Proof.
  intros He s c Hc. simpl. repeat split; eauto.
  - rewrite work_log, He. apply app_nil_r.
  - intros e' Hin. apply elem_of_app. by left.
Qed.

Lemma frame_saveConfig :
  (∀ c file, Rc (c, file) (c, Some c)) → preserves (frame Rc) Service.saveConfig.
Proof.
  intros Hsave s c Hc. unfold Service.saveConfig, bind, gets, modify. rewrite Hc. simpl.
  destruct (config_writable (env s)); simpl; repeat split; eauto;
    try (intros e' Hin; apply elem_of_app; by left);
    unfold work; simpl; rewrite List.filter_app; apply app_nil_r.
Qed.

Lemma frame_currentReleasePath : preserves (frame Rc) Service.currentReleasePath.
Proof.
  unfold Service.currentReleasePath. repeat preserves_step. apply frame_loadConfig.
Qed.

Lemma frame_get_latest : preserves (frame Rc) (http_get repoLatestURL).
Proof.
  intros s c Hc. simpl. repeat split; eauto.
  - rewrite work_log.
    replace (is_work (EvGet repoLatestURL)) with false by (by vm_compute).
    apply app_nil_r.
  - intros e' Hin. apply elem_of_app. by left.
Qed.

Lemma frame_latestTag : preserves (frame Rc) Service.latestTag.
Proof.
  unfold Service.latestTag. repeat preserves_step. apply frame_get_latest.
Qed.

Lemma frame_tasklist pid : preserves (frame Rc) (tasklist pid).
Proof.
  intros s c Hc. simpl. repeat split; eauto.
  - rewrite work_log. simpl. apply app_nil_r.
  - intros e' Hin. apply elem_of_app. by left.
Qed.

Lemma frame_isPIDRunning pid : preserves (frame Rc) (isPIDRunning pid).
Proof.
  unfold isPIDRunning. repeat preserves_step. apply frame_tasklist.
Qed.

Lemma frame_parseLatestResult current :
  preserves (frame Rc) (Service.parseLatestResult current).
Proof. unfold Service.parseLatestResult. repeat preserves_step. Qed.

Lemma frame_listStrategies : preserves (frame Rc) Service.listStrategies.
Proof.
  unfold Service.listStrategies. repeat preserves_step.
  apply frame_currentReleasePath.
Qed.

Lemma frame_snapshot : preserves (frame Rc) Service.snapshot.
Proof.
  unfold Service.snapshot. repeat preserves_step;
    auto using frame_cfg_read, frame_latestTag, frame_listStrategies,
      frame_currentReleasePath.
Qed.

(** [State] assigns the test results, the best strategy and the running
    entry, and saves. *)
Hypothesis Rc_results : ∀ c file v, Rc (c, file) (Config.set_TestResults v c, file).
Hypothesis Rc_best : ∀ c file v, Rc (c, file) (Config.set_BestStrategy v c, file).
Hypothesis Rc_stopped : ∀ c file, Rc (c, file) (Config.set_Running None c, file).
Hypothesis Rc_saved : ∀ c file, Rc (c, file) (c, Some c).

Lemma frame_rehydrate current : preserves (frame Rc) (Service.rehydrate current).
Proof.
  unfold Service.rehydrate. repeat preserves_step;
    auto using frame_parseLatestResult, frame_cfg_write, frame_saveConfig.
Qed.

Lemma frame_validate_running : preserves (frame Rc) Service.validate_running.
Proof.
  unfold Service.validate_running. repeat preserves_step;
    auto using frame_cfg_read, frame_isPIDRunning, frame_cfg_write, frame_saveConfig.
Qed.

Lemma frame_State : preserves (frame Rc) Service.State.
Proof.
  unfold Service.State. repeat preserves_step;
    auto using frame_loadConfig, frame_currentReleasePath, frame_rehydrate,
      frame_validate_running, frame_snapshot.
Qed.

End Frame.

(** ** Loading and saving the config *)

#[local] Instance same_but_fs_refl : Reflexive same_but_fs.
Proof. by intros s. Qed.

#[local] Instance same_but_fs_trans : Transitive same_but_fs.
Proof. intros s1 s2 s3 (?&?&?&?&?) (?&?&?&?&?). repeat split; congruence. Qed.

Lemma same_but_fs_on_fs f : preserves same_but_fs (on_fs f).
Proof. by intros s. Qed.

Lemma same_but_fs_seed : preserves same_but_fs Service.seedLocalRelease.
Proof.
  unfold Service.seedLocalRelease. repeat preserves_step.
  apply same_but_fs_on_fs.
Qed.

Lemma loadConfig_ok s cfg s1 :
  Service.loadConfig s = (Ok cfg, s1) →
  config s1 = Some cfg ∧ env s1 = env s ∧ configFile s1 = configFile s ∧
  procs s1 = procs s ∧ trace s1 = trace s.
Proof.
  destruct (config s) as [c|] eqn:Hc.
  { rewrite (loadConfig_cached _ _ Hc). by intros [= <- <-]. }
  pose proof (same_but_fs_seed s) as Hseed.
  unfold Service.loadConfig, Service.ensureDirs, bind, gets, read, try, modify, cfg_read.
  rewrite Hc. destruct (mkdir_dirs (env s)); [|discriminate].
  destruct (String.eqb _ ""); [destruct (Service.seedLocalRelease s) as [[v|e] s2]|];
    simpl in *; try destruct (negb (String.eqb v "")); simpl;
    intros [= <- <-]; simpl; try destruct Hseed as (?&?&?&?&?);
    repeat split; congruence.
Qed.

Lemma loadConfig_err s e s1 :
  Service.loadConfig s = (Err e, s1) →
  s1 = s ∧ config s = None ∧ mkdir_dirs (env s) = Err e.
Proof.
  destruct (config s) as [c|] eqn:Hc.
  { by rewrite (loadConfig_cached _ _ Hc). }
  unfold Service.loadConfig, Service.ensureDirs, bind, gets, read, try, modify, cfg_read.
  rewrite Hc. destruct (mkdir_dirs (env s)) as [[]|e0]; [|by intros [= <- <-]].
  destruct (String.eqb _ ""); [destruct (Service.seedLocalRelease s) as [[v|e'] s2]|];
    simpl in *; try destruct (negb (String.eqb v "")); simpl; discriminate.
Qed.

Lemma cfg_read_some {A} (f : Config → A) s c :
  config s = Some c → cfg_read f s = (Ok (f c), s).
Proof. unfold cfg_read. by intros ->. Qed.

Lemma cfg_write_some (f : Config → Config) s c :
  config s = Some c → cfg_write f s = (Ok tt, set_config (Some (f c)) s).
Proof. unfold cfg_write. by intros ->. Qed.

Lemma saveConfig_some s c :
  config s = Some c →
  Service.saveConfig s =
    (if config_writable (env s) then Ok tt else Err (PathError "open"), saved c s).
Proof.
  intros Hc. unfold Service.saveConfig, saved, bind, gets, modify. rewrite Hc. simpl.
  by destruct (config_writable (env s)).
Qed.

Lemma currentReleasePath_some s c :
  config s = Some c →
  Service.currentReleasePath s =
    (Ok (if String.eqb (Config.Version c) "" then None else Some [Config.Version c]), s).
Proof.
  intros Hc. unfold Service.currentReleasePath, bind, try.
  rewrite (loadConfig_cached _ _ Hc). simpl.
  by destruct (String.eqb (Config.Version c) "").
Qed.

(** ** Calls that cannot fail once the config is loaded *)

#[local] Instance any_change_refl : Reflexive any_change.
Proof. done. Qed.

#[local] Instance any_change_trans : Transitive any_change.
Proof. done. Qed.

Lemma succeeds_ret {A} (a : A) : succeeds (ret a).
Proof. intros s c Hc. exists a, s. by rewrite Hc. Qed.

Lemma succeeds_gets {A} (f : Sys → A) : succeeds (gets f).
Proof. intros s c Hc. exists (f s), s. by rewrite Hc. Qed.

Lemma succeeds_bind {A B} (m : M A) (k : A → M B) :
  succeeds m → (∀ a, succeeds (k a)) → succeeds (bind m k).
Proof.
  intros Hm Hk s c Hc. destruct (Hm s c Hc) as (a & s1 & Hrun & [c1 Hc1]).
  rewrite (bind_ok _ _ _ _ _ Hrun). by eapply Hk.
Qed.

Lemma succeeds_try {A} (m : M A) :
  preserves (frame any_change) m → succeeds (try m).
Proof.
  intros Hm s c Hc. exists (fst (m s)), (snd (m s)). split; [done|].
  destruct (Hm s c Hc) as (_ & _ & _ & _ & _ & c' & -> & _). by eexists.
Qed.

Lemma succeeds_cfg_read {A} (f : Config → A) : succeeds (cfg_read f).
Proof. intros s c Hc. rewrite (cfg_read_some _ _ _ Hc). exists (f c), s. by rewrite Hc. Qed.

Lemma succeeds_cfg_write (f : Config → Config) : succeeds (cfg_write f).
Proof. intros s c Hc. rewrite (cfg_write_some _ _ _ Hc). by eexists _, _. Qed.

Lemma succeeds_loadConfig : succeeds Service.loadConfig.
Proof. intros s c Hc. rewrite (loadConfig_cached _ _ Hc). exists c, s. by rewrite Hc. Qed.

Lemma succeeds_currentReleasePath : succeeds Service.currentReleasePath.
Proof.
  intros s c Hc. rewrite (currentReleasePath_some _ _ Hc). eexists _, s. by rewrite Hc.
Qed.

Lemma succeeds_isPIDRunning pid : succeeds (isPIDRunning pid).
Proof.
  unfold isPIDRunning. destruct (pid <=? 0); [apply succeeds_ret|].
  apply succeeds_bind; [apply succeeds_try, frame_tasklist; apply _|].
  intros [out|e]; apply succeeds_ret.
Qed.

Ltac succeeds_step :=
  lazymatch goal with
  | |- succeeds (bind _ _) => apply succeeds_bind; [ | intros ?]
  | |- succeeds (ret _) => apply succeeds_ret
  | |- succeeds (gets _) => apply succeeds_gets
  | |- succeeds (cfg_read _) => apply succeeds_cfg_read
  | |- succeeds (cfg_write _) => apply succeeds_cfg_write
  | |- succeeds (isPIDRunning _) => apply succeeds_isPIDRunning
  | |- succeeds Service.loadConfig => apply succeeds_loadConfig
  | |- succeeds Service.currentReleasePath => apply succeeds_currentReleasePath
  | |- succeeds (try _) => apply succeeds_try
  | |- succeeds (match ?x with _ => _ end) => destruct x
  | |- succeeds (let _ := _ in _) => cbv zeta
  end.

Lemma succeeds_rehydrate current : succeeds (Service.rehydrate current).
Proof.
  unfold Service.rehydrate. repeat succeeds_step.
  - apply frame_parseLatestResult; apply _.
  - by apply frame_saveConfig; [apply _ ..|].
Qed.

Lemma succeeds_validate_running : succeeds Service.validate_running.
Proof.
  unfold Service.validate_running. repeat succeeds_step.
  by apply frame_saveConfig; [apply _ ..|].
Qed.

Lemma succeeds_snapshot : succeeds Service.snapshot.
Proof.
  unfold Service.snapshot. repeat succeeds_step.
  - apply frame_latestTag; apply _.
  - apply frame_listStrategies; apply _.
Qed.

Lemma succeeds_State : succeeds Service.State.
Proof.
  unfold Service.State. repeat succeeds_step;
    auto using succeeds_rehydrate, succeeds_validate_running, succeeds_snapshot.
Qed.

(** ** The snapshot *)

Lemma frame_eq_inv {A} (m : M A) s c :
  preserves (frame eq) m → config s = Some c →
  config (snd (m s)) = Some c ∧ configFile (snd (m s)) = configFile s ∧
  env (snd (m s)) = env s ∧ fs (snd (m s)) = fs s ∧ procs (snd (m s)) = procs s.
Proof.
  intros Hm Hc. destruct (Hm s c Hc) as (?&?&?&?&?& c' & ? & [= <- ?]). by repeat split.
Qed.

Lemma try_inv {A} (m : M A) s r s' :
  try m s = (Ok r, s') → r = fst (m s) ∧ s' = snd (m s).
Proof. unfold try. by intros [= <- <-]. Qed.

Lemma snapshot_value s c st s' :
  config s = Some c → Service.snapshot s = (Ok st, s') →
  State.Config st = c ∧
  State.Running st = Config.Running c ∧
  State.LatestTag st = tag_or_empty (fst (Service.latestTag s)) ∧
  State.HasUpdate st =
    negb (String.eqb (State.LatestTag st) "")
    && negb (String.eqb (State.LatestTag st) (Config.Version c)) ∧
  config s' = Some c ∧ configFile s' = configFile s ∧
  fs s' = fs s ∧ procs s' = procs s ∧ env s' = env s.
Proof.
  intros Hc H.
  destruct (frame_eq_inv _ s c (frame_snapshot eq) Hc) as (Hc' & Hf' & He' & Hfs' & Hp').
  rewrite H in Hc', Hf', He', Hfs', Hp'. simpl in *.
  unfold Service.snapshot in H.
  apply bind_inv_ok in H as (r1 & s1 & H1 & H). apply try_inv in H1 as [-> ->].
  destruct (frame_eq_inv _ s c (frame_latestTag eq) Hc) as (Hc1 & _).
  apply bind_inv_ok in H as (v & s2 & H2 & H).
  rewrite (cfg_read_some _ _ _ Hc1) in H2. injection H2 as <- <-.
  apply bind_inv_ok in H as (r3 & s3 & H3 & H). apply try_inv in H3 as [-> ->].
  destruct (frame_eq_inv _ _ c (frame_listStrategies eq) Hc1) as (Hc3 & _).
  apply bind_inv_ok in H as (c4 & s4 & H4 & H).
  rewrite (cfg_read_some _ _ _ Hc3) in H4. injection H4 as <- <-.
  apply bind_inv_ok in H as (cur & s5 & H5 & H).
  injection H as <- <-. simpl. by repeat split.
Qed.

(** ** Update gating *)

#[local] Instance same_version_refl : Reflexive same_version.
Proof. by intros x. Qed.

#[local] Instance same_version_trans : Transitive same_version.
Proof. unfold same_version. intros x y z ? ?. congruence. Qed.

Lemma latestTag_env s1 s2 :
  env s1 = env s2 → fst (Service.latestTag s1) = fst (Service.latestTag s2).
Proof.
  intros He. unfold Service.latestTag, bind, http_get. simpl. rewrite He.
  destruct (http_Do (env s2) repoLatestURL); [done|].
  by destruct (strings.Split _ _).
Qed.

Lemma State_unfold s :
  Service.State s =
    bind Service.loadConfig (λ _,
      bind Service.currentReleasePath (λ current,
        bind (refresh current) (λ _, Service.snapshot))) s.
Proof.
  unfold Service.State, refresh, bind.
  destruct (Service.loadConfig s) as [[c|e] s1]; [|done].
  destruct (Service.currentReleasePath s1) as [[[cur|]|e] s2]; done.
Qed.

Lemma succeeds_refresh current : succeeds (refresh current).
Proof.
  destruct current; simpl; [|apply succeeds_ret].
  apply succeeds_bind; [apply succeeds_rehydrate | intros _; apply succeeds_validate_running].
Qed.

Lemma frame_refresh Rc `{!Reflexive Rc, !Transitive Rc} current :
  (∀ c file v, Rc (c, file) (Config.set_TestResults v c, file)) →
  (∀ c file v, Rc (c, file) (Config.set_BestStrategy v c, file)) →
  (∀ c file, Rc (c, file) (Config.set_Running None c, file)) →
  (∀ c file, Rc (c, file) (c, Some c)) →
  preserves (frame Rc) (refresh current).
Proof.
  intros. destruct current; simpl; [|by apply preserves_ret, frame_refl].
  apply preserves_bind; [by apply frame_trans | by apply frame_rehydrate |].
  intros _. by apply frame_validate_running.
Qed.

(** [State] from a loaded config, step by step. *)
Lemma State_loaded s c :
  config s = Some c →
  ∃ s1 st s',
    refresh (if String.eqb (Config.Version c) "" then None else Some [Config.Version c]) s
      = (Ok tt, s1) ∧
    Service.snapshot s1 = (Ok st, s') ∧
    Service.State s = (Ok st, s').
Proof.
  intros Hc. rewrite State_unfold.
  rewrite (bind_ok _ _ _ _ _ (loadConfig_cached _ _ Hc)).
  rewrite (bind_ok _ _ _ _ _ (currentReleasePath_some _ _ Hc)).
  destruct (succeeds_refresh
              (if String.eqb (Config.Version c) "" then None else Some [Config.Version c])
              s c Hc) as ([] & s1 & Hr & [c1 Hc1]).
  destruct (succeeds_snapshot s1 c1 Hc1) as (st & s' & Hs & _).
  exists s1, st, s'. rewrite (bind_ok _ _ _ _ _ Hr). by rewrite Hs.
Qed.

Lemma State_inv s st s' :
  Service.State s = (Ok st, s') →
  ∃ c s1, Service.loadConfig s = (Ok c, s1) ∧ Service.State s1 = (Ok st, s').
Proof.
  intros H. rewrite State_unfold in H.
  apply bind_inv_ok in H as (c & s1 & Hload & H).
  exists c, s1. split; [done|].
  rewrite State_unfold.
  apply loadConfig_ok in Hload as (Hc & _).
  by rewrite (bind_ok _ _ _ _ _ (loadConfig_cached _ _ Hc)).
Qed.

Lemma State_value s st s' :
  Service.State s = (Ok st, s') →
  config s' = Some (State.Config st) ∧
  State.Running st = Config.Running (State.Config st) ∧
  State.LatestTag st = tag_or_empty (fst (Service.latestTag s)) ∧
  (State.HasUpdate st = true ↔
     State.LatestTag st ≠ "" ∧ State.LatestTag st ≠ Config.Version (State.Config st)).
Proof.
  intros H. apply State_inv in H as (c & s1 & Hload & H).
  apply loadConfig_ok in Hload as (Hc & He1 & _).
  destruct (State_loaded s1 c Hc) as (s2 & st' & s'' & Hr & Hs & HS).
  rewrite H in HS. injection HS as <- <-.
  pose proof (frame_refresh any_change
                (if String.eqb (Config.Version c) "" then None else Some [Config.Version c])
                (λ _ _ _, I) (λ _ _ _, I) (λ _ _, I) (λ _ _, I) s1 c Hc) as Hfr.
  rewrite Hr in Hfr. destruct Hfr as (He2 & _ & _ & _ & _ & c2 & Hc2 & _).
  simpl in *.
  destruct (snapshot_value _ _ _ _ Hc2 Hs) as (HC & HR & HL & HU & Hc' & _).
  subst c2. split; [done|]. split; [done|]. split.
  - rewrite HL. f_equal. apply latestTag_env. congruence.
  - rewrite HU, andb_true_iff, !negb_true_iff, !String.eqb_neq. done.
Qed.

Lemma CheckAndUpdate_noop s cfg s1 latest s2 :
  Service.loadConfig s = (Ok cfg, s1) →
  Service.latestTag s1 = (Ok latest, s2) →
  Config.Version cfg = latest → latest ≠ "" →
  ∃ st s', Service.CheckAndUpdate s = (Ok st, s') ∧
    Service.State s2 = (Ok st, s') ∧
    fs s' = fs s1 ∧ work s' = work s ∧
    ∃ c', config s' = Some c' ∧ Config.Version c' = Config.Version cfg.
Proof.
  intros Hload Htag Hv Hne.
  unfold Service.CheckAndUpdate.
  rewrite (bind_ok _ _ _ _ _ Hload), (bind_ok _ _ _ _ _ Htag).
  rewrite Hv, String.eqb_refl. apply String.eqb_neq in Hne. rewrite Hne. simpl.
  apply loadConfig_ok in Hload as (Hc1 & _ & _ & _ & Ht1).
  pose proof (frame_latestTag eq s1 cfg Hc1) as (_ & Hfs2 & _ & Hw2 & _ & c2 & Hc2 & Heq).
  rewrite Htag in Hfs2, Hw2, Hc2, Heq. simpl in *. injection Heq as <- _.
  destruct (State_loaded s2 cfg Hc2) as (s3 & st & s' & _ & _ & HS).
  exists st, s'. split; [done|]. split; [done|].
  pose proof (frame_State same_version (λ _ _ _, eq_refl) (λ _ _ _, eq_refl)
                (λ _ _, eq_refl) (λ _ _, eq_refl) s2 cfg Hc2)
    as (_ & Hfs & _ & Hw & _ & c' & Hc' & Hver).
  rewrite HS in Hfs, Hw, Hc', Hver. simpl in *. unfold same_version in Hver. simpl in Hver.
  repeat split; [congruence | | exists c'; split; congruence].
  rewrite Hw, Hw2. unfold work. by rewrite Ht1.
Qed.

(** ** Calls that leave the config and config.json alone *)

#[local] Instance same_config_refl : Reflexive same_config.
Proof. by intros s. Qed.

#[local] Instance same_config_trans : Transitive same_config.
Proof. intros s1 s2 s3 (?&?&?) (?&?&?). repeat split; congruence. Qed.

Lemma same_config_http_get url : preserves same_config (http_get url).
Proof. by intros s. Qed.

Lemma same_config_log e : preserves same_config (modify (log e)).
Proof. by intros s. Qed.

Lemma same_config_on_fs f : preserves same_config (on_fs f).
Proof. by intros s. Qed.

Lemma same_config_exec c : preserves same_config (exec c).
Proof. by intros s. Qed.

Lemma same_config_tasklist pid : preserves same_config (tasklist pid).
Proof. by intros s. Qed.

Lemma same_config_isPIDRunning pid : preserves same_config (isPIDRunning pid).
Proof. unfold isPIDRunning. repeat preserves_step. apply same_config_tasklist. Qed.

Lemma same_config_downloadAndUnpack tag :
  preserves same_config (Service.downloadAndUnpack tag).
Proof.
  unfold Service.downloadAndUnpack, Service.ensureDirs. repeat preserves_step;
    auto using same_config_http_get, same_config_log, same_config_on_fs.
Qed.

(** ** The release manager *)



Lemma downloadAndUnpack_present s tag :
  tag ≠ "" → mkdir_dirs (env s) = Ok tt → Stat (fs s) [tag] = Ok DirNode →
  Service.downloadAndUnpack tag s = (Ok tt, s).
Proof.
  intros Hne Hdirs Hstat. unfold Service.downloadAndUnpack.
  apply String.eqb_neq in Hne. rewrite Hne.
  unfold bind, Service.ensureDirs, read, gets. by rewrite Hdirs, Hstat.
Qed.

(** *** Directories stay, and unpacking a named member makes the
    directory of the tag *)

Lemma mkdirs_keeps todo : ∀ fs done r fs' q,
  mkdirs fs done todo = (r, fs') → fs !! q = Some DirNode → fs' !! q = Some DirNode.
Proof.
  induction todo as [|d todo IH]; intros fs done r fs' q; simpl.
  - by intros [= _ <-].
  - destruct (fs !! (done ++ [d])%list) as [[|data t]|] eqn:Hp.
    + apply IH.
    + by intros [= _ <-].
    + intros Hrun Hq. eapply IH; [exact Hrun|].
      rewrite lookup_insert_ne; [done|]. intros <-. congruence.
Qed.

Lemma mkdirs_first fs d todo fs' :
  mkdirs fs [] (d :: todo) = (Ok tt, fs') → fs' !! [d] = Some DirNode.
Proof.
  simpl. destruct (fs !! [d]) as [[|data t]|] eqn:Hp.
  - intros Hrun. by eapply mkdirs_keeps.
  - discriminate.
  - intros Hrun. eapply mkdirs_keeps; [exact Hrun|]. apply lookup_insert_eq.
Qed.

Lemma OpenFile_keeps t fs p r fs' q :
  OpenFile t fs p = (r, fs') → fs !! q = Some DirNode → fs' !! q = Some DirNode.
Proof.
  unfold OpenFile. destruct (Stat fs (Dir p)) as [[|]|]; destruct p as [|a p];
    try (by intros [= _ <-]).
  destruct (fs !! (a :: p)) as [[|data t']|] eqn:Hp; intros [= _ <-] Hq; [done|..];
    (rewrite lookup_insert_ne; [done|]; intros <-; congruence).
Qed.

Lemma OpenFile_created t fs p fs' :
  OpenFile t fs p = (Ok tt, fs') → fs' !! p = Some (FileNode "" t).
Proof.
  unfold OpenFile. destruct (Stat fs (Dir p)) as [[|]|]; destruct p as [|a p];
    try discriminate.
  destruct (fs !! (a :: p)) as [[|data t']|]; intros [= <-]; apply lookup_insert_eq.
Qed.






(** The ways the download fails. *)
Lemma downloadAndUnpack_failures s tag :
  tag ≠ "" → mkdir_dirs (env s) = Ok tt → Stat (fs s) [tag] ≠ Ok DirNode →
  NewRequest_ok (env s) (downloadURL tag) = true →
  match http_Do (env s) (downloadURL tag) with
  | DoFails => fst (Service.downloadAndUnpack tag s) = Err NetError
  | Resp code status _ body =>
      if 400 <=? code
      then fst (Service.downloadAndUnpack tag s)
           = Err (errors_New ("download failed: " +:+ status))
      else match body with
           | ReadAllFails => fst (Service.downloadAndUnpack tag s) = Err NetError
           | Bytes None => fst (Service.downloadAndUnpack tag s) = Err ZipError
           | Bytes (Some files) =>
               fst (Service.downloadAndUnpack tag s)
               = fst (each (unzip_member (now (env s)) [tag]) files (fs s))
           end
  end.
Proof.
  intros Hne Hdirs Hstat Hurl. unfold Service.downloadAndUnpack.
  apply String.eqb_neq in Hne. rewrite Hne.
  unfold bind, Service.ensureDirs, read, gets, http_get, modify, on_fs.
  rewrite Hdirs.
  destruct (Stat (fs s) [tag]) as [[|data t]|e] eqn:Hst; [done| |]; simpl;
    rewrite Hurl; simpl;
    (destruct (http_Do (env s) (downloadURL tag)) as [|code status loc body]; [done|];
     destruct (400 <=? code); [done|];
     destruct body as [|[files|]]; done).
Qed.

(** ** Stopping *)

#[local] Instance same_store_refl : Reflexive same_store.
Proof. by intros s. Qed.

#[local] Instance same_store_trans : Transitive same_store.
Proof. intros s1 s2 s3 (?&?&?&?) (?&?&?&?). repeat split; congruence. Qed.

Lemma same_store_exec c : preserves same_store (exec c).
Proof. by intros s. Qed.

Lemma same_store_tasklist pid : preserves same_store (tasklist pid).
Proof. by intros s. Qed.

Lemma same_store_isPIDRunning pid : preserves same_store (isPIDRunning pid).
Proof. unfold isPIDRunning. repeat preserves_step. apply same_store_tasklist. Qed.

Lemma bind_try {A B} (m : M A) (k : Result A → M B) s :
  bind (try m) k s = k (fst (m s)) (snd (m s)).
Proof. done. Qed.

Lemma isPIDRunning_runs pid s :
  ∃ alive s', isPIDRunning pid s = (Ok alive, s') ∧ same_store s s' ∧ procs s' = procs s.
Proof.
  unfold isPIDRunning, bind, try, ret.
  destruct (pid <=? 0); [by eexists _, _|].
  unfold tasklist. simpl.
  destruct (tasklist_fails (env s)); by eexists _, _.
Qed.

Lemma set_Running_None_id c :
  Config.Running c = None → Config.set_Running None c = c.
Proof. destruct c. simpl. by intros ->. Qed.

Lemma bind_assoc {A B C} (m : M A) (k1 : A → M B) (k2 : B → M C) s :
  bind (bind m k1) k2 s = bind m (λ a, bind (k1 a) k2) s.
Proof. unfold bind. by destruct (m s) as [[a|e] s1]. Qed.

Lemma bind_ret {A B} (a : A) (k : A → M B) s : bind (ret a) k s = k a s.
Proof. done. Qed.

(** The end of [StopRunning] and of the stale-entry check: the entry is
    cleared and the config saved. *)
Lemma clear_running_run s c :
  config s = Some c →
  bind (cfg_write (Config.set_Running None))
    (λ _, bind (try Service.saveConfig) (λ _, ret tt)) s
  = (Ok tt, saved (Config.set_Running None c)
              (set_config (Some (Config.set_Running None c)) s)).
Proof.
  intros Hc. rewrite (bind_ok _ _ _ _ _ (cfg_write_some _ _ _ Hc)), bind_try.
  by rewrite (saveConfig_some _ (Config.set_Running None c)).
Qed.

Lemma saved_fields c s :
  config (saved c s) = config s ∧ env (saved c s) = env s ∧ fs (saved c s) = fs s ∧
  procs (saved c s) = procs s ∧
  (config_writable (env s) = true → configFile (saved c s) = Some c) ∧
  (config_writable (env s) = false → configFile (saved c s) = configFile s) ∧
  trace (saved c s) = (trace s ++ [EvWriteFile c])%list.
Proof. unfold saved. by destruct (config_writable (env s)). Qed.

Lemma StopRunning_loaded s cfg s1 :
  Service.loadConfig s = (Ok cfg, s1) →
  ∃ s', Service.StopRunning s = (Ok tt, s') ∧
    config s' = Some (Config.set_Running None cfg) ∧
    env s' = env s ∧ fs s' = fs s1 ∧
    (is_Some (Config.Running cfg) → config_writable (env s) = true →
     configFile s' = Some (Config.set_Running None cfg)).
Proof.
  intros Hload. unfold Service.StopRunning.
  rewrite (bind_ok _ _ _ _ _ Hload). rewrite !bind_try.
  apply loadConfig_ok in Hload as (Hc1 & He1 & _).
  set (s2 := snd (exec (TaskkillImage "winws.exe") s1)).
  set (s3 := snd (exec (StopProcessName "winws") s2)).
  set (s4 := snd (exec (WmicDelete "winws.exe") s3)).
  assert (same_store s1 s4) as (Hc4 & _ & He4 & Hfs4).
  { etrans; [apply (same_store_exec (TaskkillImage "winws.exe") s1)|].
    etrans; [apply (same_store_exec (StopProcessName "winws") s2)|].
    apply (same_store_exec (WmicDelete "winws.exe") s3). }
  rewrite Hc1 in Hc4.
  rewrite (bind_ok _ _ _ _ _ (cfg_read_some _ _ _ Hc4)).
  destruct (Config.Running cfg) as [r|] eqn:Hr.
  - destruct (isPIDRunning_runs (RunningInfo.PID r) s4)
      as (alive & s5 & Hrun & (Hc5 & _ & He5 & Hfs5) & _).
    rewrite (bind_ok _ _ _ _ _ Hrun). rewrite Hc4 in Hc5.
    assert (∀ s6, same_store s5 s6 →
            ∃ s', bind (cfg_write (Config.set_Running None))
                    (λ _, bind (try Service.saveConfig) (λ _, ret tt)) s6 = (Ok tt, s') ∧
              config s' = Some (Config.set_Running None cfg) ∧
              env s' = env s ∧ fs s' = fs s1 ∧
              (is_Some (Some r) → config_writable (env s) = true →
               configFile s' = Some (Config.set_Running None cfg))) as Htail.
    { intros s6 (Hc6 & _ & He6 & Hfs6). rewrite Hc5 in Hc6.
      rewrite (clear_running_run _ _ Hc6). eexists. split; [done|].
      destruct (saved_fields (Config.set_Running None cfg)
                  (set_config (Some (Config.set_Running None cfg)) s6))
        as (-> & -> & -> & _ & Hw & _). simpl in *.
      repeat split; try congruence. intros _ Hwr. apply Hw. congruence. }
    destruct alive.
    + rewrite bind_assoc, bind_try, bind_assoc, bind_try, bind_ret.
      apply Htail. by unfold same_store.
    + rewrite bind_ret. apply Htail. by unfold same_store.
  - eexists. split; [done|]. rewrite set_Running_None_id by done.
    repeat split; try congruence. by intros [? [=]].
Qed.

Lemma StopRunning_error s e s' :
  Service.StopRunning s = (Err e, s') → Service.loadConfig s = (Err e, s').
Proof.
  intros H. destruct (Service.loadConfig s) as [[cfg|e0] s1] eqn:Hload.
  - destruct (StopRunning_loaded _ _ _ Hload) as (s'' & Hrun & _). congruence.
  - unfold Service.StopRunning in H. rewrite (bind_err _ _ _ _ _ Hload) in H.
    by injection H as -> ->.
Qed.

(** ** The process check *)

Lemma Contains_occurs s c t :
  strings.Contains s (String c t) = true → occurs c s = true.
Proof.
  induction s as [|d s IH]; simpl; [done|].
  intros H. apply orb_true_iff in H as [H|H].
  - apply andb_true_iff in H as [-> _]. done.
  - rewrite (IH H). apply orb_true_r.
Qed.

Lemma Itoa_loop_head fuel : ∀ n acc,
  0 ≤ n →
  ∃ c r, strconv.Itoa_loop (S fuel) n acc = String c r ∧ strconv.is_digit c = true.
Proof.
  assert (∀ n, 0 ≤ n →
            strconv.is_digit (ascii_of_N (48 + Z.to_N (n mod 10))) = true) as Hd.
  { intros n Hn. unfold strconv.is_digit, strings.byte.
    pose proof (Z.mod_pos_bound n 10 ltac:(lia)).
    rewrite N_ascii_embedding by lia. apply andb_true_iff.
    split; apply N.leb_le; lia. }
  induction fuel as [|fuel IH]; intros n acc Hn.
  - simpl. destruct (n / 10 =? 0); eauto.
  - change (strconv.Itoa_loop (S (S fuel)) n acc) with
      (let acc' := String (ascii_of_N (48 + Z.to_N (n mod 10))) acc in
       if n / 10 =? 0 then acc' else strconv.Itoa_loop (S fuel) (n / 10) acc').
    simpl. destruct (n / 10 =? 0); [eauto|].
    apply IH. apply Z.div_pos; lia.
Qed.

Lemma Itoa_head n :
  0 < n → ∃ c r, strconv.Itoa n = String c r ∧ strconv.is_digit c = true.
Proof.
  intros Hn. unfold strconv.Itoa.
  destruct (Z.ltb_spec n 0); [lia|]. apply Itoa_loop_head. lia.
Qed.

Lemma no_tasks_no_digit c :
  strconv.is_digit c = true → occurs c no_tasks = false.
Proof.
  intros Hd.
  destruct c as [[|] [|] [|] [|] [|] [|] [|] [|]];
    vm_compute in Hd; try discriminate; by vm_compute.
Qed.

(** A process that is not in the table is reported dead. *)
Lemma isPIDRunning_dead pid s :
  procs s !! pid = None → fst (isPIDRunning pid s) = Ok false.
Proof.
  intros Hdead. unfold isPIDRunning.
  destruct (Z.leb_spec pid 0) as [|Hpos]; [done|].
  unfold bind, try, tasklist, ret. simpl.
  destruct (tasklist_fails (env s)); [done|]. simpl.
  unfold tasklist_output. rewrite Hdead. fold no_tasks.
  destruct (Itoa_head pid Hpos) as (c & r & -> & Hd).
  destruct (strings.Contains no_tasks (String c r)) eqn:Hc; [|done].
  apply Contains_occurs in Hc. by rewrite (no_tasks_no_digit c Hd) in Hc.
Qed.

(** ** The two blocks of the state read *)

Lemma parseLatestResult_pure current s :
  snd (Service.parseLatestResult current s) = s.
Proof.
  assert (preserves eq (Service.parseLatestResult current)) as H.
  { unfold Service.parseLatestResult. repeat preserves_step. }
  symmetry. apply H.
Qed.

Lemma parseLatestResult_nonempty current s p :
  fst (Service.parseLatestResult current s) = Ok p → Results p ≠ ∅.
Proof.
  destruct (Service.parseLatestResult current s) as [r s'] eqn:H. simpl. intros ->.
  unfold Service.parseLatestResult in H.
  apply bind_inv_ok in H as (entries & s1 & _ & H).
  destruct (Service.latest_entry entries); [|discriminate].
  apply bind_inv_ok in H as (data & s2 & _ & H).
  unfold lift in H. injection H as H _. by apply parseAnalytics_ok_nonempty in H.
Qed.

Lemma rehydrate_parsed current s c p :
  config s = Some c →
  fst (Service.parseLatestResult current s) = Ok p →
  Service.rehydrate current s
  = (Ok tt, saved (with_results p c) (set_config (Some (with_results p c)) s)).
Proof.
  intros Hc Hp. unfold Service.rehydrate. rewrite bind_try, Hp.
  rewrite parseLatestResult_pure.
  assert (Nat.ltb 0 (size (Results p)) = true) as ->.
  { apply Nat.ltb_lt. apply parseLatestResult_nonempty in Hp.
    destruct (size (Results p)) eqn:Hsz; [|lia].
    by apply map_size_empty_inv in Hsz. }
  rewrite (bind_ok _ _ _ _ _ (cfg_write_some _ _ _ Hc)).
  rewrite (bind_ok _ _ _ _ _
             (cfg_write_some _ (set_config (Some (Config.set_TestResults (Results p) c)) s)
                _ eq_refl)).
  rewrite bind_try. simpl.
  by rewrite (saveConfig_some _ (with_results p c)).
Qed.

(** What [validate_running] leaves: the same config, or the config without
    its running entry, saved. *)
Lemma validate_running_run s c :
  config s = Some c →
  ∃ s', Service.validate_running s = (Ok tt, s') ∧
    env s' = env s ∧
    (∀ e, e ∈ trace s → e ∈ trace s') ∧
    ((config s' = Some c ∧ configFile s' = configFile s ∧
      (∀ r, Config.Running c = Some r → procs s !! RunningInfo.PID r ≠ None)) ∨
     (config s' = Some (Config.set_Running None c) ∧
      EvWriteFile (Config.set_Running None c) ∈ trace s' ∧
      (config_writable (env s) = true →
       configFile s' = Some (Config.set_Running None c)))).
Proof.
  intros Hc. unfold Service.validate_running.
  rewrite (bind_ok _ _ _ _ _ (cfg_read_some _ _ _ Hc)).
  destruct (Config.Running c) as [r|] eqn:Hr.
  - destruct (isPIDRunning_runs (RunningInfo.PID r) s)
      as (alive & s1 & Hrun & (Hc1 & Hf1 & He1 & _) & _).
    assert (∀ e, e ∈ trace s → e ∈ trace s1) as Ht1.
    { destruct (frame_isPIDRunning eq (RunningInfo.PID r) s c Hc) as (_&_&_&_& Ht &_).
      by rewrite Hrun in Ht. }
    rewrite (bind_ok _ _ _ _ _ Hrun). rewrite Hc in Hc1.
    destruct alive; simpl.
    + exists s1. repeat split; try done. left. repeat split; try done.
      intros r' [= <-] Hdead. apply isPIDRunning_dead in Hdead. by rewrite Hrun in Hdead.
    + rewrite (clear_running_run _ _ Hc1). eexists. split; [done|].
      destruct (saved_fields (Config.set_Running None c)
                  (set_config (Some (Config.set_Running None c)) s1))
        as (-> & -> & _ & _ & Hw & _ & Ht). simpl in *.
      repeat split; [done| |].
      * intros e Hin. rewrite Ht. apply elem_of_app. left. by apply Ht1.
      * right. repeat split; [|intros Hwr; apply Hw; congruence].
        rewrite Ht. apply elem_of_app. right. by left.
  - exists s. repeat split; try done. left. repeat split; try done.
Qed.

#[local] Instance same_running_refl : Reflexive same_running.
Proof. by intros x. Qed.

#[local] Instance same_running_trans : Transitive same_running.
Proof. unfold same_running. intros x y z ? ?. congruence. Qed.

Lemma State_from s cfg s1 s2 :
  Service.loadConfig s = (Ok cfg, s1) → Config.Version cfg ≠ "" →
  snd (Service.rehydrate [Config.Version cfg] s1) = s2 →
  Service.State s = bind Service.validate_running (λ _, Service.snapshot) s2.
Proof.
  intros Hload Hv <-. rewrite State_unfold, (bind_ok _ _ _ _ _ Hload).
  apply loadConfig_ok in Hload as (Hc1 & _).
  rewrite (bind_ok _ _ _ _ _ (currentReleasePath_some _ _ Hc1)).
  apply String.eqb_neq in Hv. rewrite Hv. simpl.
  destruct (succeeds_rehydrate [Config.Version cfg] s1 cfg Hc1) as ([] & s2 & Hr & _).
  rewrite bind_assoc, (bind_ok _ _ _ _ _ Hr). by rewrite Hr.
Qed.

(** A read that finds a parsable latest report stores its results. *)
Lemma State_rehydrates s cfg s1 p :
  Service.loadConfig s = (Ok cfg, s1) → Config.Version cfg ≠ "" →
  fst (Service.parseLatestResult [Config.Version cfg] s1) = Ok p →
  ∃ st s' c', Service.State s = (Ok st, s') ∧
    config s' = Some c' ∧ State.Config st = c' ∧
    Config.TestResults c' = Results p ∧ Config.BestStrategy c' = Best p ∧
    Results p ≠ ∅ ∧
    EvWriteFile (with_results p cfg) ∈ trace s' ∧
    (config_writable (env s) = true → configFile s' = Some c').
Proof.
  intros Hload Hv Hp.
  pose proof (loadConfig_ok _ _ _ Hload) as (Hc1 & He1 & _).
  pose proof (rehydrate_parsed _ _ _ _ Hc1 Hp) as Hr.
  set (c1 := with_results p cfg) in *.
  set (s2 := saved c1 (set_config (Some c1) s1)) in *.
  rewrite (State_from _ _ _ s2 Hload Hv) by (by rewrite Hr).
  destruct (saved_fields c1 (set_config (Some c1) s1)) as (Hc2 & He2 & _ & _ & Hw2 & _ & Ht2).
  fold s2 in Hc2, He2, Hw2, Ht2. simpl in *.
  destruct (validate_running_run s2 c1 Hc2) as (s3 & Hval & He3 & Ht3 & Hcase).
  rewrite (bind_ok _ _ _ _ _ Hval).
  assert (∃ c3, config s3 = Some c3 ∧
            Config.TestResults c3 = Results p ∧ Config.BestStrategy c3 = Best p ∧
            (config_writable (env s) = true → configFile s3 = Some c3))
    as (c3 & Hc3 & Hres & Hbest & Hw3).
  { destruct Hcase as [(Hc3 & Hf3 & _) | (Hc3 & _ & Hw3)].
    - exists c1. repeat split; [done|]. intros Hw. rewrite Hf3. apply Hw2. congruence.
    - eexists. split; [done|]. repeat split. intros Hw. apply Hw3. congruence. }
  destruct (succeeds_snapshot s3 c3 Hc3) as (st & s' & Hs & _).
  destruct (snapshot_value _ _ _ _ Hc3 Hs) as (HC & _ & _ & _ & Hc' & Hf' & _).
  exists st, s', c3. repeat split; try done.
  - by eapply parseLatestResult_nonempty.
  - destruct (frame_snapshot eq s3 c3 Hc3) as (_ & _ & _ & _ & Ht & _).
    rewrite Hs in Ht. apply Ht, Ht3. rewrite Ht2. apply elem_of_app. right. by left.
  - intros Hw. rewrite Hf'. by apply Hw3.
Qed.

(** A read with an active release that finds the tracked process gone
    clears the entry. *)
Lemma State_clears_stale s cfg s1 r :
  Service.loadConfig s = (Ok cfg, s1) → Config.Version cfg ≠ "" →
  Config.Running cfg = Some r → procs s !! RunningInfo.PID r = None →
  ∃ st s' c', Service.State s = (Ok st, s') ∧
    config s' = Some c' ∧ State.Config st = c' ∧
    Config.Running c' = None ∧ State.Running st = None ∧
    EvWriteFile c' ∈ trace s' ∧
    (config_writable (env s) = true → configFile s' = Some c').
Proof.
  intros Hload Hv Hr Hdead.
  pose proof (loadConfig_ok _ _ _ Hload) as (Hc1 & He1 & _ & Hp1 & _).
  rewrite (State_from _ _ _ _ Hload Hv eq_refl).
  set (s2 := snd (Service.rehydrate [Config.Version cfg] s1)).
  destruct (frame_rehydrate same_running
              (λ _ _ _, eq_refl) (λ _ _ _, eq_refl) (λ _ _, eq_refl)
              [Config.Version cfg] s1 cfg Hc1)
    as (He2 & _ & Hp2 & _ & _ & c2 & Hc2 & Hrun2).
  fold s2 in He2, Hp2, Hc2, Hrun2. unfold same_running in Hrun2. simpl in Hrun2.
  destruct (validate_running_run s2 c2 Hc2) as (s3 & Hval & He3 & Ht3 & Hcase).
  rewrite (bind_ok _ _ _ _ _ Hval).
  destruct Hcase as [(_ & _ & Halive) | (Hc3 & Hin3 & Hw3)].
  { exfalso. apply (Halive r); congruence. }
  destruct (succeeds_snapshot s3 _ Hc3) as (st & s' & Hs & _).
  destruct (snapshot_value _ _ _ _ Hc3 Hs) as (HC & HR & _ & _ & Hc' & Hf' & _).
  exists st, s', (Config.set_Running None c2). repeat split; try done.
  - destruct (frame_snapshot eq s3 _ Hc3) as (_ & _ & _ & _ & Ht & _).
    rewrite Hs in Ht. by apply Ht.
  - intros Hw. rewrite Hf'. apply Hw3. congruence.
Qed.

(** ** Launching *)

#[local] Instance stays_stopped_refl : Reflexive stays_stopped.
Proof. by intros x. Qed.

#[local] Instance stays_stopped_trans : Transitive stays_stopped.
Proof. unfold stays_stopped. intros x y z [? ?] [? ?]. split; [auto | congruence]. Qed.

Lemma RunStrategy_no_pid s file cfg s1 out s3 :
  let full := launch_path [Config.Version cfg] file in
  Service.loadConfig s = (Ok cfg, s1) → Config.Version cfg ≠ "" →
  is_ok (Stat (fs s1) full) = true →
  exec (StartProcess full (Dir full) (RUN_PROCESS_HIDDEN (env s)))
    (snd (Service.StopRunning s1)) = (Ok out, s3) →
  atoi (strings.TrimSpace out) ≤ 0 →
  ∃ st s' c', Service.RunStrategy file s = (Ok st, s') ∧
    config s' = Some c' ∧ State.Config st = c' ∧
    Config.Running c' = None ∧ State.Running st = None ∧
    Config.LastStrategy c' = Base full.
Proof.
  intros full Hload Hv Hstat Hexec Hpid.
  pose proof (loadConfig_ok _ _ _ Hload) as (Hc1 & He1 & _).
  unfold Service.RunStrategy.
  rewrite (bind_ok _ _ _ _ _ Hload), bind_try.
  destruct (StopRunning_loaded s1 cfg s1 (loadConfig_cached _ _ Hc1))
    as (s2 & Hstop & Hc2 & He2 & Hfs2 & _).
  rewrite Hstop in Hexec |- *. simpl in Hexec |- *.
  rewrite (bind_ok _ _ _ _ _ (currentReleasePath_some _ _ Hc2)). simpl.
  apply String.eqb_neq in Hv. rewrite Hv.
  change (match file with Abs p => p | Rel p => ([Config.Version cfg] ++ p)%list end)
    with full.
  unfold bind at 1, read. rewrite Hfs2.
  destruct (Stat (fs s1) full) as [n|]; [clear Hstat | done].
  unfold bind at 1, gets. rewrite He2, He1.
  rewrite (bind_ok _ _ _ _ _ Hexec).
  apply Z.ltb_ge in Hpid. rewrite Hpid, bind_ret.
  assert (config s3 = Some (Config.set_Running None cfg)) as Hc3.
  { destruct (same_store_exec (StartProcess full (Dir full) (RUN_PROCESS_HIDDEN (env s))) s2)
      as (Hc & _). rewrite Hexec in Hc. simpl in Hc. congruence. }
  rewrite (bind_ok _ _ _ _ _ (cfg_write_some _ _ _ Hc3)), bind_try.
  set (c4 := Config.set_LastStrategy (Base full) (Config.set_Running None cfg)).
  rewrite (saveConfig_some _ c4) by done. simpl.
  set (s5 := saved c4 (set_config (Some c4) s3)).
  assert (config s5 = Some c4) as Hc5 by apply saved_fields.
  destruct (State_loaded s5 c4 Hc5) as (_ & st & s' & _ & _ & HS).
  destruct (State_value _ _ _ HS) as (Hc' & HR & _).
  destruct (frame_State stays_stopped
              (λ _ _ _, conj (λ H, H) eq_refl) (λ _ _ _, conj (λ H, H) eq_refl)
              (λ _ _, conj (λ _, eq_refl) eq_refl) (λ _ _, conj (λ H, H) eq_refl)
              s5 c4 Hc5) as (_ & _ & _ & _ & _ & c' & Hc'' & Hkeep & Hlast).
  rewrite HS in Hc'', Hkeep, Hlast. simpl in *.
  assert (c' = State.Config st) as -> by congruence.
  exists st, s', (State.Config st). repeat split; try done.
  - by apply Hkeep.
  - rewrite HR. by apply Hkeep.
Qed.

(** ** Sorting *)

Section Sorting.

Context {A : Type} (less : A → A → bool) (le : A → A → Prop).
Hypothesis not_less_le : ∀ x y, less y x = false → le x y.
Hypothesis less_le : ∀ x y, less y x = true → le y x.

Lemma insert_by_perm x l : Permutation (insert_by less x l) (x :: l).
Proof.
  induction l as [|y l IH]; simpl; [done|].
  destruct (less y x); [|done].
  rewrite IH. apply perm_swap.
Qed.

Lemma sort_Slice_perm l : Permutation (sort_Slice less l) l.
Proof.
  induction l as [|x l IH]; simpl; [done|].
  rewrite insert_by_perm. by constructor.
Qed.

Lemma insert_by_hd x y l :
  le y x → HdRel le y l → HdRel le y (insert_by less x l).
Proof.
  intros Hyx Hl. destruct l as [|z l]; simpl; [by constructor|].
  destruct (less z x); constructor; [by inversion Hl | done].
Qed.

Lemma insert_by_sorted x l : Sorted le l → Sorted le (insert_by less x l).
Proof.
  induction 1 as [|y l Hs IH Hhd]; simpl; [by repeat constructor|].
  destruct (less y x) eqn:Hless.
  - constructor; [done|]. apply insert_by_hd; [by apply less_le | done].
  - constructor; [by constructor|]. constructor. by apply not_less_le.
Qed.

Lemma sort_Slice_sorted l : Sorted le (sort_Slice less l).
Proof.
  induction l as [|x l IH]; simpl; [constructor|]. by apply insert_by_sorted.
Qed.

End Sorting.

Lemma ltb_false_leb a b : String.ltb b a = false → String.leb a b = true.
Proof.
  unfold String.ltb, String.leb. rewrite (String.compare_antisym a b).
  by destruct (String.compare b a).
Qed.

Lemma ltb_true_leb a b : String.ltb b a = true → String.leb b a = true.
Proof.
  unfold String.ltb, String.leb. by destruct (String.compare b a).
Qed.

(** ** The strategy catalog *)

Lemma general_not_service name : is_general name = true → is_service name = false.
Proof.
  unfold is_general, is_service. intros H. apply andb_true_iff in H as [H _].
  destruct (strings.ToLower name) as [|c s]; simpl in *; [done|].
  apply andb_true_iff in H as [H _]. apply Ascii.eqb_eq in H. by subst c.
Qed.

Lemma listStrategies_listing s current s1 entries :
  Service.currentReleasePath s = (Ok (Some current), s1) →
  ReadDir (fs s1) current = Ok entries →
  ∃ l, Service.listStrategies s = (Ok l, s1) ∧
    Permutation (map Strategy.Name l)
      (map fst (List.filter (λ e, negb (IsDir (snd e)) && is_general (fst e)) entries)) ∧
    Sorted name_le l ∧
    Forall (λ st, Strategy.File st = (current ++ [Strategy.Name st])%list ∧
                  is_service (Strategy.Name st) = false) l.
Proof.
  intros Hcur Hdir. unfold Service.listStrategies.
  rewrite (bind_ok _ _ _ _ _ Hcur). unfold bind, read, ret. rewrite Hdir.
  eexists. split; [done|].
  set (pick := λ e : string * Node, _).
  assert (∀ e st, pick e = Some st →
            negb (IsDir (snd e)) && is_general (fst e) = true ∧
            Strategy.Name st = fst e ∧
            Strategy.File st = (current ++ [fst e])%list) as Hsome.
  { intros e st. unfold pick.
    destruct (IsDir (snd e)); simpl; [discriminate|].
    fold (is_service (fst e)). destruct (is_service (fst e)); [discriminate|].
    rewrite andb_comm. fold (is_general (fst e)).
    destruct (is_general (fst e)); [|discriminate].
    by intros [= <-]. }
  assert (∀ e, pick e = None → negb (IsDir (snd e)) && is_general (fst e) = false) as Hnone.
  { intros e. unfold pick.
    destruct (IsDir (snd e)); simpl; [done|].
    fold (is_service (fst e)). destruct (is_service (fst e)) eqn:Hsvc.
    - intros _. destruct (is_general (fst e)) eqn:Hgen; [|done].
      apply general_not_service in Hgen. congruence.
    - rewrite andb_comm. fold (is_general (fst e)).
      by destruct (is_general (fst e)). }
  clearbody pick. split; [|split].
  - rewrite (sort_Slice_perm _ (omap pick entries)).
    apply Permutation_refl'. clear Hdir.
    induction entries as [|e entries IH]; [done|]. cbn.
    destruct (pick e) as [st|] eqn:He.
    + apply Hsome in He as (-> & <- & _). cbn. f_equal. apply IH.
    + rewrite (Hnone _ He). apply IH.
  - apply sort_Slice_sorted; unfold name_le.
    + intros x y. apply ltb_false_leb.
    + intros x y. apply ltb_true_leb.
  - eapply Forall_forall. intros st Hin.
    rewrite (sort_Slice_perm _ (omap pick entries)) in Hin.
    apply list_elem_of_omap in Hin as (e & _ & He).
    apply Hsome in He as (Hgen & -> & ->). split; [done|].
    apply general_not_service. by apply andb_true_iff in Hgen as [_ ?].
Qed.

Lemma listStrategies_no_release s s1 :
  Service.currentReleasePath s = (Ok None, s1) →
  Service.listStrategies s = (Ok [], s1).
Proof.
  intros Hcur. unfold Service.listStrategies. by rewrite (bind_ok _ _ _ _ _ Hcur).
Qed.

(** * The claims *)

(** C1. The stored status is a function of the counters: a line taken by
    the standard pattern gives a result whose status is "ok" exactly when
    its httpErr and pingFail counters are both zero, and "fail" otherwise; a
    line taken by the DPI-summary pattern gives a result whose status is
    "ok" exactly when its fail and blocked counters are both zero, and
    "fail" otherwise; every result in the map that [parseAnalytics] returns
    is the result of such a line of the text, stored under its name; and a
    line written in the standard form, or in the DPI-summary form with a
    name in which no space is followed by a colon, is taken by the pattern
    of its form, with the numbers of the line as counters. *)
Theorem parse_status_determined :
  (∀ raw res, classify raw = Standard res →
     (Status res = "ok" ↔ HTTP_ERR res = 0 ∧ PingFail res = 0) ∧
     (Status res ≠ "ok" → Status res = "fail")) ∧
  (∀ raw res, classify raw = DpiSummary res →
     (Status res = "ok" ↔ Fail res = 0 ∧ Blocked res = 0) ∧
     (Status res ≠ "ok" → Status res = "fail")) ∧
  (∀ content p name res,
     parseAnalytics content = Ok p → Results p !! name = Some res →
     Name res = name ∧
     ∃ raw, raw ∈ strings.Split content "010" ∧
       (classify raw = Standard res ∨ classify raw = DpiSummary res)) ∧
  (∀ raw name n2 n3 n4 n5 n6,
     strings.TrimSpace raw = std_line name n2 n3 n4 n5 n6 →
     strings.TrimPrefix (std_line name n2 n3 n4 n5 n6) "Best strategy:" = None →
     occurs "010" name = false → Forall numeral [n2; n3; n4; n5; n6] →
     classify raw = Standard (stdResult (strings.TrimSpace name) n2 n3 n4 n5 n6)) ∧
  (∀ raw name n2 n3 n4 n5,
     strings.TrimSpace raw = dpi_line name n2 n3 n4 n5 →
     strings.TrimPrefix (dpi_line name n2 n3 n4 n5) "Best strategy:" = None →
     occurs "010" name = false → colon_free name → Forall numeral [n2; n3; n4; n5] →
     classify raw = DpiSummary (dpiResult (strings.TrimSpace name) n2 n3 n4 n5)).
Proof.
  split; [|split; [|split; [|split]]].
  - intros raw res H. apply classify_Standard in H as (name & m2 & m3 & m4 & m5 & m6 & ->).
    apply stdResult_status.
  - intros raw res H. apply classify_DpiSummary in H as (name & m2 & m3 & m4 & m5 & ->).
    apply dpiResult_status.
  - intros content p name res Hp Hl. rewrite parseAnalytics_unfold in Hp.
    destruct (Nat.eqb _ 0); [discriminate|]. injection Hp as <-. simpl in Hl.
    apply fold_parse_step_lookup in Hl as [Hl | (raw & Hin & Hres & Hname)].
    { simpl in Hl. by rewrite lookup_empty in Hl. }
    split; [done|]. exists raw. split; [done|].
    unfold result_of in Hres. destruct (classify raw); inversion Hres; subst; auto.
  - apply classify_standard_line.
  - apply classify_dpi_line.
Qed.

Lemma parse_status_determined_witness :
  classify "nginx : HTTP OK: 5, ERR: 0, UNSUP: 0, Ping OK: 5, Fail: 0"
    = Standard (stdResult "nginx" "5" "0" "0" "5" "0") ∧
  (Status (stdResult "nginx" "5" "0" "0" "5" "0") = "ok" ↔
   HTTP_ERR (stdResult "nginx" "5" "0" "0" "5" "0") = 0 ∧
   PingFail (stdResult "nginx" "5" "0" "0" "5" "0") = 0) ∧
  classify "  general2.BAT : OK: 2, FAIL: 1, UNSUP: 0, BLOCKED: 1"
    = DpiSummary (dpiResult "general2.BAT" "2" "1" "0" "1").
Proof.
  pose proof parse_status_determined as (Hstd & _ & _ & Hline & Hdpi).
  split; [|split].
  - apply (Hline "nginx : HTTP OK: 5, ERR: 0, UNSUP: 0, Ping OK: 5, Fail: 0"
                 "nginx" "5" "0" "0" "5" "0"); [reflexivity..|].
    repeat constructor; discriminate.
  - apply (Hstd "nginx : HTTP OK: 5, ERR: 0, UNSUP: 0, Ping OK: 5, Fail: 0").
    reflexivity.
  - apply (Hdpi "  general2.BAT : OK: 2, FAIL: 1, UNSUP: 0, BLOCKED: 1"
                "general2.BAT" "2" "1" "0" "1"); [reflexivity..|].
    repeat constructor; discriminate.
Defined.

(** C2. A text none of whose lines is taken by either result pattern,
    whatever else it holds, makes [parseAnalytics] fail with "no analytics
    parsed"; no result map is returned. *)
Theorem parse_rejects_unrecognized content :
  (∀ raw, raw ∈ strings.Split content "010" →
     ∀ res, classify raw ≠ Standard res ∧ classify raw ≠ DpiSummary res) →
  parseAnalytics content = Err (errors_New "no analytics parsed").
Proof.
  intros Hnone. apply parseAnalytics_error_iff. intros raw Hin.
  unfold result_of. specialize (Hnone raw Hin).
  destruct (classify raw) as [| | |res|res|]; try done; by destruct (Hnone res).
Qed.

Lemma parse_rejects_unrecognized_witness :
  parseAnalytics ("=== ANALYTICS ===" +:+ String "010" (String "010"
                  "Best strategy: general1.bat"))
  = Err (errors_New "no analytics parsed").
Proof.
  apply parse_rejects_unrecognized. intros raw Hin res.
  vm_compute in Hin.
  repeat (apply elem_of_cons in Hin as [->|Hin]); [..|by apply elem_of_nil in Hin];
    by vm_compute.
Defined.

(** C3. In every snapshot that [State] returns, hasUpdate is set exactly
    when the latest tag is not empty and differs from the version of the
    config; and when the latest tag equals the recorded version and is not
    empty, [CheckAndUpdate] is the state read alone: nothing is downloaded,
    nothing unpacked, the release tree and the version stay as they are. *)
Theorem update_gating :
  (∀ s st s', Service.State s = (Ok st, s') →
     config s' = Some (State.Config st) ∧
     State.LatestTag st = tag_or_empty (fst (Service.latestTag s)) ∧
     (State.HasUpdate st = true ↔
        State.LatestTag st ≠ "" ∧
        State.LatestTag st ≠ Config.Version (State.Config st))) ∧
  (∀ s cfg s1 latest s2,
     Service.loadConfig s = (Ok cfg, s1) →
     Service.latestTag s1 = (Ok latest, s2) →
     Config.Version cfg = latest → latest ≠ "" →
     ∃ st s', Service.CheckAndUpdate s = (Ok st, s') ∧
       Service.State s2 = (Ok st, s') ∧
       fs s' = fs s1 ∧ work s' = work s ∧
       ∃ c', config s' = Some c' ∧ Config.Version c' = Config.Version cfg).
Proof.
  split.
  - intros s st s' H. destruct (State_value _ _ _ H) as (? & _ & ? & ?). done.
  - intros. by eapply CheckAndUpdate_noop.
Qed.

Lemma update_gating_witness :
  let s := Fixture.boot Fixture.host "1.9.0" in
  ∃ st s', Service.CheckAndUpdate s = (Ok st, s') ∧
    fs s' = fs s ∧ work s' = work s ∧
    ∃ c', config s' = Some c' ∧ Config.Version c' = "1.9.0".
Proof.
  intros s.
  destruct (proj2 update_gating s (Fixture.cfg "1.9.0")
              (set_config (Some (Fixture.cfg "1.9.0")) s) "1.9.0"
              (log (EvGet repoLatestURL) (set_config (Some (Fixture.cfg "1.9.0")) s))
              ltac:(reflexivity) ltac:(reflexivity)
              eq_refl ltac:(discriminate))
    as (st & s' & Hrun & _ & Hfs & Hw & Hc).
  exists st, s'. split; [exact Hrun|]. split; [exact Hfs|]. split; [exact Hw|]. exact Hc.
Defined.






(** C6. For every listing of the active release directory,
    [listStrategies] returns the entries that are no directories and whose
    lowered name starts with "general" and ends with ".bat", each once per
    entry, none of them with a lowered name starting with "service", in
    ascending order of their names, each with its path in the release; it
    returns the empty list, and no error, when there is no active release;
    and on the files general1.bat, general2.BAT, service.bat, readme.txt it
    returns general1.bat, general2.BAT. *)
Theorem listStrategies_sorted_generals :
  (∀ s current s1 entries,
     Service.currentReleasePath s = (Ok (Some current), s1) →
     ReadDir (fs s1) current = Ok entries →
     ∃ l, Service.listStrategies s = (Ok l, s1) ∧
       Permutation (map Strategy.Name l)
         (map fst (List.filter (λ e, negb (IsDir (snd e)) && is_general (fst e)) entries)) ∧
       Sorted name_le l ∧
       Forall (λ st, Strategy.File st = (current ++ [Strategy.Name st])%list ∧
                     is_service (Strategy.Name st) = false) l) ∧
  (∀ s s1, Service.currentReleasePath s = (Ok None, s1) →
     Service.listStrategies s = (Ok [], s1)) ∧
  (∃ entries l,
     ReadDir (fs Fixture.catalog) ["1.8.0"] = Ok entries ∧
     map fst entries ≡ₚ ["general1.bat"; "general2.BAT"; "service.bat"; "readme.txt"] ∧
     fst (Service.listStrategies Fixture.catalog) = Ok l ∧
     map Strategy.Name l = ["general1.bat"; "general2.BAT"]).
Proof.
  split; [|split].
  - apply listStrategies_listing.
  - apply listStrategies_no_release.
  - eexists _, _. split; [reflexivity|]. split; [|split; reflexivity].
    simpl. do 2 apply perm_skip. apply perm_swap.
Qed.

Lemma listStrategies_sorted_generals_witness :
  let s1 := set_config (Some (Fixture.cfg "1.8.0")) Fixture.sys in
  ∃ l, Service.listStrategies Fixture.sys = (Ok l, s1) ∧
    Sorted name_le l ∧
    Forall (λ st, Strategy.File st = ["1.8.0"; Strategy.Name st] ∧
                  is_service (Strategy.Name st) = false) l.
Proof.
  intros s1.
  destruct (ReadDir (fs s1) ["1.8.0"]) as [entries|e] eqn:Hdir;
    [|discriminate].
  destruct (proj1 listStrategies_sorted_generals Fixture.sys ["1.8.0"] s1 entries
              ltac:(reflexivity) Hdir) as (l & Hrun & _ & Hsorted & Hfiles).
  exists l. split; [exact Hrun|]. split; [exact Hsorted | exact Hfiles].
Defined.

(** C7. After every call of [StopRunning], whatever entry was tracked and
    whatever the commands found or did, a config held by the service has no
    running entry; the only error [StopRunning] returns is the one of
    [loadConfig], never one of a termination command; with the config
    loaded it returns success, leaves the config as it is when nothing was
    tracked, and after clearing an entry hands the config to config.json. *)
Theorem StopRunning_clears_running s :
  (∀ c, config (snd (Service.StopRunning s)) = Some c → Config.Running c = None) ∧
  (∀ e, fst (Service.StopRunning s) = Err e → fst (Service.loadConfig s) = Err e) ∧
  (∀ cfg s1, Service.loadConfig s = (Ok cfg, s1) →
     fst (Service.StopRunning s) = Ok tt ∧
     config (snd (Service.StopRunning s)) = Some (Config.set_Running None cfg) ∧
     (Config.Running cfg = None → config (snd (Service.StopRunning s)) = Some cfg) ∧
     (is_Some (Config.Running cfg) → config_writable (env s) = true →
      configFile (snd (Service.StopRunning s)) = Some (Config.set_Running None cfg))).
Proof.
  split; [|split].
  - intros c Hc. destruct (Service.loadConfig s) as [[cfg|e] s1] eqn:Hload.
    + destruct (StopRunning_loaded _ _ _ Hload) as (s' & Hrun & Hc' & _).
      rewrite Hrun in Hc. simpl in Hc. rewrite Hc' in Hc. by injection Hc as <-.
    + destruct (loadConfig_err _ _ _ Hload) as (-> & Hnone & _).
      unfold Service.StopRunning in Hc. rewrite (bind_err _ _ _ _ _ Hload) in Hc.
      simpl in Hc. congruence.
  - intros e He. destruct (Service.StopRunning s) as [r s'] eqn:Hrun. simpl in He. subst r.
    by rewrite (StopRunning_error _ _ _ Hrun).
  - intros cfg s1 Hload.
    destruct (StopRunning_loaded _ _ _ Hload) as (s' & Hrun & Hc' & _ & _ & Hfile).
    rewrite Hrun. simpl. repeat split; try done.
    intros Hnone. by rewrite Hc', set_Running_None_id.
Qed.

Lemma StopRunning_clears_running_witness :
  fst (Service.StopRunning Fixture.sys) = Ok tt ∧
  config (snd (Service.StopRunning Fixture.sys))
    = Some (Config.set_Running None (Fixture.cfg "1.8.0")) ∧
  configFile (snd (Service.StopRunning Fixture.sys))
    = Some (Config.set_Running None (Fixture.cfg "1.8.0")).
Proof.
  destruct (proj2 (proj2 (StopRunning_clears_running Fixture.sys))
              (Fixture.cfg "1.8.0") (set_config (Some (Fixture.cfg "1.8.0")) Fixture.sys)
              ltac:(reflexivity)) as (Hok & Hc & _ & Hfile).
  split; [exact Hok|]. split; [exact Hc|].
  apply Hfile; [by eexists | reflexivity].
Defined.

(** C8, as the code has it. When the launch step completes and the text it
    prints gives no positive process id, [RunStrategy] does not fail: it
    records no running entry, records the file as the last strategy and
    returns the state snapshot. *)
Theorem RunStrategy_without_pid s file cfg s1 out s3 :
  let full := launch_path [Config.Version cfg] file in
  Service.loadConfig s = (Ok cfg, s1) → Config.Version cfg ≠ "" →
  is_ok (Stat (fs s1) full) = true →
  exec (StartProcess full (Dir full) (RUN_PROCESS_HIDDEN (env s)))
    (snd (Service.StopRunning s1)) = (Ok out, s3) →
  atoi (strings.TrimSpace out) ≤ 0 →
  ∃ st s' c', Service.RunStrategy file s = (Ok st, s') ∧
    config s' = Some c' ∧ State.Config st = c' ∧
    Config.Running c' = None ∧ State.Running st = None ∧
    Config.LastStrategy c' = Base full.
Proof. apply RunStrategy_no_pid. Qed.

Lemma RunStrategy_without_pid_witness :
  let s := Fixture.boot
             (Fixture.host_with (Ok tt) (Resp 200 "200 OK" "" (Bytes None)) (Ok ""))
             "1.8.0" in
  ∃ st s' c', Service.RunStrategy (Rel ["general2.BAT"]) s = (Ok st, s') ∧
    config s' = Some c' ∧ State.Config st = c' ∧
    Config.Running c' = None ∧ State.Running st = None ∧
    Config.LastStrategy c' = "general2.BAT".
Proof.
  intros s.
  pose (s1 := set_config (Some (Fixture.cfg "1.8.0")) s).
  pose (launch := exec (StartProcess ["1.8.0"; "general2.BAT"] ["1.8.0"] false)
                    (snd (Service.StopRunning s1))).
  apply (RunStrategy_without_pid s (Rel ["general2.BAT"]) (Fixture.cfg "1.8.0")
           s1 "" (snd launch)).
  - reflexivity.
  - discriminate.
  - reflexivity.
  - reflexivity.
  - vm_compute; discriminate.
Defined.

(** C8 as stated fails: the launch prints nothing, no process id is
    obtained, and [RunStrategy] returns a snapshot and no error. *)
Lemma RunStrategy_without_pid_counterexample :
  let s := Fixture.boot
             (Fixture.host_with (Ok tt) (Resp 200 "200 OK" "" (Bytes None)) (Ok ""))
             "1.8.0" in
  atoi (strings.TrimSpace "") = 0 ∧
  is_ok (fst (Service.RunStrategy (Rel ["general2.BAT"]) s)) = true ∧
  EvRun (StartProcess ["1.8.0"; "general2.BAT"] ["1.8.0"] false)
    ∈ trace (snd (Service.RunStrategy (Rel ["general2.BAT"]) s)).
Proof.
  repeat split; [reflexivity..|].
  vm_compute. do 5 right. left.
Qed.

(** C9, as the code has it. With an active release (a config whose version
    is not empty): when the config holds a running entry whose process is
    not in the process table, the next [State] clears the entry, in the
    config and in the snapshot, and hands the config to config.json, which
    holds it when the write succeeds; no stop call is needed. *)
Theorem State_heals_stale_entry s cfg s1 r :
  Service.loadConfig s = (Ok cfg, s1) → Config.Version cfg ≠ "" →
  Config.Running cfg = Some r → procs s !! RunningInfo.PID r = None →
  ∃ st s' c', Service.State s = (Ok st, s') ∧
    config s' = Some c' ∧ State.Config st = c' ∧
    Config.Running c' = None ∧ State.Running st = None ∧
    EvWriteFile c' ∈ trace s' ∧
    (config_writable (env s) = true → configFile s' = Some c').
Proof. apply State_clears_stale. Qed.

Lemma State_heals_stale_entry_witness :
  ∃ st s' c', Service.State Fixture.sys = (Ok st, s') ∧
    config s' = Some c' ∧ State.Config st = c' ∧
    Config.Running c' = None ∧ State.Running st = None ∧
    EvWriteFile c' ∈ trace s' ∧
    (config_writable (env Fixture.sys) = true → configFile s' = Some c').
Proof.
  apply (State_heals_stale_entry Fixture.sys (Fixture.cfg "1.8.0")
           (set_config (Some (Fixture.cfg "1.8.0")) Fixture.sys) Fixture.tracked).
  - reflexivity.
  - discriminate.
  - reflexivity.
  - reflexivity.
Defined.

(** C9 as stated fails without an active release: the config has no
    version, the tracked process 4242 is not in the process table, and
    [State] returns the entry and keeps it in the config, unsaved. *)
Lemma stale_entry_without_release_counterexample :
  let s := Fixture.boot Fixture.host "" in
  procs s !! 4242 = None ∧
  (State.Running <$> (match fst (Service.State s) with Ok st => Some st | Err _ => None end))
    = Some (Some Fixture.tracked) ∧
  (Config.Running <$> config (snd (Service.State s))) = Some (Some Fixture.tracked) ∧
  configFile (snd (Service.State s)) = configFile s ∧
  trace (snd (Service.State s)) = [EvGet repoLatestURL].
Proof. repeat split; reflexivity. Qed.

(** C10. A state read is not free of side effects on the results: with an
    active release whose most recently modified report parses, [State]
    replaces the test results and the best strategy of the config by the
    parsed ones (a non-empty map) and hands the config to config.json,
    which holds it when the write succeeds; no test run is involved. *)
Theorem State_overwrites_results s cfg s1 p :
  Service.loadConfig s = (Ok cfg, s1) → Config.Version cfg ≠ "" →
  fst (Service.parseLatestResult [Config.Version cfg] s1) = Ok p →
  ∃ st s' c', Service.State s = (Ok st, s') ∧
    config s' = Some c' ∧ State.Config st = c' ∧
    Config.TestResults c' = Results p ∧ Config.BestStrategy c' = Best p ∧
    Results p ≠ ∅ ∧
    EvWriteFile (with_results p cfg) ∈ trace s' ∧
    (config_writable (env s) = true → configFile s' = Some c').
Proof. apply State_rehydrates. Qed.

Lemma State_overwrites_results_witness :
  ∃ st s' c', Service.State Fixture.sys = (Ok st, s') ∧
    config s' = Some c' ∧ State.Config st = c' ∧
    Config.TestResults c' = Results Fixture.parsed ∧
    Config.BestStrategy c' = Best Fixture.parsed ∧
    Results Fixture.parsed ≠ ∅ ∧
    EvWriteFile (with_results Fixture.parsed (Fixture.cfg "1.8.0")) ∈ trace s' ∧
    (config_writable (env Fixture.sys) = true → configFile s' = Some c').
Proof.
  apply (State_overwrites_results Fixture.sys (Fixture.cfg "1.8.0")
           (set_config (Some (Fixture.cfg "1.8.0")) Fixture.sys) Fixture.parsed).
  - reflexivity.
  - discriminate.
  - reflexivity.
Defined.

(** * Further properties of the code *)

(** ** The report parser, further *)

Lemma Split_not_nil s sep : strings.Split s sep ≠ [].
Proof.
  destruct s as [|c s]; simpl; [done|].
  destruct (Ascii.eqb c sep); [done|]. by destruct (strings.Split s sep).
Qed.

Lemma Split_app a sep b :
  strings.Split (a +:+ String sep b) sep = (strings.Split a sep ++ strings.Split b sep)%list.
Proof.
  induction a as [|c a IH].
  - rewrite app_nil. cbn [strings.Split]. by rewrite Ascii.eqb_refl.
  - rewrite app_cons. cbn [strings.Split]. destruct (Ascii.eqb c sep); [by rewrite IH|].
    rewrite IH. destruct (strings.Split a sep) as [|piece rest] eqn:Ha; [|done].
    by apply Split_not_nil in Ha.
Qed.

Lemma Split_one s sep : occurs sep s = false → strings.Split s sep = [s].
Proof.
  induction s as [|c s IH]; [done|]. cbn [occurs strings.Split]. intros H.
  apply orb_false_iff in H as [Hc Hs]. rewrite Hc, (IH Hs). done.
Qed.

Lemma parse_lines_app l1 l2 :
  parse_lines (l1 ++ l2) = fold_left parse_step l2 (parse_lines l1).
Proof. unfold parse_lines. by rewrite fold_left_app. Qed.

Lemma parse_step_skipped acc raw : is_skipped raw = true → parse_step acc raw = acc.
Proof. unfold is_skipped, parse_step. by destruct (classify raw). Qed.

Lemma fold_parse_step_skipped lines : ∀ acc,
  Forall (λ raw, is_skipped raw = true) lines → fold_left parse_step lines acc = acc.
Proof.
  induction lines as [|raw lines IH]; intros acc H; [done|].
  apply Forall_cons in H as [Hraw H]. simpl. rewrite (parse_step_skipped _ _ Hraw). by apply IH.
Qed.

Lemma parseAnalytics_lines c1 c2 :
  parse_lines (strings.Split c1 "010") = parse_lines (strings.Split c2 "010") →
  parseAnalytics c1 = parseAnalytics c2.
Proof. intros H. rewrite !parseAnalytics_unfold. by rewrite H. Qed.

(** X1. A line that is the marker, blank or matches neither pattern has no
    effect: the text with the line and the text without it parse alike,
    wherever the line stands. *)
Theorem parseAnalytics_skips_lines raw :
  is_skipped raw = true → occurs "010" raw = false →
  (∀ c1 c2, parseAnalytics (c1 +:+ String "010" (raw +:+ String "010" c2))
            = parseAnalytics (c1 +:+ String "010" c2)) ∧
  (∀ c2, parseAnalytics (raw +:+ String "010" c2) = parseAnalytics c2) ∧
  (∀ c1, parseAnalytics (c1 +:+ String "010" raw) = parseAnalytics c1).
Proof.
  intros Hskip Hone. split; [|split]; intros; apply parseAnalytics_lines.
  - rewrite !Split_app, (Split_one _ _ Hone), !parse_lines_app. simpl.
    by rewrite (parse_step_skipped _ _ Hskip).
  - rewrite Split_app, (Split_one _ _ Hone). unfold parse_lines. simpl.
    by rewrite (parse_step_skipped _ _ Hskip).
  - rewrite Split_app, (Split_one _ _ Hone), parse_lines_app. simpl.
    by rewrite (parse_step_skipped _ _ Hskip).
Qed.

Lemma parseAnalytics_skips_lines_witness :
  parseAnalytics ("=== ANALYTICS ===" +:+ String "010" "a : OK: 1, FAIL: 0, UNSUP: 0, BLOCKED: 0")
  = parseAnalytics "a : OK: 1, FAIL: 0, UNSUP: 0, BLOCKED: 0".
Proof.
  apply (proj1 (proj2 (parseAnalytics_skips_lines "=== ANALYTICS ===" eq_refl eq_refl))).
Defined.

Lemma fold_parse_step_keeps lines : ∀ acc name res,
  fst acc !! name = Some res →
  (∀ raw' res', raw' ∈ lines → result_of raw' = Some res' → Name res' ≠ name) →
  fst (fold_left parse_step lines acc) !! name = Some res.
Proof.
  induction lines as [|raw lines IH]; intros acc name res Hacc Hlater; [done|].
  simpl. apply IH.
  - destruct (result_of raw) as [r|] eqn:Hr.
    + rewrite (parse_step_result _ _ _ Hr). simpl. rewrite lookup_insert_ne; [done|].
      apply (Hlater raw); [by left | done].
    + by rewrite (parse_step_other _ _ Hr).
  - intros raw' res' Hin. apply Hlater. by right.
Qed.

(** X2. Of the lines that give a result of one name the last one wins: the map
    holds, under the name, the result of a line after which no line gives a
    result of that name. *)
Theorem parseAnalytics_last_line_wins content before raw after res :
  strings.Split content "010" = (before ++ raw :: after)%list →
  result_of raw = Some res →
  (∀ raw' res', raw' ∈ after → result_of raw' = Some res' → Name res' ≠ Name res) →
  ∃ p, parseAnalytics content = Ok p ∧ Results p !! Name res = Some res.
Proof.
  intros Hsplit Hres Hlater.
  assert (Hl : fst (parse_lines (strings.Split content "010")) !! Name res = Some res).
  { rewrite Hsplit, parse_lines_app. simpl. apply fold_parse_step_keeps; [|done].
    rewrite (parse_step_result _ _ _ Hres). simpl. apply lookup_insert_eq. }
  rewrite parseAnalytics_unfold.
  destruct (Nat.eqb _ 0) eqn:Hsize.
  - apply Nat.eqb_eq, map_size_empty_inv in Hsize. rewrite Hsize in Hl.
    by rewrite lookup_empty in Hl.
  - eexists. split; [done|]. done.
Qed.

Lemma parseAnalytics_last_line_wins_witness :
  ∃ p, parseAnalytics ("a : OK: 1, FAIL: 1, UNSUP: 0, BLOCKED: 0" +:+ String "010"
                       "a : OK: 2, FAIL: 0, UNSUP: 0, BLOCKED: 0") = Ok p ∧
       Results p !! "a" = Some (dpiResult "a" "2" "0" "0" "0").
Proof.
  apply (parseAnalytics_last_line_wins _ ["a : OK: 1, FAIL: 1, UNSUP: 0, BLOCKED: 0"]
           "a : OK: 2, FAIL: 0, UNSUP: 0, BLOCKED: 0" [] (dpiResult "a" "2" "0" "0" "0"));
    [reflexivity | reflexivity |].
  intros raw' res' Hin. by apply elem_of_nil in Hin.
Defined.

Lemma fold_parse_step_best lines : ∀ acc,
  (∀ raw, raw ∈ lines → ∀ b, classify raw ≠ BestStrategy b) →
  snd (fold_left parse_step lines acc) = snd acc.
Proof.
  induction lines as [|raw lines IH]; intros acc H; [done|].
  simpl. rewrite IH; [|intros raw' Hin; apply H; by right].
  unfold parse_step. pose proof (H raw (list_elem_of_here _ _)) as Hraw.
  destruct (classify raw); try done. by destruct (Hraw best).
Qed.

(** X3. The best strategy returned is the one named by the last "Best
    strategy:" line, whether or not a result of that name was parsed, and
    the empty string when there is no such line. *)
Theorem parseAnalytics_best content p :
  parseAnalytics content = Ok p →
  (∀ before raw after best,
     strings.Split content "010" = (before ++ raw :: after)%list →
     classify raw = BestStrategy best →
     (∀ raw', raw' ∈ after → ∀ b, classify raw' ≠ BestStrategy b) →
     Best p = best) ∧
  ((∀ raw, raw ∈ strings.Split content "010" → ∀ b, classify raw ≠ BestStrategy b) →
   Best p = "").
Proof.
  intros Hp. rewrite parseAnalytics_unfold in Hp.
  destruct (Nat.eqb _ 0); [discriminate|]. injection Hp as <-. simpl. split.
  - intros before raw after best Hsplit Hraw Hlater.
    rewrite Hsplit, parse_lines_app. simpl. rewrite fold_parse_step_best by done.
    unfold parse_step. by rewrite Hraw.
  - intros Hnone. unfold parse_lines. by rewrite fold_parse_step_best.
Qed.

Lemma parseAnalytics_best_witness :
  ∃ p, parseAnalytics ("Best strategy: x.bat" +:+ String "010" (
                       "a : OK: 2, FAIL: 0, UNSUP: 0, BLOCKED: 0" +:+ String "010"
                       "Best strategy:  b.bat ")) = Ok p ∧
       Best p = "b.bat" ∧ Results p !! "b.bat" = None.
Proof.
  exists {| Results := <["a" := dpiResult "a" "2" "0" "0" "0"]> ∅; Best := "b.bat" |}.
  split; [by vm_compute|]. split; [|by vm_compute].
  eapply (proj1 (parseAnalytics_best
                   ("Best strategy: x.bat" +:+ String "010" (
                    "a : OK: 2, FAIL: 0, UNSUP: 0, BLOCKED: 0" +:+ String "010"
                    "Best strategy:  b.bat ")) _ ltac:(by vm_compute))
            ["Best strategy: x.bat"; "a : OK: 2, FAIL: 0, UNSUP: 0, BLOCKED: 0"]
            "Best strategy:  b.bat " []); [reflexivity | reflexivity |].
  intros raw' Hin. by apply elem_of_nil in Hin.
Defined.

(** X4. [parseAnalytics] returns a result exactly when some line of the text
    is taken by one of the two patterns; its only error is "no analytics
    parsed". *)
Theorem parseAnalytics_succeeds_iff content :
  ((∃ p, parseAnalytics content = Ok p) ↔
   ∃ raw res, raw ∈ strings.Split content "010" ∧
     (classify raw = Standard res ∨ classify raw = DpiSummary res)) ∧
  (∀ e, parseAnalytics content = Err e → e = errors_New "no analytics parsed").
Proof.
  split; [split|].
  - intros [p Hp].
    destruct (map_choose _ (parseAnalytics_ok_nonempty _ _ Hp)) as (name & res & Hl).
    rewrite parseAnalytics_unfold in Hp. destruct (Nat.eqb _ 0); [discriminate|].
    injection Hp as <-. simpl in Hl.
    apply fold_parse_step_lookup in Hl as [Hl | (raw & Hin & Hres & _)].
    { simpl in Hl. by rewrite lookup_empty in Hl. }
    exists raw, res. split; [done|]. unfold result_of in Hres.
    destruct (classify raw); inversion Hres; subst; auto.
  - intros (raw & res & Hin & Hres).
    destruct (parseAnalytics content) as [p|e] eqn:Hp; [by exists p|].
    exfalso. rewrite parseAnalytics_unfold in Hp.
    destruct (Nat.eqb _ 0) eqn:Hsize; [|discriminate].
    apply Nat.eqb_eq, map_size_empty_inv in Hsize.
    eapply (fold_parse_step_some _ _ raw res); [done| |exact Hsize].
    unfold result_of. by destruct Hres as [-> | ->].
  - intros e He. rewrite parseAnalytics_unfold in He.
    destruct (Nat.eqb _ 0); [|discriminate]. by injection He as <-.
Qed.

Lemma digit_range c : strconv.is_digit c = true → 0 ≤ strconv.digit c ≤ 9.
Proof.
  unfold strconv.is_digit, strconv.digit. intros H.
  apply andb_true_iff in H as [H1 H2]. apply N.leb_le in H1, H2. lia.
Qed.

Lemma decimal_from_ge s : ∀ n, 0 ≤ n → all_digits s = true → n ≤ decimal_from n s.
Proof.
  induction s as [|c s IH]; intros n Hn Hs; simpl in *; [lia|].
  apply andb_true_iff in Hs as [Hc Hs]. pose proof (digit_range c Hc).
  etrans; [|apply IH]; [lia | lia | done].
Qed.

Lemma decimal_from_lt s : ∀ n, 0 ≤ n → all_digits s = true →
  decimal_from n s < (n + 1) * 10 ^ Z.of_nat (String.length s).
Proof.
  induction s as [|c s IH]; intros n Hn Hs; simpl String.length; simpl in Hs.
  - simpl. lia.
  - apply andb_true_iff in Hs as [Hc Hs]. pose proof (digit_range c Hc).
    cbn [decimal_from]. eapply Z.lt_le_trans; [apply IH; [lia|done]|].
    rewrite Nat2Z.inj_succ, Z.pow_succ_r by lia.
    assert (0 < 10 ^ Z.of_nat (String.length s)) by (apply Z.pow_pos_nonneg; lia).
    nia.
Qed.

Lemma fast_loop_digits s : ∀ n,
  all_digits s = true → strconv.fast_loop s n = Some (decimal_from n s).
Proof.
  induction s as [|c s IH]; intros n Hs; simpl in *; [done|].
  apply andb_true_iff in Hs as [-> Hs]. by apply IH.
Qed.

Lemma ParseUint_loop_digits s : ∀ n,
  0 ≤ n ≤ strconv.maxUint64 → all_digits s = true →
  strconv.ParseUint_loop s n =
    if decimal_from n s <=? strconv.maxUint64 then (decimal_from n s, None)
    else (strconv.maxUint64, Some strconv.ErrRange).
Proof.
  induction s as [|c s IH]; intros n Hn Hs; cbn [strconv.ParseUint_loop decimal_from].
  - destruct (Z.leb_spec n strconv.maxUint64); [done | lia].
  - simpl in Hs. apply andb_true_iff in Hs as [Hc Hs]. rewrite Hc.
    pose proof (digit_range c Hc) as Hd.
    assert (Hmax : strconv.maxUint64 = 18446744073709551615) by done.
    assert (Hdiv : strconv.maxUint64 / 10 + 1 = 1844674407370955162) by done.
    rewrite Hdiv.
    pose proof (decimal_from_ge s (n * 10 + strconv.digit c) ltac:(lia) Hs) as Hge.
    destruct (Z.leb_spec 1844674407370955162 n).
    { destruct (Z.leb_spec (decimal_from (n * 10 + strconv.digit c) s) strconv.maxUint64);
        [lia | done]. }
    destruct (Z.ltb_spec strconv.maxUint64 (n * 10 + strconv.digit c)).
    { destruct (Z.leb_spec (decimal_from (n * 10 + strconv.digit c) s) strconv.maxUint64);
        [lia | done]. }
    apply IH; [lia | done].
Qed.

Lemma sign_digit c s :
  strconv.is_digit c = true → strconv.sign (String c s) = (false, String c s).
Proof.
  intros H. destruct c as [[|] [|] [|] [|] [|] [|] [|] [|]];
    vm_compute in H; try discriminate; reflexivity.
Qed.

Lemma atoi_digits n :
  numeral n → atoi n = Z.min (decimal n) maxInt.
Proof.
  intros [Hne Hn]. destruct n as [|c n]; [done|]. clear Hne.
  pose proof Hn as Hn'. simpl in Hn'. apply andb_true_iff in Hn' as [Hc _].
  unfold atoi, strconv.Atoi.
  pose proof (decimal_from_ge _ 0 ltac:(lia) Hn) as Hge. fold (decimal (String c n)) in Hge.
  assert (Hint : maxInt = 9223372036854775807) by done.
  destruct (Nat.ltb _ _ && Nat.ltb _ _)%bool eqn:Hlen.
  - rewrite (sign_digit c n Hc), (fast_loop_digits _ _ Hn). cbn [fst].
    apply andb_true_iff in Hlen as [_ Hlen]. apply Nat.ltb_lt in Hlen.
    pose proof (decimal_from_lt _ 0 ltac:(lia) Hn) as Hlt. fold (decimal (String c n)) in Hlt.
    assert (10 ^ Z.of_nat (String.length (String c n)) ≤ 10 ^ 18).
    { apply Z.pow_le_mono_r; lia. }
    assert (H18 : 10 ^ 18 = 1000000000000000000) by done.
    fold (decimal (String c n)). lia.
  - unfold strconv.ParseInt. rewrite (sign_digit c n Hc). unfold strconv.ParseUint.
    rewrite (ParseUint_loop_digits _ 0) by done. fold (decimal (String c n)).
    assert (Hmax : strconv.maxUint64 = 18446744073709551615) by done.
    assert (Hcut : 2 ^ 63 = 9223372036854775808) by done. rewrite Hcut.
    destruct (Z.leb_spec (decimal (String c n)) strconv.maxUint64).
    + cbn [negb andb]. destruct (Z.leb_spec 9223372036854775808 (decimal (String c n)));
        cbn [fst]; lia.
    + cbn [negb andb]. rewrite Hmax.
      change (9223372036854775808 <=? 18446744073709551615) with true. cbn [fst]. lia.
Qed.

Lemma digits_all s d rest : regexp.digits s = (d, rest) → all_digits d = true.
Proof.
  revert d rest. induction s as [|c s IH]; intros d rest H; simpl in H.
  - by injection H as <- <-.
  - destruct (strconv.is_digit c) eqn:Hc; [|by injection H as <- <-].
    destruct (regexp.digits s) as [d' rest'] eqn:Hd. injection H as <- <-.
    simpl. rewrite Hc. by apply (IH d' rest').
Qed.

Lemma groups_numerals lits : ∀ s caps,
  regexp.groups lits s = Some caps → Forall numeral caps.
Proof.
  induction lits as [|lit lits IH]; intros s caps H; simpl in H.
  - injection H as <-. constructor.
  - destruct (strings.TrimPrefix s lit) as [s1|]; [|discriminate].
    destruct (regexp.digits s1) as [d s2] eqn:Hd.
    destruct d as [|c d]; [discriminate|].
    destruct (regexp.groups lits s2) as [caps'|] eqn:Hg; [|discriminate].
    injection H as <-. constructor; [|by apply (IH s2)].
    split; [done|]. by apply (digits_all s1 _ s2).
Qed.

Lemma Find_numerals lits s : ∀ m1 caps,
  regexp.FindStringSubmatch lits s = Some (m1 :: caps) → Forall numeral caps.
Proof.
  assert (Hhere : ∀ s m1 caps,
    match regexp.groups lits s with
    | Some caps => Some (EmptyString :: caps)
    | None => None
    end = Some (m1 :: caps) → Forall numeral caps).
  { intros s0 m1 caps H. destruct (regexp.groups lits s0) as [caps'|] eqn:Hg; [|discriminate].
    injection H as _ <-. by apply (groups_numerals lits s0). }
  induction s as [|c s IH]; intros m1 caps H; cbn [regexp.FindStringSubmatch] in H.
  - by apply (Hhere "" m1).
  - destruct (Ascii.eqb c "010"); [by apply (Hhere (String c s) m1)|].
    destruct (regexp.FindStringSubmatch lits s) as [[|m1' caps']|] eqn:Hf;
      try by apply (Hhere (String c s) m1).
    injection H as _ <-. by apply (IH m1').
Qed.

Lemma atoi_counter n : numeral n → counter (atoi n).
Proof.
  intros Hn. rewrite (atoi_digits n Hn). destruct Hn as [_ Hn].
  pose proof (decimal_from_ge n 0 ltac:(lia) Hn) as Hge. fold (decimal n) in Hge.
  unfold counter. assert (maxInt = 9223372036854775807) by done. lia.
Qed.

Lemma counter_0 : counter 0.
Proof. unfold counter. assert (maxInt = 9223372036854775807) by done. lia. Qed.

Lemma classify_well_formed raw res :
  result_of raw = Some res → well_formed res.
Proof.
  unfold result_of, classify. intros H.
  destruct (String.eqb _ "=== ANALYTICS ==="); [discriminate|].
  destruct (strings.TrimPrefix _ _); [discriminate|].
  destruct (String.eqb _ ""); [discriminate|].
  destruct (regexp.FindStringSubmatch reStd _) as [m|] eqn:Hstd.
  - destruct m as [|m1 [|m2 [|m3 [|m4 [|m5 [|m6 [|]]]]]]].
    7:{ injection H as <-. apply Find_numerals in Hstd.
        repeat (apply Forall_cons in Hstd as [? Hstd]).
        unfold well_formed. simpl. repeat split; try apply atoi_counter; try apply counter_0;
          done. }
    all: destruct (regexp.FindStringSubmatch reDpi _) as [m'|] eqn:Hdpi; [|discriminate];
      destruct m' as [|n1 [|n2 [|n3 [|n4 [|n5 [|]]]]]]; try discriminate;
      injection H as <-; apply Find_numerals in Hdpi;
      repeat (apply Forall_cons in Hdpi as [? Hdpi]);
      unfold well_formed; simpl; repeat split; try apply atoi_counter; try apply counter_0;
      done.
  - destruct (regexp.FindStringSubmatch reDpi _) as [m'|] eqn:Hdpi; [|discriminate];
      destruct m' as [|n1 [|n2 [|n3 [|n4 [|n5 [|]]]]]]; try discriminate;
      injection H as <-; apply Find_numerals in Hdpi;
      repeat (apply Forall_cons in Hdpi as [? Hdpi]);
      unfold well_formed; simpl; repeat split; try apply atoi_counter; try apply counter_0;
      done.
Qed.

(** X5. On a text of digits [atoi] is the number the digits write, cut at the
    largest [int]: a counter too long for an [int] is stored as
    9223372036854775807, not as zero. *)
Theorem atoi_saturates n :
  numeral n → atoi n = Z.min (decimal n) maxInt.
Proof. apply atoi_digits. Qed.

Lemma atoi_saturates_witness :
  atoi "0042" = 42 ∧ atoi "99999999999999999999" = 9223372036854775807.
Proof.
  split.
  - rewrite (atoi_saturates "0042"); [reflexivity | by split].
  - rewrite (atoi_saturates "99999999999999999999"); [reflexivity | by split].
Defined.

(** X6. Every result that [parseAnalytics] returns is well formed: its
    counters are between zero and the largest [int], and its time of test
    is the zero time, which no line sets. *)
Theorem parseAnalytics_well_formed content p name res :
  parseAnalytics content = Ok p → Results p !! name = Some res → well_formed res.
Proof.
  intros Hp Hl. rewrite parseAnalytics_unfold in Hp.
  destruct (Nat.eqb _ 0); [discriminate|]. injection Hp as <-. simpl in Hl.
  apply fold_parse_step_lookup in Hl as [Hl | (raw & _ & Hres & _)].
  - simpl in Hl. by rewrite lookup_empty in Hl.
  - by apply (classify_well_formed raw).
Qed.

Lemma parseAnalytics_well_formed_witness :
  well_formed (dpiResult "a" "99999999999999999999" "0" "0" "0").
Proof.
  apply (parseAnalytics_well_formed
           "a : OK: 99999999999999999999, FAIL: 0, UNSUP: 0, BLOCKED: 0"
           {| Results := <["a" := dpiResult "a" "99999999999999999999" "0" "0" "0"]> ∅;
              Best := "" |} "a"); by vm_compute.
Defined.

(** ** The release manager, further *)

Lemma last_cons {A} (rest : list A) : ∀ q d, List.last (q :: rest) d = List.last rest q.
Proof.
  induction rest as [|r rest IH]; intros q d; [done|].
  change (List.last (q :: r :: rest) d) with (List.last (r :: rest) d).
  by rewrite (IH r d), (IH r q).
Qed.

Lemma Split_last s sep : ∀ p parts,
  strings.Split s sep = p :: parts →
  occurs sep (List.last parts p) = false ∧
  (s = List.last parts p ∨ ∃ pre, s = pre +:+ String sep (List.last parts p)).
Proof.
  induction s as [|c s IH]; intros p parts H; cbn [strings.Split] in H.
  - injection H as <- <-. split; [done|by left].
  - destruct (strings.Split s sep) as [|q rest] eqn:Hs; [by apply Split_not_nil in Hs|].
    destruct (IH q rest eq_refl) as [Hno Hlast].
    destruct (Ascii.eqb c sep) eqn:Hc.
    + injection H as <- <-. apply Ascii.eqb_eq in Hc as ->.
      rewrite last_cons. split; [done|]. right. destruct Hlast as [-> | [pre ->]].
      * by exists "".
      * exists (String sep pre). by rewrite app_cons.
    + injection H as <- <-. destruct rest as [|r rest].
      * simpl in *. rewrite Hc. split; [done|]. left.
        destruct Hlast as [-> | [pre Hpre]]; [done|]. exfalso.
        rewrite Hpre in Hs. 
        assert (Hlen : ∀ a b, (2 ≤ length (strings.Split (a +:+ String sep b) sep))%nat).
        { clear. induction a as [|d a IH]; intros b.
          - rewrite app_nil. cbn [strings.Split]. rewrite Ascii.eqb_refl.
            pose proof (Split_not_nil b sep). destruct (strings.Split b sep); [done|simpl; lia].
          - rewrite app_cons. cbn [strings.Split]. specialize (IH b).
            destruct (Ascii.eqb d sep); [simpl; lia|].
            destruct (strings.Split _ sep); simpl in *; lia. }
        specialize (Hlen pre q). rewrite Hs in Hlen. simpl in Hlen. lia.
      * rewrite !last_cons in *. 
        split; [done|]. right. destruct Hlast as [Hl | [pre ->]].
        -- exfalso. rewrite Hl in Hs. by rewrite (Split_one _ _ Hno) in Hs.
        -- exists (String c pre). by rewrite app_cons.
Qed.

(** X7. [latestTag] sends one request and fails only when that request
    fails; otherwise the tag is the last slash-separated element of the
    Location header, trailing slashes aside, and holds no slash. A response
    without a Location header gives the tag "latest". *)
Theorem latestTag_result s :
  snd (Service.latestTag s) = log (EvGet repoLatestURL) s ∧
  match http_Do (env s) repoLatestURL with
  | DoFails => fst (Service.latestTag s) = Err NetError
  | Resp _ _ location _ =>
      ∃ tag, fst (Service.latestTag s) = Ok tag ∧
        last_element
          (strings.TrimRight (if String.eqb location "" then repoLatestURL else location) "/")
          tag ∧
        (location = "" → tag = "latest")
  end.
Proof.
  unfold Service.latestTag, bind, http_get. cbn [fst snd].
  destruct (http_Do (env s) repoLatestURL) as [|code status location body]; [done|].
  destruct (strings.Split _ "/") as [|p parts] eqn:Hs; [by apply Split_not_nil in Hs|].
  split; [done|]. exists (List.last parts p). split; [done|]. split.
  - by apply Split_last.
  - intros ->. by vm_compute in Hs; injection Hs as <- <-.
Qed.

Lemma snapshot_current s c st s' :
  config s = Some c → Service.snapshot s = (Ok st, s') →
  State.CurrentPath st
  = (if String.eqb (Config.Version c) "" then None else Some [Config.Version c]) ∧
  State.LastTestLog st = "" ∧
  ∃ s0, State.Strategies st
        = map (Service.decorate c)
            (match fst (Service.listStrategies s0) with Ok l => l | Err _ => [] end).
Proof.
  intros Hc H. unfold Service.snapshot in H.
  apply bind_inv_ok in H as (r1 & s1 & H1 & H). apply try_inv in H1 as [-> ->].
  destruct (frame_eq_inv _ s c (frame_latestTag eq) Hc) as (Hc1 & _).
  apply bind_inv_ok in H as (v & s2 & H2 & H).
  rewrite (cfg_read_some _ _ _ Hc1) in H2. injection H2 as <- <-.
  apply bind_inv_ok in H as (r3 & s3 & H3 & H). apply try_inv in H3 as [-> ->].
  destruct (frame_eq_inv _ _ c (frame_listStrategies eq) Hc1) as (Hc3 & _).
  apply bind_inv_ok in H as (c4 & s4 & H4 & H).
  rewrite (cfg_read_some _ _ _ Hc3) in H4. injection H4 as <- <-.
  apply bind_inv_ok in H as (cur & s5 & H5 & H).
  rewrite (currentReleasePath_some _ _ Hc3) in H5. injection H5 as <- <-.
  injection H as <- <-. simpl. split; [done|]. split; [done|]. by eexists.
Qed.

Lemma State_current s st s' :
  Service.State s = (Ok st, s') →
  State.CurrentPath st
  = (if String.eqb (Config.Version (State.Config st)) "" then None
     else Some [Config.Version (State.Config st)]) ∧
  State.LastTestLog st = "" ∧
  ∃ s0, State.Strategies st
        = map (Service.decorate (State.Config st))
            (match fst (Service.listStrategies s0) with Ok l => l | Err _ => [] end).
Proof.
  intros H. apply State_inv in H as (c & s1 & Hload & H).
  apply loadConfig_ok in Hload as (Hc & He1 & _).
  destruct (State_loaded s1 c Hc) as (s2 & st' & s'' & Hr & Hs & HS).
  rewrite H in HS. injection HS as <- <-.
  pose proof (frame_refresh any_change
                (if String.eqb (Config.Version c) "" then None else Some [Config.Version c])
                (λ _ _ _, I) (λ _ _ _, I) (λ _ _, I) (λ _ _, I) s1 c Hc) as Hfr.
  rewrite Hr in Hfr. destruct Hfr as (He2 & _ & _ & _ & _ & c2 & Hc2 & _).
  simpl in *.
  destruct (snapshot_value _ _ _ _ Hc2 Hs) as (HC & _).
  destruct (snapshot_current _ _ _ _ Hc2 Hs) as (Hcur & Hlog & Hl).
  by subst c2.
Qed.

Lemma State_keeps_version s c st s' :
  config s = Some c → Service.State s = (Ok st, s') →
  Config.Version (State.Config st) = Config.Version c.
Proof.
  intros Hc HS.
  pose proof (frame_State same_version (λ _ _ _, eq_refl) (λ _ _ _, eq_refl)
                (λ _ _, eq_refl) (λ _ _, eq_refl) s c Hc)
    as (_ & _ & _ & _ & _ & c' & Hc' & Hver).
  rewrite HS in Hc', Hver. simpl in *. unfold same_version in Hver. simpl in Hver.
  apply State_value in HS as (Hc'' & _). congruence.
Qed.

(** X8. When [CheckAndUpdate] returns a snapshot, the version of the config
    is the tag that [latestTag] gave, that tag is not empty, and the current
    release path is the directory of that tag. *)
Theorem CheckAndUpdate_installs_latest s st s' :
  Service.CheckAndUpdate s = (Ok st, s') →
  ∃ tag, fst (Service.latestTag s) = Ok tag ∧ tag ≠ "" ∧
    Config.Version (State.Config st) = tag ∧
    State.CurrentPath st = Some [tag] ∧
    config s' = Some (State.Config st).
Proof.
  intros H. unfold Service.CheckAndUpdate in H.
  apply bind_inv_ok in H as (cfg & s1 & Hload & H).
  apply bind_inv_ok in H as (latest & s2 & Htag & H).
  apply loadConfig_ok in Hload as (Hc1 & He1 & _).
  pose proof (frame_latestTag eq s1 cfg Hc1) as (_ & _ & _ & _ & _ & c2 & Hc2 & Heq).
  rewrite Htag in Hc2, Heq. simpl in *. injection Heq as <- _.
  exists latest.
  assert (Hfst : fst (Service.latestTag s) = Ok latest).
  { rewrite (latestTag_env s s1) by done. by rewrite Htag. }
  assert (Hgoal : ∀ s5 c5, config s5 = Some c5 → Config.Version c5 = latest → latest ≠ "" →
            Service.State s5 = (Ok st, s') →
            Config.Version (State.Config st) = latest ∧
            State.CurrentPath st = Some [latest] ∧ config s' = Some (State.Config st)).
  { intros s5 c5 Hc5 Hv Hne HS.
    pose proof (State_keeps_version _ _ _ _ Hc5 HS) as Hk.
    destruct (State_current _ _ _ HS) as (Hcur & _).
    destruct (State_value _ _ _ HS) as (Hc' & _).
    rewrite Hk, Hv in Hcur. apply String.eqb_neq in Hne. rewrite Hne in Hcur.
    split; [congruence|]. done. }
  destruct (String.eqb (Config.Version cfg) latest && negb (String.eqb latest "")) eqn:Hcond.
  - apply andb_true_iff in Hcond as [Hv Hne].
    apply String.eqb_eq in Hv. apply negb_true_iff, String.eqb_neq in Hne.
    split; [done|]. split; [done|]. by apply (Hgoal s2 cfg).
  - apply bind_inv_ok in H as ([] & s3 & Hdl & H).
    assert (Hne : latest ≠ "").
    { intros ->. unfold Service.downloadAndUnpack in Hdl. simpl in Hdl. discriminate. }
    pose proof (same_config_downloadAndUnpack latest s2) as (Hc3 & _).
    rewrite Hdl in Hc3. simpl in Hc3. rewrite Hc2 in Hc3.
    apply bind_inv_ok in H as ([] & s4 & Hw & H).
    rewrite (cfg_write_some _ _ _ Hc3) in Hw. injection Hw as <-.
    apply bind_inv_ok in H as ([] & s5 & Hsave & H).
    rewrite (saveConfig_some _ (Config.set_Version latest cfg)) in Hsave by done.
    injection Hsave as _ <-.
    split; [done|]. split; [done|].
    eapply (Hgoal _ (Config.set_Version latest cfg)); [|done|done|exact H].
    by destruct (saved_fields (Config.set_Version latest cfg)
                   (set_config (Some (Config.set_Version latest cfg)) s3)) as (-> & _).
Qed.

Lemma CheckAndUpdate_installs_latest_witness :
  let s := Fixture.boot Fixture.host "1.9.0" in
  ∃ st s', Service.CheckAndUpdate s = (Ok st, s') ∧
    Config.Version (State.Config st) = "1.9.0" ∧ State.CurrentPath st = Some ["1.9.0"].
Proof.
  intros s.
  destruct (CheckAndUpdate_noop s (Fixture.cfg "1.9.0")
              (set_config (Some (Fixture.cfg "1.9.0")) s) "1.9.0"
              (log (EvGet repoLatestURL) (set_config (Some (Fixture.cfg "1.9.0")) s))
              ltac:(reflexivity) ltac:(reflexivity) eq_refl ltac:(discriminate))
    as (st & s' & Hrun & _).
  exists st, s'. split; [exact Hrun|].
  destruct (CheckAndUpdate_installs_latest _ _ _ Hrun) as (tag & Htag & _ & Hv & Hcur & _).
  assert (Hfst : fst (Service.latestTag s) = Ok "1.9.0") by reflexivity.
  rewrite Hfst in Htag. injection Htag as <-. by split.
Defined.


(** X10. When the release was downloaded and unpacked but config.json cannot
    be written, [CheckAndUpdate] returns the error of the write; the config
    in memory has the new version already, config.json keeps the old
    one. *)
Theorem CheckAndUpdate_unsaved s cfg s1 latest s2 s3 :
  Service.loadConfig s = (Ok cfg, s1) →
  Service.latestTag s1 = (Ok latest, s2) →
  String.eqb (Config.Version cfg) latest && negb (String.eqb latest "") = false →
  Service.downloadAndUnpack latest s2 = (Ok tt, s3) →
  config_writable (env s) = false →
  ∃ s', Service.CheckAndUpdate s = (Err (PathError "open"), s') ∧
    config s' = Some (Config.set_Version latest cfg) ∧
    configFile s' = configFile s ∧ fs s' = fs s3.
Proof.
  intros Hload Htag Hcond Hdl Hro. unfold Service.CheckAndUpdate.
  rewrite (bind_ok _ _ _ _ _ Hload), (bind_ok _ _ _ _ _ Htag), Hcond.
  rewrite (bind_ok _ _ _ _ _ Hdl).
  apply loadConfig_ok in Hload as (Hc1 & He1 & Hf1 & _).
  destruct (frame_eq_inv _ s1 cfg (frame_latestTag eq) Hc1) as (Hc2 & Hf2 & He2 & _).
  rewrite Htag in Hc2, Hf2, He2. simpl in *.
  destruct (same_config_downloadAndUnpack latest s2) as (Hc3 & Hf3 & He3).
  rewrite Hdl in Hc3, Hf3, He3. simpl in *. rewrite Hc2 in Hc3.
  rewrite (bind_ok _ _ _ _ _ (cfg_write_some _ _ _ Hc3)).
  set (c := Config.set_Version latest cfg). set (s4 := set_config (Some c) s3).
  assert (Hro4 : config_writable (env s4) = false) by (simpl; congruence).
  pose proof (saveConfig_some s4 c eq_refl) as Hsave. rewrite Hro4 in Hsave.
  rewrite (bind_err _ _ _ _ _ Hsave). eexists. split; [done|].
  destruct (saved_fields c s4) as (Hc & _ & Hfs & _ & _ & Hfile & _).
  rewrite Hc, Hfs, (Hfile Hro4). simpl. repeat split; congruence.
Qed.

Lemma CheckAndUpdate_unsaved_witness :
  let s := Fixture.boot (read_only Fixture.host) "1.8.0" in
  ∃ s', Service.CheckAndUpdate s = (Err (PathError "open"), s') ∧
    config s' = Some (Config.set_Version "1.9.0" (Fixture.cfg "1.8.0")) ∧
    configFile s' = Some (Fixture.cfg "1.8.0").
Proof.
  intros s.
  destruct (CheckAndUpdate_unsaved s (Fixture.cfg "1.8.0")
              (set_config (Some (Fixture.cfg "1.8.0")) s) "1.9.0"
              (log (EvGet repoLatestURL) (set_config (Some (Fixture.cfg "1.8.0")) s))
              (snd (Service.downloadAndUnpack "1.9.0"
                      (log (EvGet repoLatestURL) (set_config (Some (Fixture.cfg "1.8.0")) s))))
              ltac:(reflexivity) ltac:(reflexivity) ltac:(reflexivity)
              ltac:(reflexivity) ltac:(reflexivity))
    as (s' & Hrun & Hc & Hf & _).
  exists s'. split; [exact Hrun|]. split; [exact Hc|exact Hf].
Defined.

Lemma mkdirs_keeps_node todo : ∀ fs done r fs' q n,
  mkdirs fs done todo = (r, fs') → fs !! q = Some n → fs' !! q = Some n.
Proof.
  induction todo as [|d todo IH]; intros fs done r fs' q n; simpl.
  - by intros [= _ <-].
  - destruct (fs !! (done ++ [d])%list) as [[|data t]|] eqn:Hp.
    + apply IH.
    + by intros [= _ <-].
    + intros Hrun Hq. eapply IH; [exact Hrun|].
      rewrite lookup_insert_ne; [done|]. intros <-. congruence.
Qed.

Lemma OpenFile_other t fs p r fs' q :
  OpenFile t fs p = (r, fs') → q ≠ p → fs' !! q = fs !! q.
Proof.
  unfold OpenFile. destruct (Stat fs (Dir p)) as [[|]|]; destruct p as [|a p];
    try (by intros [= _ <-]).
  destruct (fs !! (a :: p)) as [[|data t']|] eqn:Hp; intros [= _ <-] Hq; [done|..];
    by rewrite lookup_insert_ne.
Qed.






Lemma downloadAndUnpack_reaches_unzip tag s :
  fs (snd (Service.downloadAndUnpack tag s)) = fs s ∨
  (tag ≠ "" ∧ mkdir_dirs (env s) = Ok tt).
Proof.
  unfold Service.downloadAndUnpack.
  destruct (String.eqb_spec tag "") as [->|Hne]; [by left|].
  unfold bind, Service.ensureDirs, read, gets, fail, ret, http_get, modify, on_fs.
  destruct (mkdir_dirs (env s)) as [[]|e]; [by right | by left].
Qed.

(** X12. An unpack that fails after it has made the directory of the tag is
    never repaired: the next call finds the directory, returns success and
    downloads nothing. *)
Theorem failed_unpack_is_kept tag s e s1 :
  Service.downloadAndUnpack tag s = (Err e, s1) →
  Stat (fs s) [tag] ≠ Ok DirNode → Stat (fs s1) [tag] = Ok DirNode →
  Service.downloadAndUnpack tag s1 = (Ok tt, s1).
Proof.
  intros Hrun Hbefore Hafter.
  destruct (downloadAndUnpack_reaches_unzip tag s) as [Hfs | [Hne Hdirs]].
  - rewrite Hrun in Hfs. simpl in Hfs. congruence.
  - apply downloadAndUnpack_present; [done| |done].
    destruct (same_config_downloadAndUnpack tag s) as (_ & _ & He).
    rewrite Hrun in He. simpl in He. congruence.
Qed.

Lemma failed_unpack_is_kept_witness :
  let s := Fixture.boot
             (Fixture.host_with (Ok tt)
                (Resp 200 "200 OK" ""
                   (Bytes (Some [ {| zName := ["bin"]; zIsDir := true; zBody := Data "" |};
                                  {| zName := ["bin"; "winws.exe"]; zIsDir := false;
                                     zBody := OpenFails |} ])))
                (Ok "5000")) "1.8.0" in
  let s1 := snd (Service.downloadAndUnpack "1.9.0" s) in
  fst (Service.downloadAndUnpack "1.9.0" s) = Err ZipError ∧
  Service.downloadAndUnpack "1.9.0" s1 = (Ok tt, s1).
Proof.
  intros s s1. split; [reflexivity|].
  apply (failed_unpack_is_kept "1.9.0" s ZipError s1);
    [reflexivity | discriminate | reflexivity].
Defined.

(** ** Bundled releases and copies *)

Lemma String_leb_trans a : ∀ b c,
  String.leb a b = true → String.leb b c = true → String.leb a c = true.
Proof.
  unfold String.leb.
  induction a as [|x a IH]; intros [|y b] [|z c]; simpl; try done.
  unfold Ascii.compare.
  destruct (N.compare_spec (N_of_ascii x) (N_of_ascii y)) as [Hxy|Hxy|Hxy];
    destruct (N.compare_spec (N_of_ascii y) (N_of_ascii z)) as [Hyz|Hyz|Hyz];
    try done;
    destruct (N.compare_spec (N_of_ascii x) (N_of_ascii z)) as [Hxz|Hxz|Hxz];
    try done; try lia.
  apply IH.
Qed.

Lemma String_leb_refl a : String.leb a a = true.
Proof. by destruct (String.leb_total a a). Qed.

Lemma Sorted_last_max (l : list string) : ∀ v,
  Sorted (λ a b, String.leb a b = true) (v :: l) →
  ∀ w, w ∈ v :: l → String.leb w (List.last l v) = true.
Proof.
  induction l as [|x l IH]; intros v Hs w Hin.
  - apply list_elem_of_singleton in Hin as ->. apply String_leb_refl.
  - rewrite last_cons.
    apply Sorted_inv in Hs as [Hs Hhd]. apply HdRel_inv in Hhd.
    apply elem_of_cons in Hin as [->|Hin].
    + eapply String_leb_trans; [exact Hhd|]. apply (IH x Hs). by left.
    + by apply (IH x Hs).
Qed.

Lemma strip_prefix_app p : ∀ q r, strip_prefix p q = Some r ↔ q = (p ++ r)%list.
Proof.
  induction p as [|a p IH]; intros q r; simpl.
  - split; [by intros [= ->] | by intros ->].
  - destruct q as [|b q]; [done|].
    destruct (String.eqb_spec a b) as [<-|Hne].
    + rewrite IH. split; [by intros -> | by intros [= ->]].
    + split; [done | intros [= ? _]; congruence].
Qed.

Lemma ReadDir_elem fs p entries name n :
  ReadDir fs p = Ok entries →
  (name, n) ∈ entries ↔ fs !! (p ++ [name])%list = Some n.
Proof.
  unfold ReadDir. destruct (Stat fs p) as [[|]|]; try done. intros [= <-].
  rewrite (sort_Slice_perm _ _), list_elem_of_omap. split.
  - intros ([q m] & Hin & Hc). apply elem_of_map_to_list in Hin.
    unfold child_of in Hc. simpl in Hc.
    destruct (strip_prefix p q) as [[|x [|]]|] eqn:Hs; try done.
    injection Hc as -> ->. apply strip_prefix_app in Hs as ->. done.
  - intros Hl. exists ((p ++ [name])%list, n). split; [by apply elem_of_map_to_list|].
    unfold child_of. simpl.
    by rewrite (proj2 (strip_prefix_app p (p ++ [name]) [name]) eq_refl).
Qed.

Lemma each_keeps {A : Type} (P : FS → Prop) (f : FS → A → Result unit * FS) l : ∀ fs r fs',
  (∀ fs x r fs', f fs x = (r, fs') → P fs → P fs') →
  each f l fs = (r, fs') → P fs → P fs'.
Proof.
  induction l as [|x l IH]; intros fs r fs' Hstep; simpl.
  - by intros [= _ <-].
  - destruct (f fs x) as [[[]|e] fs1] eqn:Hx.
    + intros Hrun HP. eapply IH; [done|exact Hrun|]. by eapply Hstep.
    + intros [= _ <-] HP. by eapply Hstep.
Qed.

Lemma each_elem {A : Type} (P : FS → Prop) (f : FS → A → Result unit * FS) l x : ∀ fs fs',
  (∀ fs y r fs', f fs y = (r, fs') → P fs → P fs') →
  (∀ fs1 fs2, f fs1 x = (Ok tt, fs2) → P fs2) →
  each f l fs = (Ok tt, fs') → x ∈ l → P fs'.
Proof.
  induction l as [|y l IH]; intros fs fs' Hstep Hx Hrun Hin; [by apply elem_of_nil in Hin|].
  simpl in Hrun. destruct (f fs y) as [[[]|e] fs1] eqn:Hy; [|discriminate].
  apply elem_of_cons in Hin as [<-|Hin].
  - eapply each_keeps; [exact Hstep|exact Hrun|]. by eapply Hx.
  - by eapply IH.
Qed.

Lemma copyFile_keeps t data fs dst r fs' q :
  copyFile t data fs dst = (r, fs') → fs !! q = Some DirNode → fs' !! q = Some DirNode.
Proof.
  unfold copyFile, MkdirAll.
  destruct (mkdirs fs [] (Dir dst)) as [[[]|e] fs1] eqn:Hmk;
    [|intros [= _ <-]; by eapply mkdirs_keeps].
  intros Hrun Hq. pose proof (mkdirs_keeps _ _ _ _ _ _ Hmk Hq) as Hq1.
  destruct (OpenFile t fs1 dst) as [[[]|e] fs2] eqn:Hopen;
    injection Hrun as _ <-; [|by eapply OpenFile_keeps].
  rewrite lookup_insert_ne; [by eapply OpenFile_keeps|].
  intros <-. pose proof (OpenFile_created _ _ _ _ Hopen).
  pose proof (OpenFile_keeps _ _ _ _ _ _ Hopen Hq1). congruence.
Qed.

Lemma walk_elem tree src rel n :
  (rel, n) ∈ walk tree src ↔ tree !! (src ++ rel)%list = Some n.
Proof.
  unfold walk. rewrite (sort_Slice_perm _ _), list_elem_of_omap. split.
  - intros ([q m] & Hin & Hc). apply elem_of_map_to_list in Hin. simpl in Hc.
    destruct (strip_prefix src q) as [r|] eqn:Hs; [|done].
    injection Hc as -> ->. by apply strip_prefix_app in Hs as ->.
  - intros Hl. exists ((src ++ rel)%list, n). split; [by apply elem_of_map_to_list|].
    simpl. by rewrite (proj2 (strip_prefix_app src (src ++ rel) rel) eq_refl).
Qed.

Lemma copyDir_makes_root t tree src d fs fs' :
  tree !! src = Some DirNode →
  copyDir t tree src [d] fs = (Ok tt, fs') → fs' !! [d] = Some DirNode.
Proof.
  intros Hsrc. unfold copyDir. intros Hrun.
  eapply (each_elem (λ fs, fs !! [d] = Some DirNode) _ _ ([], DirNode)); [| |exact Hrun|].
  - intros fs0 [rel [|data mt]] r fs1; simpl; [apply mkdirs_keeps | apply copyFile_keeps].
  - intros fs1 fs2. simpl. apply mkdirs_first.
  - apply walk_elem. by rewrite app_nil_r.
Qed.

Lemma last_elem {A : Type} (l : list A) : ∀ v, List.last l v ∈ v :: l.
Proof.
  induction l as [|x l IH]; intros v; [by left|].
  rewrite last_cons. right. apply IH.
Qed.

(** X13. [seedLocalRelease] returns the directory of the bundled releases
    whose name is the greatest in byte order; afterwards the release tree
    has a node of that name, and nothing is copied when it had one
    before. *)
Theorem seedLocalRelease_greatest s v s' :
  Service.seedLocalRelease s = (Ok v, s') →
  ∃ tree, bundled (env s) = Some tree ∧
    tree !! [v] = Some DirNode ∧
    (∀ w, tree !! [w] = Some DirNode → String.leb w v = true) ∧
    is_ok (Stat (fs s') [v]) = true ∧
    (is_ok (Stat (fs s) [v]) = true → s' = s).
Proof.
  unfold Service.seedLocalRelease. intros H.
  apply bind_inv_ok in H as (tree & s1 & H1 & H). injection H1 as <- <-.
  destruct (bundled (env s)) as [tree|]; [|discriminate]. exists tree. split; [done|].
  apply bind_inv_ok in H as (entries & s1 & H1 & H).
  unfold lift in H1.
  assert (Hdir : ReadDir tree [] = Ok entries) by congruence.
  assert (s1 = s) as -> by congruence. clear H1.
  set (versions := map fst (filter (λ e : string * Node, IsDir (snd e)) entries)) in *.
  assert (Hver : ∀ w, w ∈ versions ↔ tree !! [w] = Some DirNode).
  { intros w. unfold versions. rewrite list_elem_of_fmap. split.
    - intros ([w' n] & -> & Hin). apply list_elem_of_filter in Hin as [Hd Hin].
      destruct n; [|done]. by apply (ReadDir_elem tree [] entries w' DirNode Hdir).
    - intros Hl. exists (w, DirNode). split; [done|]. apply list_elem_of_filter.
      split; [done|]. by apply (ReadDir_elem tree [] entries w DirNode Hdir). }
  pose proof (sort_Slice_perm String.ltb versions) as Hperm.
  pose proof (sort_Slice_sorted String.ltb (λ a b, String.leb a b = true)
                ltb_false_leb ltb_true_leb versions) as Hsorted.
  fold (sort_Strings versions) in Hperm, Hsorted.
  destruct (sort_Strings versions) as [|v0 vs]; [discriminate|].
  assert (Hlatest : List.last vs v0 ∈ v0 :: vs) by apply last_elem.
  pose proof (Sorted_last_max vs v0 Hsorted) as Hmax.
  apply bind_inv_ok in H as (st & s2 & H2 & H). injection H2 as <- <-.
  assert (Hv : v = List.last vs v0 ∧
               is_ok (Stat (fs s') [v]) = true ∧
               (is_ok (Stat (fs s) [v]) = true → s' = s)).
  { assert (Hstat : ∀ fs0 : FS, Stat fs0 [List.last vs v0]
                      = match fs0 !! [List.last vs v0] with
                        | Some n => Ok n
                        | None => Err (PathError "stat")
                        end) by done.
    rewrite <- Hstat in H.
    destruct (Stat (fs s) [List.last vs v0]) as [n|e] eqn:Hst.
    - injection H as <- <-. by rewrite Hst.
    - apply bind_inv_ok in H as (t & s3 & H3 & H). injection H3 as <- <-.
      apply bind_inv_ok in H as ([] & s4 & H4 & H). injection H as <- <-.
      split; [done|]. rewrite Hst. split; [|done].
      unfold on_fs in H4. injection H4 as Hok <-. simpl.
      destruct (copyDir _ _ _ _ _) as [r fs'] eqn:Hcopy. simpl in Hok. subst r. simpl.
      erewrite copyDir_makes_root; [done| |exact Hcopy].
      apply Hver. by rewrite <- Hperm. }
  destruct Hv as (-> & Hok & Hsame). split.
  { apply Hver. by rewrite <- Hperm. }
  split; [|done]. intros w Hw. apply Hmax. rewrite Hperm. by apply Hver.
Qed.

Lemma seedLocalRelease_greatest_witness :
  let s := Fixture.boot (with_bundled two_releases Fixture.host) "" in
  ∃ s', Service.seedLocalRelease s = (Ok "1.9.0", s') ∧
    is_ok (Stat (fs s') ["1.9.0"]) = true ∧ String.leb "1.10.0" "1.9.0" = true.
Proof.
  intros s. exists (snd (Service.seedLocalRelease s)).
  assert (Hrun : Service.seedLocalRelease s = (Ok "1.9.0", snd (Service.seedLocalRelease s)))
    by reflexivity.
  split; [exact Hrun|].
  destruct (seedLocalRelease_greatest _ _ _ Hrun) as (tree & Htree & _ & Hmax & Hok & _).
  split; [exact Hok|]. apply Hmax.
  assert (Some tree = Some two_releases) as [= ->] by (rewrite <- Htree; reflexivity).
  reflexivity.
Defined.

Lemma mkdirs_last todo : ∀ fs base fs',
  mkdirs fs base todo = (Ok tt, fs') → todo ≠ [] →
  fs' !! (base ++ todo)%list = Some DirNode.
Proof.
  induction todo as [|d todo IH]; intros fs base fs' Hrun Hne; [done|].
  simpl in Hrun. rewrite (cons_middle d base todo), app_assoc.
  destruct (fs !! (base ++ [d])%list) as [[|data t]|] eqn:Hp; [|discriminate|].
  - destruct todo as [|d' todo]; [|by apply (IH fs)].
    simpl in Hrun. injection Hrun as <-. by rewrite app_nil_r.
  - destruct todo as [|d' todo]; [|by apply (IH (<[(base ++ [d])%list:=DirNode]> fs))].
    simpl in Hrun. injection Hrun as <-. rewrite app_nil_r. apply lookup_insert_eq.
Qed.

Lemma MkdirAll_stat fs p fs' : MkdirAll fs p = (Ok tt, fs') → Stat fs' p = Ok DirNode.
Proof.
  unfold MkdirAll. intros Hrun. destruct p as [|d p]; [done|].
  apply mkdirs_last in Hrun; [|done]. simpl in Hrun. unfold Stat. by rewrite Hrun.
Qed.

Lemma Stat_dir fs p : Stat fs p = Ok DirNode ↔ p = [] ∨ fs !! p = Some DirNode.
Proof.
  unfold Stat. destruct p as [|d p]; [by split; [left|]|]. split.
  - intros H. right. destruct (fs !! (d :: p)); congruence.
  - intros [?|H]; [done | by rewrite H].
Qed.

Lemma copyFile_other t data fs dst r fs' q n :
  copyFile t data fs dst = (r, fs') → fs !! q = Some n → q ≠ dst → fs' !! q = Some n.
Proof.
  unfold copyFile, MkdirAll.
  destruct (mkdirs fs [] (Dir dst)) as [[[]|e] fs1] eqn:Hmk;
    [|intros [= _ <-]; intros; by eapply mkdirs_keeps_node].
  intros Hrun Hq Hne. pose proof (mkdirs_keeps_node _ _ _ _ _ _ _ Hmk Hq) as Hq1.
  destruct (OpenFile t fs1 dst) as [[[]|e] fs2] eqn:Hopen;
    injection Hrun as _ <-; rewrite ?lookup_insert_ne by done;
    by rewrite (OpenFile_other _ _ _ _ _ _ Hopen Hne).
Qed.

Lemma copyFile_writes t data fs dst fs' :
  copyFile t data fs dst = (Ok tt, fs') → fs' !! dst = Some (FileNode data t).
Proof.
  unfold copyFile. destruct (MkdirAll fs (Dir dst)) as [[[]|e] fs1]; [|discriminate].
  destruct (OpenFile t fs1 dst) as [[[]|e] fs2]; [|discriminate].
  intros [= <-]. apply lookup_insert_eq.
Qed.

Lemma NoDup_walk tree src : NoDup (map fst (walk tree src)).
Proof.
  unfold walk. rewrite (sort_Slice_perm _ _).
  pose proof (NoDup_fst_map_to_list tree) as Hnd.
  induction (map_to_list tree) as [|[q n] l IH]; simpl; [constructor|].
  apply NoDup_cons in Hnd as [Hq Hnd]. simpl in *.
  destruct (strip_prefix src q) as [rel|] eqn:Hs; [|by apply IH].
  simpl. apply NoDup_cons. split; [|by apply IH].
  intros Hin. apply Hq. apply list_elem_of_fmap in Hin as ([rel' n'] & -> & Hin).
  apply list_elem_of_omap in Hin as ([q' m] & Hin' & Hc). simpl in Hc.
  destruct (strip_prefix src q') as [r|] eqn:Hs'; [|done]. injection Hc as -> ->.
  apply strip_prefix_app in Hs as ->. apply strip_prefix_app in Hs' as ->.
  apply list_elem_of_fmap. by exists ((src ++ rel')%list, n').
Qed.

Lemma copy_step_other t dst fs (e : path * Node) r fs' q n :
  match snd e with
  | DirNode => MkdirAll fs (dst ++ fst e)
  | FileNode data _ => copyFile t data fs (dst ++ fst e)
  end = (r, fs') →
  fs !! q = Some n → (IsDir (snd e) = false → q ≠ (dst ++ fst e)%list) →
  fs' !! q = Some n.
Proof.
  destruct e as [rel [|data mt]]; simpl; intros Hrun Hq Hne.
  - by eapply mkdirs_keeps_node.
  - eapply copyFile_other; [exact Hrun|done|by apply Hne].
Qed.

(** X14. What a successful [copyDir] of an existing source leaves below the
    destination: every file below the source with its data, every directory
    below the source as a directory; and every node that is not the copy of
    a file is still there as it was. *)
Theorem copyDir_copies t tree src dst fs fs' :
  is_Some (tree !! src) →
  copyDir t tree src dst fs = (Ok tt, fs') →
  (∀ rel data mt, tree !! (src ++ rel)%list = Some (FileNode data mt) →
     ReadFile fs' (dst ++ rel) = Ok data) ∧
  (∀ rel, tree !! (src ++ rel)%list = Some DirNode → Stat fs' (dst ++ rel) = Ok DirNode) ∧
  (∀ q n, fs !! q = Some n →
     (∀ rel data mt, tree !! (src ++ rel)%list = Some (FileNode data mt) →
        q ≠ (dst ++ rel)%list) →
     fs' !! q = Some n).
Proof.
  unfold copyDir. intros _ Hrun.
  set (step := λ (fs : FS) (e : path * Node),
         match snd e with
         | DirNode => MkdirAll fs (dst ++ fst e)
         | FileNode data _ => copyFile t data fs (dst ++ fst e)
         end) in *.
  assert (Hkeep : ∀ l fs0 r fs1 q n,
            each step l fs0 = (r, fs1) → fs0 !! q = Some n →
            (∀ e, e ∈ l → IsDir (snd e) = false → q ≠ (dst ++ fst e)%list) →
            fs1 !! q = Some n).
  { induction l as [|e l IH]; intros fs0 r fs1 q n; simpl.
    - by intros [= _ <-].
    - intros Hr Hq Hne.
      assert (He : IsDir (snd e) = false → q ≠ (dst ++ fst e)%list) by (apply Hne; by left).
      destruct (step fs0 e) as [[[]|err] fs2] eqn:Hs.
      + eapply IH; [exact Hr| |intros g Hin; apply Hne; by right].
        by eapply copy_step_other.
      + injection Hr as _ <-. by eapply copy_step_other. }
  split; [|split].
  - intros rel data mt Hl. apply walk_elem in Hl.
    pose proof (NoDup_walk tree src) as Hnd.
    revert fs Hrun Hl Hnd. induction (walk tree src) as [|e l IH]; intros fs Hrun Hl Hnd.
    { by apply elem_of_nil in Hl. }
    simpl in Hrun, Hnd. apply NoDup_cons in Hnd as [He Hnd].
    destruct (step fs e) as [[[]|err] fs1] eqn:Hs; [|discriminate].
    apply elem_of_cons in Hl as [<-|Hl]; [|by apply (IH fs1)].
    unfold step in Hs. simpl in Hs. apply copyFile_writes in Hs.
    unfold ReadFile. rewrite (Hkeep _ _ _ _ _ _ Hrun Hs); [done|].
    intros [rel' n'] Hin _ Heq. simpl in Heq. apply app_inv_head in Heq as <-.
    apply He. apply list_elem_of_fmap. by exists (rel, n').
  - intros rel Hl. apply walk_elem in Hl.
    eapply (each_elem (λ fs, Stat fs (dst ++ rel) = Ok DirNode) step _ (rel, DirNode));
      [| |exact Hrun|exact Hl].
    + intros fs0 e r fs1 Hs Hst. apply Stat_dir in Hst as [Hnil|Hst]; apply Stat_dir;
        [by left|right].
      destruct e as [rel' [|data mt]]; unfold step in Hs; simpl in Hs;
        [by eapply mkdirs_keeps | by eapply copyFile_keeps].
    + intros fs1 fs2. unfold step. simpl. apply MkdirAll_stat.
  - intros q n Hq Hne. eapply Hkeep; [exact Hrun|exact Hq|].
    intros [rel [|data mt]] Hin Hfile; [done|]. simpl.
    apply (Hne rel data mt). by apply walk_elem.
Qed.

Lemma copyDir_copies_witness :
  let fs' := snd (copyDir 7 two_releases ["1.9.0"] ["1.9.0"] Fixture.tree) in
  ReadFile fs' ["1.9.0"; "bin"; "winws.exe"] = Ok "MZ" ∧
  Stat fs' ["1.9.0"; "bin"] = Ok DirNode.
Proof.
  intros fs'.
  destruct (copyDir_copies 7 two_releases ["1.9.0"] ["1.9.0"] Fixture.tree fs'
              ltac:(by eexists) ltac:(reflexivity)) as (Hfile & Hdir & _).
  split.
  - apply (Hfile ["bin"; "winws.exe"] "MZ" 1690000000). reflexivity.
  - apply (Hdir ["bin"]). reflexivity.
Defined.

(** ** The state read, further *)

Lemma State_after_load s c s1 :
  Service.loadConfig s = (Ok c, s1) → Service.State s = Service.State s1.
Proof.
  intros Hload. rewrite (State_unfold s), (State_unfold s1).
  pose proof Hload as Hload'. apply loadConfig_ok in Hload' as (Hc & _).
  rewrite (bind_ok _ _ s _ _ Hload).
  by rewrite (bind_ok _ _ s1 _ _ (loadConfig_cached _ _ Hc)).
Qed.

Lemma loadConfig_total s :
  mkdir_dirs (env s) = Ok tt → ∃ c s1, Service.loadConfig s = (Ok c, s1).
Proof.
  intros Hd. destruct (Service.loadConfig s) as [[c|e] s1] eqn:Hload; [by eauto|].
  apply loadConfig_err in Hload as (_ & _ & He). congruence.
Qed.

Lemma State_total s :
  mkdir_dirs (env s) = Ok tt → ∃ st s', Service.State s = (Ok st, s').
Proof.
  intros Hd. destruct (loadConfig_total s Hd) as (c & s1 & Hload).
  rewrite (State_after_load _ _ _ Hload).
  apply loadConfig_ok in Hload as (Hc & _).
  destruct (succeeds_State s1 c Hc) as (st & s2 & HS & _). eauto.
Qed.

(** X15. [State] fails only when the config is not loaded yet and the
    directories of the service cannot be made, and it has changed nothing
    then; no failure of the network, of the release tree, of the process
    check or of the write of config.json ever reaches the caller. *)
Theorem State_fails_iff s e s' :
  Service.State s = (Err e, s') ↔
  config s = None ∧ mkdir_dirs (env s) = Err e ∧ s' = s.
Proof.
  split.
  - intros H. destruct (Service.loadConfig s) as [[c|e1] s1] eqn:Hload.
    + rewrite (State_after_load _ _ _ Hload) in H.
      apply loadConfig_ok in Hload as (Hc & _).
      destruct (succeeds_State s1 c Hc) as (st & s2 & HS & _). congruence.
    + rewrite State_unfold, (bind_err _ _ _ _ _ Hload) in H. injection H as -> ->.
      apply loadConfig_err in Hload as (-> & Hc & Hd). done.
  - intros (Hc & Hd & ->). rewrite State_unfold.
    apply bind_err. unfold Service.loadConfig, bind, gets, Service.ensureDirs, read.
    by rewrite Hc, Hd.
Qed.

Lemma State_fails_iff_witness :
  let s := Fixture.boot
             (Fixture.host_with (Err (PathError "mkdir"))
                (Resp 200 "200 OK" "" (Bytes (Some Fixture.archive))) (Ok "5000")) "1.8.0" in
  Service.State s = (Err (PathError "mkdir"), s).
Proof.
  intros s. apply (proj2 (State_fails_iff s (PathError "mkdir") s)). by repeat split.
Defined.

Lemma listStrategies_fresh s l s1 :
  Service.listStrategies s = (Ok l, s1) →
  Sorted name_le l ∧
  Forall (λ x, is_general (Strategy.Name x) = true ∧
               Strategy.Result x = noResult ∧ Strategy.Best x = false) l.
Proof.
  unfold Service.listStrategies. intros H.
  apply bind_inv_ok in H as (current & s2 & _ & H).
  destruct current as [current|]; [|injection H as <- _; by split].
  apply bind_inv_ok in H as (entries & s3 & _ & H). injection H as <- _. split.
  - apply sort_Slice_sorted; unfold name_le.
    + intros x y. apply ltb_false_leb.
    + intros x y. apply ltb_true_leb.
  - apply Forall_forall. intros x Hin. rewrite (sort_Slice_perm _ _) in Hin.
    apply list_elem_of_omap in Hin as (e & _ & He).
    destruct (IsDir (snd e) || _); [discriminate|].
    unfold is_general. rewrite andb_comm.
    destruct (strings.HasSuffix _ _ && strings.HasPrefix _ _) eqn:Hg; [|discriminate].
    injection He as <-. by simpl.
Qed.

Lemma Sorted_decorate c l :
  Sorted name_le l → Sorted name_le (map (Service.decorate c) l).
Proof.
  induction 1 as [|x l Hs IH Hhd]; [constructor|].
  simpl. constructor; [done|]. destruct Hhd; simpl; by constructor.
Qed.

(** X16. Every snapshot that [State] returns is consistent with the config it
    carries: the running entry and the current path are the config's, the
    strategies are sorted by name and are strategy files, each carries the
    result stored under exactly its name, or the zero result, and is marked
    best exactly when the config's best strategy is not empty and is its
    name. *)
Theorem State_snapshot_consistent s st s' :
  Service.State s = (Ok st, s') →
  let c := State.Config st in
  State.Running st = Config.Running c ∧
  State.CurrentPath st
  = (if String.eqb (Config.Version c) "" then None else Some [Config.Version c]) ∧
  Sorted name_le (State.Strategies st) ∧
  Forall (λ x,
     is_general (Strategy.Name x) = true ∧
     Strategy.Result x = default noResult (Config.TestResults c !! Strategy.Name x) ∧
     (Strategy.Best x = true ↔
      Config.BestStrategy c ≠ "" ∧ Config.BestStrategy c = Strategy.Name x))
    (State.Strategies st).
Proof.
  intros H c.
  destruct (State_value _ _ _ H) as (_ & Hrun & _).
  destruct (State_current _ _ _ H) as (Hcur & _ & s0 & Hl). fold c in Hcur, Hl.
  split; [done|]. split; [done|]. rewrite Hl.
  destruct (Service.listStrategies s0) as [[l|e] s1] eqn:Hlist; simpl;
    [|split; constructor].
  apply listStrategies_fresh in Hlist as [Hsorted Hfresh]. split.
  - by apply Sorted_decorate.
  - apply Forall_fmap. eapply Forall_impl; [exact Hfresh|].
    intros x (Hgen & Hres & Hbest). simpl. split; [done|]. split.
    + rewrite Hres. by destruct (Config.TestResults c !! Strategy.Name x).
    + rewrite Hbest. destruct (String.eqb_spec (Config.BestStrategy c) ""); simpl.
      * split; [done | by intros []].
      * destruct (String.eqb_spec (Config.BestStrategy c) (Strategy.Name x)); split;
          try done; by intros [].
Qed.

Lemma State_snapshot_consistent_witness :
  ∃ st s', Service.State Fixture.sys = (Ok st, s') ∧
    State.Running st = Config.Running (State.Config st) ∧
    Sorted name_le (State.Strategies st).
Proof.
  destruct (State_total Fixture.sys eq_refl) as (st & s' & H).
  exists st, s'. split; [done|].
  destruct (State_snapshot_consistent _ _ _ H) as (Hrun & _ & Hsorted & _). by split.
Defined.

(** X17. [loadConfig] fails only when no config is cached and the directories
    of the service cannot be made; a config.json that is missing or cannot
    be read is no error. After a success the config is cached: the next
    call returns the same config and changes nothing. A version read from
    config.json is kept: the bundled release is looked at only when the file
    gives none. *)
Theorem loadConfig_outcome s :
  (∀ e s', Service.loadConfig s = (Err e, s') →
     config s = None ∧ mkdir_dirs (env s) = Err e ∧ s' = s) ∧
  (mkdir_dirs (env s) = Ok tt → ∃ c s', Service.loadConfig s = (Ok c, s')) ∧
  (∀ c s', Service.loadConfig s = (Ok c, s') →
     config s' = Some c ∧ configFile s' = configFile s ∧
     Service.loadConfig s' = (Ok c, s') ∧
     (∀ file, config s = None → configFile s = Some file → Config.Version file ≠ "" →
        c = file ∧ fs s' = fs s)).
Proof.
  split; [|split].
  - intros e s' H. apply loadConfig_err in H as (-> & Hc & Hd). done.
  - apply loadConfig_total.
  - intros c s' H. pose proof H as H'. apply loadConfig_ok in H' as (Hc' & _ & Hf' & _).
    split; [done|]. split; [done|]. split; [by apply loadConfig_cached|].
    intros file Hc Hfile Hv. revert H.
    unfold Service.loadConfig, Service.ensureDirs, bind, gets, read, try, modify, cfg_read.
    rewrite Hc, Hfile. destruct (mkdir_dirs (env s)); [|discriminate].
    apply String.eqb_neq in Hv. rewrite Hv. simpl. by intros [= <- <-].
Qed.

Lemma loadConfig_outcome_witness :
  ∃ s', Service.loadConfig Fixture.sys = (Ok (Fixture.cfg "1.8.0"), s') ∧
        Service.loadConfig s' = (Ok (Fixture.cfg "1.8.0"), s') ∧ fs s' = fs Fixture.sys.
Proof.
  destruct (loadConfig_outcome Fixture.sys) as (_ & Htotal & Hok).
  destruct (Htotal eq_refl) as (c & s' & Hload).
  destruct (Hok c s' Hload) as (_ & _ & Hagain & Hfile).
  destruct (Hfile (Fixture.cfg "1.8.0") eq_refl eq_refl ltac:(discriminate)) as [-> Hfs].
  by exists s'.
Defined.

Lemma latest_entry_fold l : ∀ (o : option (string * Node)) t seen,
  (∀ e, o = Some e → e ∈ seen ∧ IsDir (snd e) = false ∧ ModTime (snd e) = t ∧ 0 < t) →
  (o = None → t = 0) →
  (∀ e', e' ∈ seen → IsDir (snd e') = false → ModTime (snd e') ≤ t) →
  let r := fold_left
             (λ (acc : option (string * Node) * Z) (e : string * Node),
                if IsDir (snd e) then acc
                else if snd acc <? ModTime (snd e) then (Some e, ModTime (snd e))
                else acc) l (o, t) in
  (∀ e, fst r = Some e →
     e ∈ (seen ++ l)%list ∧ IsDir (snd e) = false ∧ 0 < ModTime (snd e) ∧
     ∀ e', e' ∈ (seen ++ l)%list → IsDir (snd e') = false →
           ModTime (snd e') ≤ ModTime (snd e)) ∧
  (fst r = None →
     ∀ e', e' ∈ (seen ++ l)%list → IsDir (snd e') = false → ModTime (snd e') ≤ 0).
Proof.
  induction l as [|x l IH]; intros o t seen Hsome Hnone Hmax; simpl.
  - rewrite app_nil_r. split.
    + intros e ->. destruct (Hsome e eq_refl) as (Hin & Hd & Ht & Hpos).
      repeat split; try done; [lia|]. intros e' Hin' Hd'. rewrite Ht. by apply Hmax.
    + intros ->. rewrite <- (Hnone eq_refl). exact Hmax.
  - rewrite (cons_middle x seen l), app_assoc.
    destruct (IsDir (snd x)) eqn:Hx.
    { apply IH; [|done|].
      - intros e He. destruct (Hsome e He) as (Hin & ?). split; [|done].
        apply elem_of_app. by left.
      - intros e' Hin Hd. apply elem_of_app in Hin as [Hin|Hin]; [by apply Hmax|].
        apply list_elem_of_singleton in Hin as ->. congruence. }
    simpl. destruct (Z.ltb_spec t (ModTime (snd x))) as [Hlt|Hge].
    + assert (0 ≤ t).
      { destruct o as [e|]; [destruct (Hsome e eq_refl) as (_ & _ & _ & ?); lia|].
        rewrite (Hnone eq_refl). lia. }
      apply IH; [| done |].
      * intros e [= <-]. split; [apply elem_of_app; right; by left|]. repeat split; [done|lia].
      * intros e' Hin Hd. apply elem_of_app in Hin as [Hin|Hin].
        -- specialize (Hmax e' Hin Hd). lia.
        -- apply list_elem_of_singleton in Hin as ->. lia.
    + apply IH; [|done|].
      * intros e He. destruct (Hsome e He) as (Hin & ?). split; [|done].
        apply elem_of_app. by left.
      * intros e' Hin Hd. apply elem_of_app in Hin as [Hin|Hin]; [by apply Hmax|].
        apply list_elem_of_singleton in Hin as ->. done.
Qed.

Lemma latest_entry_newest entries :
  (∀ e, Service.latest_entry entries = Some e →
     e ∈ entries ∧ IsDir (snd e) = false ∧ 0 < ModTime (snd e) ∧
     ∀ e', e' ∈ entries → IsDir (snd e') = false → ModTime (snd e') ≤ ModTime (snd e)) ∧
  (Service.latest_entry entries = None →
     ∀ e', e' ∈ entries → IsDir (snd e') = false → ModTime (snd e') ≤ 0).
Proof.
  apply (latest_entry_fold entries None 0 []); [done|done|].
  intros e' Hin. by apply elem_of_nil in Hin.
Qed.

(** X18. [parseLatestResult] only reads. What it returns is the parse of a
    file of the results directory that was modified after the zero time and
    not before any other file there, whatever the names of the files; with a
    results directory that holds no such file it fails with "no test
    results found". *)
Theorem parseLatestResult_newest current s :
  let dir := (current ++ ["utils"; "test results"])%list in
  snd (Service.parseLatestResult current s) = s ∧
  (∀ p, fst (Service.parseLatestResult current s) = Ok p →
     ∃ name data mtime,
       fs s !! (dir ++ [name])%list = Some (FileNode data mtime) ∧ 0 < mtime ∧
       parseAnalytics data = Ok p ∧
       ∀ name' data' mtime',
         fs s !! (dir ++ [name'])%list = Some (FileNode data' mtime') → mtime' ≤ mtime) ∧
  (Stat (fs s) dir = Ok DirNode →
   (∀ name data mtime, fs s !! (dir ++ [name])%list = Some (FileNode data mtime) → mtime ≤ 0) →
   fst (Service.parseLatestResult current s) = Err (errors_New "no test results found")).
Proof.
  intros dir. split; [apply parseLatestResult_pure|].
  unfold Service.parseLatestResult. fold dir. unfold bind, read, fail, lift. split.
  - intros p. destruct (ReadDir (fs s) dir) as [entries|e] eqn:Hdir; [|done].
    destruct (latest_entry_newest entries) as [Hsome _].
    destruct (Service.latest_entry entries) as [[name n]|]; [|done].
    destruct (Hsome _ eq_refl) as (Hin & Hd & Hpos & Hmax). simpl in *.
    destruct n as [|data mtime]; [done|].
    apply (ReadDir_elem _ _ _ _ _ Hdir) in Hin. unfold ReadFile. rewrite Hin. simpl.
    intros Hp. exists name, data, mtime. repeat split; try done.
    intros name' data' mtime' Hl. apply (ReadDir_elem _ _ _ _ _ Hdir) in Hl.
    by apply (Hmax _ Hl).
  - intros Hstat Hold. unfold ReadDir. rewrite Hstat.
    set (entries := sort_Slice _ _).
    assert (Hdir : ReadDir (fs s) dir = Ok entries) by (unfold ReadDir; by rewrite Hstat).
    destruct (latest_entry_newest entries) as [Hsome _].
    destruct (Service.latest_entry entries) as [[name n]|]; [|done]. exfalso.
    destruct (Hsome _ eq_refl) as (Hin & Hd & Hpos & _). simpl in *.
    destruct n as [|data mtime]; [done|].
    apply (ReadDir_elem _ _ _ _ _ Hdir) in Hin. specialize (Hold _ _ _ Hin). simpl in Hpos. lia.
Qed.

Lemma parseLatestResult_newest_witness :
  fst (Service.parseLatestResult ["1.8.0"] Fixture.sys) = Ok Fixture.parsed ∧
  ∃ name data mtime,
    fs Fixture.sys !! ((["1.8.0"] ++ ["utils"; "test results"]) ++ [name])%list
    = Some (FileNode data mtime) ∧
    parseAnalytics data = Ok Fixture.parsed.
Proof.
  assert (H : fst (Service.parseLatestResult ["1.8.0"] Fixture.sys) = Ok Fixture.parsed)
    by reflexivity.
  split; [exact H|].
  destruct (proj1 (proj2 (parseLatestResult_newest ["1.8.0"] Fixture.sys)) _ H)
    as (name & data & mtime & Hl & _ & Hp & _).
  exists name, data, mtime. split; [exact Hl | exact Hp].
Defined.

(** ** Process tracking, further *)

Lemma HasPrefix_app b c : strings.HasPrefix (b +:+ c) b = true.
Proof.
  induction b as [|x b IH]; [apply HasPrefix_nil|].
  rewrite app_cons. simpl. by rewrite Ascii.eqb_refl.
Qed.

Lemma Contains_here s sub : strings.HasPrefix s sub = true → strings.Contains s sub = true.
Proof. intros H. destruct s; simpl in *; by rewrite H. Qed.

Lemma Contains_app_r a : ∀ s sub,
  strings.Contains s sub = true → strings.Contains (a +:+ s) sub = true.
Proof.
  induction a as [|x a IH]; intros s sub H; [by rewrite app_nil|].
  rewrite app_cons. cbn [strings.Contains]. rewrite (IH _ _ H). apply orb_true_r.
Qed.

Lemma tasklist_output_row table pid image :
  table !! pid = Some image →
  strings.Contains (tasklist_output table pid) (strconv.Itoa pid) = true.
Proof.
  intros Hl. unfold tasklist_output. rewrite Hl.
  apply Contains_app_r.
  change (String "010" ?s) with ((String "010" "") +:+ s).
  apply (Contains_app_r (String "010" "")), Contains_app_r, (Contains_app_r " ").
  apply Contains_here, HasPrefix_app.
Qed.

Lemma isPIDRunning_run pid s :
  isPIDRunning pid s =
    if pid <=? 0 then (Ok false, s)
    else (Ok (negb (tasklist_fails (env s))
              && match procs s !! pid with Some _ => true | None => false end),
          log (EvRun (Tasklist pid)) s).
Proof.
  unfold isPIDRunning. destruct (Z.leb_spec pid 0) as [Hle|Hpos]; [done|].
  unfold bind, try, tasklist, ret. cbn [fst snd].
  destruct (tasklist_fails (env s)) eqn:Hfail; [done|]. cbn [negb andb].
  destruct (procs s !! pid) as [image|] eqn:Hl.
  - by rewrite (tasklist_output_row _ _ _ Hl).
  - pose proof (isPIDRunning_dead pid s Hl) as Hdead. unfold isPIDRunning in Hdead.
    destruct (Z.leb_spec pid 0); [lia|].
    unfold bind, try, tasklist, ret in Hdead. cbn [fst snd] in Hdead. rewrite Hfail in Hdead.
    cbn [fst snd] in Hdead. by injection Hdead as ->.
Qed.

(** X19. [isPIDRunning] never fails, and it answers true exactly when the pid
    is positive, tasklist could be run and the process table has a process
    of that pid; for a pid that is not positive no command is started. *)
Theorem isPIDRunning_exact pid s :
  (∃ alive, fst (isPIDRunning pid s) = Ok alive) ∧
  (fst (isPIDRunning pid s) = Ok true ↔
   0 < pid ∧ tasklist_fails (env s) = false ∧ is_Some (procs s !! pid)) ∧
  (pid ≤ 0 → snd (isPIDRunning pid s) = s) ∧
  (0 < pid → snd (isPIDRunning pid s) = log (EvRun (Tasklist pid)) s).
Proof.
  rewrite isPIDRunning_run. destruct (Z.leb_spec pid 0) as [Hle|Hpos]; cbn [fst snd].
  { split; [by eexists|]. split; [|split; [done|lia]].
    split; [done | intros (? & _); lia]. }
  split; [by eexists|]. split; [|split; [lia|done]].
  destruct (tasklist_fails (env s)), (procs s !! pid) as [image|]; cbn [negb andb]; split;
    try done; try (by intros (_ & ? & _)); try (by intros (_ & _ & [? ?])); by eauto.
Qed.

Lemma isPIDRunning_answers pid s :
  isPIDRunning pid s =
    (Ok (answers_alive pid s), if 0 <? pid then log (EvRun (Tasklist pid)) s else s).
Proof.
  rewrite isPIDRunning_run. unfold answers_alive.
  destruct (Z.leb_spec pid 0), (Z.ltb_spec 0 pid); try lia; done.
Qed.

Lemma trace_exec c s : trace (snd (exec c s)) = (trace s ++ [EvRun c])%list.
Proof. done. Qed.

Lemma trace_saved c s : trace (saved c s) = (trace s ++ [EvWriteFile c])%list.
Proof. apply saved_fields. Qed.

Lemma after_kills_fields s :
  same_store s (after_kills s) ∧
  trace (after_kills s) = (trace s ++ kill_every_winws)%list.
Proof.
  unfold after_kills. split.
  - etrans; [apply (same_store_exec (TaskkillImage "winws.exe") s)|].
    etrans; [apply (same_store_exec (StopProcessName "winws"))|].
    apply (same_store_exec (WmicDelete "winws.exe")).
  - rewrite !trace_exec, <- !app_assoc. done.
Qed.

(** X20. The commands of [StopRunning], once the config is loaded: the three
    attempts on every winws.exe are started whether or not a process is
    tracked; for a tracked process tasklist is asked when the pid is
    positive, the two kills by pid are started only when it answers that
    the process is alive, and the config without the running entry is
    handed to [saveConfig]; nothing else is started or written. *)
Theorem StopRunning_commands s cfg s1 :
  Service.loadConfig s = (Ok cfg, s1) →
  ∃ s', Service.StopRunning s = (Ok tt, s') ∧
    trace s' =
      (trace s ++ kill_every_winws ++
       match Config.Running cfg with
       | None => []
       | Some r =>
           stop_tracked (RunningInfo.PID r)
             (answers_alive (RunningInfo.PID r) (after_kills s1))
             (Config.set_Running None cfg)
       end)%list.
Proof.
  intros Hload. unfold Service.StopRunning.
  rewrite (bind_ok _ _ _ _ _ Hload). rewrite !bind_try.
  apply loadConfig_ok in Hload as (Hc1 & He1 & _ & _ & Ht1).
  fold (after_kills s1).
  destruct (after_kills_fields s1) as ((Hc4 & _ & He4 & Hfs4) & Ht4).
  rewrite Hc1 in Hc4. rewrite Ht1 in Ht4.
  rewrite (bind_ok _ _ _ _ _ (cfg_read_some _ _ _ Hc4)).
  destruct (Config.Running cfg) as [r|] eqn:Hr.
  2:{ exists (after_kills s1). split; [done|]. rewrite app_nil_r. exact Ht4. }
  rewrite (bind_ok _ _ _ _ _ (isPIDRunning_answers _ _)).
  set (pid := RunningInfo.PID r). set (s5 := if 0 <? pid then _ else _).
  assert (Hs5 : config s5 = Some cfg ∧
                trace s5 = (trace s ++ kill_every_winws ++
                            (if 0 <? pid then [EvRun (Tasklist pid)] else []))%list).
  { unfold s5. destruct (0 <? pid).
    - split; [exact Hc4|].
      change (trace (log ?e ?s)) with (trace s ++ [e])%list.
      by rewrite Ht4, <- app_assoc.
    - split; [exact Hc4|]. by rewrite Ht4, app_nil_r. }
  destruct Hs5 as [Hc5 Ht5]. clearbody s5.
  unfold stop_tracked. fold pid.
  destruct (answers_alive pid (after_kills s1)).
  - rewrite bind_assoc, bind_try, bind_assoc, bind_try, bind_ret.
    set (s7 := snd (exec (TaskkillPid pid) (snd (exec (StopProcessId pid) s5)))).
    assert (Hc7 : config s7 = Some cfg).
    { unfold s7. by destruct (same_store_exec (TaskkillPid pid)
                               (snd (exec (StopProcessId pid) s5))) as (-> & _). }
    rewrite (clear_running_run _ _ Hc7). eexists. split; [done|].
    rewrite trace_saved. unfold s7. simpl. rewrite Ht5, <- !app_assoc. done.
  - rewrite bind_ret, (clear_running_run _ _ Hc5). eexists. split; [done|].
    rewrite trace_saved. simpl. rewrite Ht5, <- !app_assoc. done.
Qed.

Lemma StopRunning_commands_witness :
  ∃ s', Service.StopRunning Fixture.sys = (Ok tt, s') ∧
    trace s' = [EvRun (TaskkillImage "winws.exe"); EvRun (StopProcessName "winws");
                EvRun (WmicDelete "winws.exe"); EvRun (Tasklist 4242);
                EvWriteFile (Config.set_Running None (Fixture.cfg "1.8.0"))].
Proof.
  destruct (StopRunning_commands Fixture.sys (Fixture.cfg "1.8.0")
              (set_config (Some (Fixture.cfg "1.8.0")) Fixture.sys) ltac:(reflexivity))
    as (s' & Hrun & Htrace).
  exists s'. split; [exact Hrun|]. rewrite Htrace. reflexivity.
Defined.

Lemma State_stays_stopped s c st s' :
  config s = Some c → Service.State s = (Ok st, s') →
  (Config.Running c = None → State.Running st = None) ∧
  Config.LastStrategy (State.Config st) = Config.LastStrategy c.
Proof.
  intros Hc HS.
  destruct (frame_State stays_stopped
              (λ _ _ _, conj (λ H, H) eq_refl) (λ _ _ _, conj (λ H, H) eq_refl)
              (λ _ _, conj (λ _, eq_refl) eq_refl) (λ _ _, conj (λ H, H) eq_refl)
              s c Hc) as (_ & _ & _ & _ & _ & c' & Hc' & Hkeep & Hlast).
  rewrite HS in Hc', Hkeep, Hlast. simpl in *.
  destruct (State_value _ _ _ HS) as (Hc'' & HR & _).
  assert (c' = State.Config st) as -> by congruence.
  split; [|done]. intros Hnone. rewrite HR. by apply Hkeep.
Qed.

(** X21. [StopStrategy] of the bridge fails only as [loadConfig] does, and the
    snapshot it returns has no running entry, in the snapshot and in its
    config. *)
Theorem StopStrategy_stopped s :
  (∀ st s', App.StopStrategy s = (Ok st, s') →
     State.Running st = None ∧ Config.Running (State.Config st) = None) ∧
  (∀ e s', App.StopStrategy s = (Err e, s') →
     config s = None ∧ mkdir_dirs (env s) = Err e ∧ s' = s) ∧
  (mkdir_dirs (env s) = Ok tt → ∃ st s', App.StopStrategy s = (Ok st, s')).
Proof.
  unfold App.StopStrategy.
  destruct (Service.loadConfig s) as [[cfg|e0] s1] eqn:Hload.
  - destruct (StopRunning_loaded _ _ _ Hload) as (s2 & Hstop & Hc2 & _).
    rewrite (bind_ok _ _ _ _ _ Hstop).
    destruct (State_loaded s2 _ Hc2) as (_ & st0 & s3 & _ & _ & HS). rewrite HS.
    destruct (State_stays_stopped _ _ _ _ Hc2 HS) as (Hnone & _).
    destruct (State_value _ _ _ HS) as (_ & HR & _).
    split; [|split]; [|discriminate|by eauto].
    intros st s' [= <- <-]. split; [by apply Hnone|]. rewrite <- HR. by apply Hnone.
  - assert (Hstop : Service.StopRunning s = (Err e0, s1)).
    { unfold Service.StopRunning. by rewrite (bind_err _ _ _ _ _ Hload). }
    rewrite (bind_err _ _ _ _ _ Hstop).
    apply loadConfig_err in Hload as (-> & Hc & Hd).
    split; [discriminate|]. split; [by intros e s' [= <- <-]|].
    intros Hok. congruence.
Qed.

Lemma StopStrategy_stopped_witness :
  ∃ st s', App.StopStrategy Fixture.sys = (Ok st, s') ∧ State.Running st = None.
Proof.
  destruct (StopStrategy_stopped Fixture.sys) as (Hok & _ & Htotal).
  destruct (Htotal eq_refl) as (st & s' & Hrun).
  exists st, s'. split; [exact Hrun|]. by destruct (Hok st s' Hrun).
Defined.

(** X22. After [loadConfig], [RunStrategy] can fail in three places: without
    a release, on a file that is not there, and when the launch command
    fails. Each time the strategy that ran before has been stopped already:
    the config has no running entry any more, and its last strategy is the
    old one; in the first two cases no launch command was started. *)
Theorem RunStrategy_failures s file cfg s1 :
  Service.loadConfig s = (Ok cfg, s1) →
  let s2 := snd (Service.StopRunning s1) in
  let full := launch_path [Config.Version cfg] file in
  config s2 = Some (Config.set_Running None cfg) ∧
  (Config.Version cfg = "" →
   Service.RunStrategy file s = (Err (errors_New "no current release"), s2)) ∧
  (Config.Version cfg ≠ "" → ∀ e, Stat (fs s1) full = Err e →
   Service.RunStrategy file s = (Err e, s2)) ∧
  (Config.Version cfg ≠ "" → is_ok (Stat (fs s1) full) = true → ∀ e s3,
   exec (StartProcess full (Dir full) (RUN_PROCESS_HIDDEN (env s))) s2 = (Err e, s3) →
   Service.RunStrategy file s = (Err e, s3) ∧
   config s3 = Some (Config.set_Running None cfg)).
Proof.
  intros Hload s2 full.
  pose proof (loadConfig_ok _ _ _ Hload) as (Hc1 & He1 & _).
  destruct (StopRunning_loaded s1 cfg s1 (loadConfig_cached _ _ Hc1))
    as (s2' & Hstop & Hc2 & He2 & Hfs2 & _).
  assert (s2 = s2') as -> by (unfold s2; by rewrite Hstop).
  split; [done|].
  assert (Hrun : Service.RunStrategy file s =
            bind Service.currentReleasePath (λ current,
              match current with
              | None => fail (errors_New "no current release")
              | Some current =>
                  bind (read (λ s, Stat (fs s) (launch_path current file))) (λ _,
                  bind (gets (λ s, RUN_PROCESS_HIDDEN (env s))) (λ hidden,
                  bind (exec (StartProcess (launch_path current file)
                                (Dir (launch_path current file)) hidden)) (λ out,
                  bind (if 0 <? atoi (strings.TrimSpace out)
                        then bind (gets (λ s, now (env s))) (λ t,
                             bind (cfg_write (Config.set_Running
                                     (Some {| RunningInfo.File := Base (launch_path current file);
                                              RunningInfo.PID := atoi (strings.TrimSpace out);
                                              RunningInfo.StartedAt := t |}))) (λ _,
                             bind (try Service.saveConfig) (λ _, ret tt)))
                        else ret tt) (λ _,
                  bind (cfg_write (Config.set_LastStrategy (Base (launch_path current file))))
                    (λ _, bind (try Service.saveConfig) (λ _, Service.State))))))
              end) s2').
  { unfold Service.RunStrategy. rewrite (bind_ok _ _ _ _ _ Hload), bind_try.
    by rewrite Hstop. }
  rewrite Hrun. rewrite (bind_ok _ _ _ _ _ (currentReleasePath_some _ _ Hc2)). simpl.
  split; [|split].
  - intros ->. done.
  - intros Hv e Hstat. apply String.eqb_neq in Hv. rewrite Hv.
    fold full. unfold bind at 1, read. by rewrite Hfs2, Hstat.
  - intros Hv Hstat e s3 Hexec. apply String.eqb_neq in Hv. rewrite Hv.
    fold full. unfold bind at 1, read. rewrite Hfs2.
    destruct (Stat (fs s1) full) as [n|]; [clear Hstat | done].
    unfold bind at 1, gets. rewrite He2, He1.
    rewrite (bind_err _ _ _ _ _ Hexec). split; [done|].
    destruct (same_store_exec (StartProcess full (Dir full) (RUN_PROCESS_HIDDEN (env s))) s2')
      as (Hc & _). rewrite Hexec in Hc. simpl in Hc. congruence.
Qed.

Lemma RunStrategy_failures_witness :
  ∃ s', Service.RunStrategy (Rel ["missing.bat"]) Fixture.sys = (Err (PathError "stat"), s') ∧
    config s' = Some (Config.set_Running None (Fixture.cfg "1.8.0")).
Proof.
  destruct (RunStrategy_failures Fixture.sys (Rel ["missing.bat"]) (Fixture.cfg "1.8.0")
              (set_config (Some (Fixture.cfg "1.8.0")) Fixture.sys) ltac:(reflexivity))
    as (Hc & _ & Hmissing & _).
  eexists. split; [|exact Hc].
  apply Hmissing; [discriminate | reflexivity].
Defined.

Lemma validate_running_tracked s c r :
  config s = Some c → Config.Running c = Some r →
  ∃ s', Service.validate_running s = (Ok tt, s') ∧
    config s' = Some (if answers_alive (RunningInfo.PID r) s then c
                      else Config.set_Running None c).
Proof.
  intros Hc Hr. unfold Service.validate_running.
  rewrite (bind_ok _ _ _ _ _ (cfg_read_some _ _ _ Hc)), Hr.
  rewrite (bind_ok _ _ _ _ _ (isPIDRunning_answers _ _)).
  set (s1 := if 0 <? RunningInfo.PID r then _ else _).
  assert (Hc1 : config s1 = Some c) by (unfold s1; by destruct (0 <? _)).
  clearbody s1. destruct (answers_alive (RunningInfo.PID r) s); simpl.
  - by eexists.
  - rewrite (clear_running_run _ _ Hc1). eexists. split; [done|]. apply saved_fields.
Qed.

(** X23. When the launch command of [RunStrategy] prints a positive process
    id, the snapshot has the running entry of that process, with the base
    name of the file and the time of the launch, provided the process check
    of the state read finds the process; when it does not, the entry is
    dropped again and the snapshot has none. Either way the last strategy
    is the base name of the file. *)
Theorem RunStrategy_tracks s file cfg s1 out s3 :
  let full := launch_path [Config.Version cfg] file in
  let pid := atoi (strings.TrimSpace out) in
  Service.loadConfig s = (Ok cfg, s1) → Config.Version cfg ≠ "" →
  is_ok (Stat (fs s1) full) = true →
  exec (StartProcess full (Dir full) (RUN_PROCESS_HIDDEN (env s)))
    (snd (Service.StopRunning s1)) = (Ok out, s3) →
  0 < pid →
  ∃ st s', Service.RunStrategy file s = (Ok st, s') ∧
    config s' = Some (State.Config st) ∧
    Config.LastStrategy (State.Config st) = Base full ∧
    State.Running st = Config.Running (State.Config st) ∧
    State.Running st =
      if answers_alive pid s3
      then Some {| RunningInfo.File := Base full; RunningInfo.PID := pid;
                   RunningInfo.StartedAt := now (env s) |}
      else None.
Proof.
  intros full pid Hload Hv Hstat Hexec Hpid.
  pose proof (loadConfig_ok _ _ _ Hload) as (Hc1 & He1 & _).
  unfold Service.RunStrategy.
  rewrite (bind_ok _ _ _ _ _ Hload), bind_try.
  destruct (StopRunning_loaded s1 cfg s1 (loadConfig_cached _ _ Hc1))
    as (s2 & Hstop & Hc2 & He2 & Hfs2 & _).
  rewrite Hstop in Hexec |- *. simpl in Hexec |- *.
  rewrite (bind_ok _ _ _ _ _ (currentReleasePath_some _ _ Hc2)). simpl.
  pose proof Hv as Hv'. apply String.eqb_neq in Hv'. rewrite Hv'.
  change (match file with Abs p => p | Rel p => ([Config.Version cfg] ++ p)%list end)
    with full.
  unfold bind at 1, read. rewrite Hfs2.
  destruct (Stat (fs s1) full) as [n|]; [clear Hstat | done].
  unfold bind at 1, gets. rewrite He2, He1.
  rewrite (bind_ok _ _ _ _ _ Hexec). fold pid.
  apply Z.ltb_lt in Hpid. rewrite Hpid.
  destruct (same_store_exec (StartProcess full (Dir full) (RUN_PROCESS_HIDDEN (env s))) s2)
    as (Hc3 & _ & He3 & _).
  rewrite Hexec in Hc3, He3. simpl in Hc3, He3. rewrite Hc2 in Hc3.
  rewrite !bind_assoc. unfold bind at 1, gets. rewrite He3, He2, He1.
  set (r := {| RunningInfo.File := Base full; RunningInfo.PID := pid;
               RunningInfo.StartedAt := now (env s) |}).
  rewrite bind_assoc.
  rewrite (bind_ok _ _ _ _ _ (cfg_write_some _ _ _ Hc3)), bind_assoc, bind_try, bind_ret.
  set (c4 := Config.set_Running (Some r) (Config.set_Running None cfg)).
  rewrite (saveConfig_some _ c4) by done. cbn [snd].
  set (s4 := saved c4 (set_config (Some c4) s3)).
  assert (Hs4 : config s4 = Some c4 ∧ env s4 = env s3 ∧ procs s4 = procs s3).
  { destruct (saved_fields c4 (set_config (Some c4) s3)) as (? & ? & _ & ? & _). done. }
  destruct Hs4 as (Hc4 & He4 & Hp4).
  rewrite (bind_ok _ _ _ _ _ (cfg_write_some _ _ _ Hc4)), bind_try.
  set (c5 := Config.set_LastStrategy (Base full) c4).
  rewrite (saveConfig_some _ c5) by done. cbn [snd].
  set (s5 := saved c5 (set_config (Some c5) s4)).
  assert (Hs5 : config s5 = Some c5 ∧ env s5 = env s3 ∧ procs s5 = procs s3).
  { destruct (saved_fields c5 (set_config (Some c5) s4)) as (H1 & H2 & _ & H3 & _).
    split; [exact H1|]. split; [etrans; [exact H2 | exact He4] | etrans; [exact H3 | exact Hp4]]. }
  destruct Hs5 as (Hc5 & He5 & Hp5).
  destruct (State_loaded s5 c5 Hc5) as (_ & st & s' & _ & _ & HS).
  exists st, s'. split; [done|].
  destruct (State_value _ _ _ HS) as (Hc' & HR & _).
  destruct (State_stays_stopped _ _ _ _ Hc5 HS) as (_ & Hlast).
  split; [done|]. split; [done|]. split; [done|].
  rewrite (State_from s5 c5 s5 _ (loadConfig_cached _ _ Hc5) Hv eq_refl) in HS.
  pose proof (frame_rehydrate same_running (λ _ _ _, eq_refl) (λ _ _ _, eq_refl)
                (λ _ _, eq_refl) [Config.Version c5] s5 c5 Hc5)
    as (He6 & _ & Hp6 & _ & _ & c6 & Hc6 & Hr6).
  set (s6 := snd (Service.rehydrate [Config.Version c5] s5)) in *.
  unfold same_running in Hr6. simpl in Hr6.
  destruct (validate_running_tracked s6 c6 r Hc6 Hr6) as (s7 & Hval & Hc7).
  rewrite (bind_ok _ _ _ _ _ Hval) in HS.
  assert (Halive : answers_alive (RunningInfo.PID r) s6 = answers_alive pid s3).
  { unfold answers_alive. simpl. by rewrite He6, Hp6, He5, Hp5. }
  rewrite Halive in Hc7.
  destruct (snapshot_value _ _ _ _ Hc7 HS) as (HC & HR' & _).
  rewrite HR'. destruct (answers_alive pid s3); [exact Hr6 | done].
Qed.

Lemma RunStrategy_tracks_witness :
  ∃ st s', Service.RunStrategy (Rel ["general1.bat"]) Fixture.sys = (Ok st, s') ∧
    State.Running st = Some {| RunningInfo.File := "general1.bat"; RunningInfo.PID := 5000;
                               RunningInfo.StartedAt := 1700000000 |}.
Proof.
  pose (s1 := set_config (Some (Fixture.cfg "1.8.0")) Fixture.sys).
  pose (launch := exec (StartProcess ["1.8.0"; "general1.bat"] ["1.8.0"] false)
                    (snd (Service.StopRunning s1))).
  destruct (RunStrategy_tracks Fixture.sys (Rel ["general1.bat"]) (Fixture.cfg "1.8.0")
              s1 "5000" (snd launch)
              ltac:(reflexivity) ltac:(discriminate) ltac:(reflexivity) ltac:(reflexivity)
              ltac:(reflexivity))
    as (st & s' & Hrun & _ & _ & _ & Hr).
  exists st, s'. split; [exact Hrun|]. rewrite Hr. reflexivity.
Defined.

(** ** Test runs *)

#[local] Instance same_test_run_refl : Reflexive same_test_run.
Proof. by intros x. Qed.

#[local] Instance same_test_run_trans : Transitive same_test_run.
Proof. unfold same_test_run. intros x y z [? ?] [? ?]. split; congruence. Qed.

Lemma State_same_test_run s c st s' :
  config s = Some c → Service.State s = (Ok st, s') →
  Config.TestInProgress (State.Config st) = Config.TestInProgress c ∧
  Config.LastTestAt (State.Config st) = Config.LastTestAt c.
Proof.
  intros Hc HS.
  destruct (frame_State same_test_run
              (λ _ _ _, conj eq_refl eq_refl) (λ _ _ _, conj eq_refl eq_refl)
              (λ _ _, conj eq_refl eq_refl) (λ _ _, conj eq_refl eq_refl)
              s c Hc) as (_ & _ & _ & _ & _ & c' & Hc' & Hp & Ht).
  rewrite HS in Hc', Hp, Ht. simpl in *.
  destruct (State_value _ _ _ HS) as (Hc'' & _).
  assert (c' = State.Config st) as -> by congruence. done.
Qed.

(** The writes that end a test run, up to the state read. *)
Lemma end_of_run results best s c (k : Result State.t → M Returned) :
  config s = Some c →
  let c' := set_LastTestAt (now (env s))
              (set_TestInProgress false
                 (Config.set_BestStrategy best (Config.set_TestResults results c))) in
  ∃ st s1 s',
    config s1 = Some c' ∧ env s1 = env s ∧
    Service.State s1 = (Ok st, s') ∧
    bind (cfg_write (set_TestInProgress false)) (λ _,
      bind (gets (λ s, now (env s))) (λ t,
        bind (cfg_write (set_LastTestAt t)) (λ _,
          bind (try Service.saveConfig) (λ _,
            bind (try Service.State) k))))
      (set_config (Some (Config.set_BestStrategy best (Config.set_TestResults results c))) s)
    = k (Ok st) s'.
Proof.
  intros Hc c'.
  set (c2 := Config.set_BestStrategy best (Config.set_TestResults results c)).
  set (s2 := set_config (Some c2) s).
  rewrite (bind_ok _ _ _ _ _ (cfg_write_some _ s2 c2 eq_refl)).
  set (s3 := set_config (Some (set_TestInProgress false c2)) s2).
  unfold bind at 1, gets.
  rewrite (bind_ok _ _ _ _ _ (cfg_write_some _ s3 (set_TestInProgress false c2) eq_refl)).
  rewrite bind_try. change (now (env s3)) with (now (env s)). fold c2 c'.
  set (s4 := set_config (Some c') s3).
  change (Service.saveConfig _) with (Service.saveConfig s4).
  rewrite (saveConfig_some s4 c' eq_refl). cbn [snd].
  destruct (saved_fields c' s4) as (Hc5 & He5 & _).
  destruct (State_loaded (saved c' s4) c' Hc5) as (_ & st & s' & _ & _ & HS).
  exists st, (saved c' s4), s'. split; [exact Hc5|]. split; [exact He5|]. split; [exact HS|].
  by rewrite bind_try, HS.
Qed.

(** X24. After the wait loop [RunTests] always returns a snapshot, also when it
    returns an error; in that snapshot the test run is over: the config is
    not in progress and its time of test is the time of the return. The
    error is the one that [bubble_up] chooses; the state read adds none. *)
Theorem RunTests_finish_outcome w s c :
  config s = Some c →
  ∃ st s', RunTests_finish w s = (Ok (Some st, bubble_up w None), s') ∧
    config s' = Some (State.Config st) ∧
    Config.TestInProgress (State.Config st) = false ∧
    Config.LastTestAt (State.Config st) = now (env s).
Proof.
  intros Hc. unfold RunTests_finish.
  set (k := λ state : Result State.t,
         match state with
         | Ok state => ret (Some state, bubble_up w None)
         | Err stateErr => ret (None, bubble_up w (Some stateErr))
         end).
  assert (Hrun : ∃ st s1 s', config s1 = Some
                   (set_LastTestAt (now (env s)) (set_TestInProgress false
                      (Config.set_BestStrategy
                         (match Wait.parsed w with Some p => Best p | None => "" end)
                         (Config.set_TestResults
                            (match Wait.parsed w with Some p => Results p | None => ∅ end)
                            c)))) ∧
            Service.State s1 = (Ok st, s') ∧
            bind (match Wait.parsed w with
                  | Some parsed =>
                      bind (cfg_write (Config.set_TestResults (Results parsed)))
                        (λ _, cfg_write (Config.set_BestStrategy (Best parsed)))
                  | None =>
                      bind (cfg_write (Config.set_TestResults ∅))
                        (λ _, cfg_write (Config.set_BestStrategy ""))
                  end)
              (λ _, bind (cfg_write (set_TestInProgress false)) (λ _,
                 bind (gets (λ s, now (env s))) (λ t,
                   bind (cfg_write (set_LastTestAt t)) (λ _,
                     bind (try Service.saveConfig) (λ _,
                       bind (try Service.State) k))))) s
            = k (Ok st) s').
  { destruct (Wait.parsed w) as [p|];
      rewrite bind_assoc, (bind_ok _ _ _ _ _ (cfg_write_some _ _ _ Hc));
      [rewrite (bind_ok _ _ _ _ _
                  (cfg_write_some _ (set_config (Some (Config.set_TestResults (Results p) c)) s)
                     _ eq_refl))
      |rewrite (bind_ok _ _ _ _ _
                  (cfg_write_some _ (set_config (Some (Config.set_TestResults ∅ c)) s)
                     _ eq_refl))].
    - destruct (end_of_run (Results p) (Best p) s c k Hc)
        as (st & s1 & s' & Hc1 & _ & HS & Hrun). by exists st, s1, s'.
    - destruct (end_of_run ∅ "" s c k Hc)
        as (st & s1 & s' & Hc1 & _ & HS & Hrun). by exists st, s1, s'. }
  destruct Hrun as (st & s1 & s' & Hc1 & HS & Hrun).
  exists st, s'. split; [exact Hrun|].
  destruct (State_value _ _ _ HS) as (Hc' & _).
  destruct (State_same_test_run _ _ _ _ Hc1 HS) as (Hp & Ht).
  split; [done|]. split; [exact Hp | exact Ht].
Qed.

Lemma RunTests_finish_outcome_witness :
  ∃ st s', RunTests_finish Wait.start (set_config (Some (Fixture.cfg "1.8.0")) Fixture.sys)
           = (Ok (Some st, Some (errors_New "test results file not found")), s') ∧
    Config.TestInProgress (State.Config st) = false.
Proof.
  destruct (RunTests_finish_outcome Wait.start
              (set_config (Some (Fixture.cfg "1.8.0")) Fixture.sys) (Fixture.cfg "1.8.0")
              eq_refl) as (st & s' & Hrun & _ & Hp & _).
  exists st, s'. split; [exact Hrun | exact Hp].
Defined.

(** X25. When the test script cannot be started, [RunTests] returns the error
    of the start together with a snapshot whose config is not in progress,
    has the time of the return as time of test, and is the config of the
    service. *)
Theorem RunTests_notStarted_outcome startErr s c :
  config s = Some c →
  ∃ st s', RunTests_notStarted startErr s = (Ok (Some st, Some startErr), s') ∧
    config s' = Some (State.Config st) ∧
    Config.TestInProgress (State.Config st) = false ∧
    Config.LastTestAt (State.Config st) = now (env s).
Proof.
  intros Hc. unfold RunTests_notStarted.
  rewrite (bind_ok _ _ _ _ _ (cfg_write_some _ _ _ Hc)).
  rewrite (bind_ok _ _ _ _ _
             (cfg_write_some _ (set_config (Some (Config.set_TestResults ∅ c)) s) _ eq_refl)).
  destruct (end_of_run ∅ "" s c
              (λ state, match state with
                        | Err stateErr => ret (None, Some stateErr)
                        | Ok state => ret (Some state, Some startErr)
                        end) Hc)
    as (st & s1 & s' & Hc1 & _ & HS & Hrun).
  exists st, s'. split; [exact Hrun|].
  destruct (State_value _ _ _ HS) as (Hc' & _).
  destruct (State_same_test_run _ _ _ _ Hc1 HS) as (Hp & Ht).
  split; [done|]. split; [exact Hp | exact Ht].
Qed.

Lemma RunTests_notStarted_outcome_witness :
  ∃ st s', RunTests_notStarted ExecError (set_config (Some (Fixture.cfg "1.8.0")) Fixture.sys)
           = (Ok (Some st, Some ExecError), s') ∧
    Config.TestInProgress (State.Config st) = false.
Proof.
  destruct (RunTests_notStarted_outcome ExecError
              (set_config (Some (Fixture.cfg "1.8.0")) Fixture.sys) (Fixture.cfg "1.8.0")
              eq_refl) as (st & s' & Hrun & _ & Hp & _).
  exists st, s'. split; [exact Hrun | exact Hp].
Defined.

Lemma killProcessTree_run pid s :
  killProcessTree pid s =
    (Ok tt, if 0 <? pid then snd (exec (TaskkillPid pid) s) else s).
Proof.
  unfold killProcessTree.
  destruct (Z.leb_spec pid 0), (Z.ltb_spec 0 pid); try lia; [done|].
  by rewrite bind_try.
Qed.

(** X26. How the wait loop of [RunTests] ends. It ends with exactly one of the
    three: results, an error of the watcher or of the deadline, or an error
    of PowerShell's exit. The process tree of the script is killed in the
    first two cases and not in the third. Hence [RunTests] returns no error
    exactly when the loop got results; and the error it returns is the one
    the loop got, unless that is [context.Canceled]. *)
Theorem waitLoop_exit pid selected s w s' :
  waitLoop pid selected Wait.start s = (Ok (Some w), s') →
  ((is_Some (Wait.parsed w) ∧ Wait.watchErr w = None ∧ Wait.cmdErr w = None) ∨
   (Wait.parsed w = None ∧ is_Some (Wait.watchErr w) ∧ Wait.cmdErr w = None) ∨
   (Wait.parsed w = None ∧ Wait.watchErr w = None ∧ is_Some (Wait.cmdErr w))) ∧
  s' = (if match Wait.cmdErr w with None => 0 <? pid | Some _ => false end
        then snd (exec (TaskkillPid pid) s) else s) ∧
  (bubble_up w None = None ↔ is_Some (Wait.parsed w)) ∧
  ((∀ e, Wait.watchErr w = Some e → is_Canceled e = false) →
   bubble_up w None
   = match Wait.watchErr w with Some e => Some e | None => Wait.cmdErr w end).
Proof.
  revert s. induction selected as [|c selected IH]; intros s H; [discriminate|].
  destruct c as [p|e|[e|]|e|]; cbn [waitLoop] in H.
  - rewrite (bind_ok _ _ _ _ _ (killProcessTree_run _ _)) in H. injection H as <- <-.
    cbn. split; [left; by eauto|]. split; [done|]. split; [|done].
    split; [by eauto | done].
  - rewrite (bind_ok _ _ _ _ _ (killProcessTree_run _ _)) in H. injection H as <- <-.
    cbn. split; [right; left; by eauto|]. split; [done|]. split.
    + destruct (is_Canceled e); cbn; split; try done; by intros [? ?].
    + intros Hc. by rewrite (Hc e eq_refl).
  - injection H as <- <-. cbn. split; [right; right; by eauto|]. split; [done|].
    split; [split; [done | by intros [? ?]] | done].
  - by apply IH.
  - rewrite (bind_ok _ _ _ _ _ (killProcessTree_run _ _)) in H. injection H as <- <-.
    cbn. split; [right; left; by eauto|]. split; [done|]. split.
    + destruct (is_Canceled e); cbn; split; try done; by intros [? ?].
    + intros Hc. by rewrite (Hc e eq_refl).
  - by apply IH.
Qed.

Lemma waitLoop_exit_witness :
  let s := set_config (Some (Fixture.cfg "1.8.0")) Fixture.sys in
  ∃ w, waitLoop 77 [Idle; GotExit None; Idle;
                    GotDone (errors_New "context deadline exceeded")] Wait.start s
       = (Ok (Some w), snd (exec (TaskkillPid 77) s)) ∧
       bubble_up w None = Some (errors_New "context deadline exceeded").
Proof.
  intros s.
  exists {| Wait.parsed := None;
            Wait.watchErr := Some (errors_New "context deadline exceeded");
            Wait.cmdErr := None |}.
  split; [reflexivity|].
  destruct (waitLoop_exit 77 [Idle; GotExit None; Idle;
                              GotDone (errors_New "context deadline exceeded")]
              s {| Wait.parsed := None;
                   Wait.watchErr := Some (errors_New "context deadline exceeded");
                   Wait.cmdErr := None |}
              (snd (exec (TaskkillPid 77) s)) eq_refl) as (_ & _ & _ & Hb).
  rewrite Hb; [reflexivity|]. by intros e [= <-].
Defined.

(** X27. [RunTests] fails before it has touched anything when there is no
    current release or the test script is not there: the results of the
    last run stay on disk and in the config, and the config is not marked
    as in progress. Otherwise, whatever the removal of the old results does,
    the config is cleared of results and of the best strategy, marked as
    in progress with the time of the start, and handed to [saveConfig]. *)
Theorem RunTests_prepare_outcome RemoveAll s c :
  config s = Some c →
  let current := [Config.Version c] in
  let ps1 := (current ++ ["utils"; "test zapret.ps1"])%list in
  (Config.Version c = "" →
   RunTests_prepare RemoveAll s = (Err (errors_New "no current release"), s)) ∧
  (Config.Version c ≠ "" → ∀ e, Stat (fs s) ps1 = Err e →
   RunTests_prepare RemoveAll s = (Err e, s)) ∧
  (Config.Version c ≠ "" → is_ok (Stat (fs s) ps1) = true →
   ∃ s', RunTests_prepare RemoveAll s = (Ok current, s') ∧
     let c' := set_LastTestAt (now (env s))
                 (set_TestInProgress true
                    (Config.set_BestStrategy "" (Config.set_TestResults ∅ c))) in
     config s' = Some c' ∧ env s' = env s ∧ procs s' = procs s ∧
     EvWriteFile c' ∈ trace s' ∧
     (config_writable (env s) = true → configFile s' = Some c')).
Proof.
  intros Hc current ps1. unfold RunTests_prepare.
  rewrite (bind_ok _ _ _ _ _ (loadConfig_cached _ _ Hc)).
  rewrite (bind_ok _ _ _ _ _ (currentReleasePath_some _ _ Hc)).
  split; [|split].
  - intros ->. done.
  - intros Hv e Hstat. apply String.eqb_neq in Hv. rewrite Hv.
    fold current ps1. unfold bind at 1, read. by rewrite Hstat.
  - intros Hv Hstat. apply String.eqb_neq in Hv. rewrite Hv.
    fold current ps1. unfold bind at 1, read.
    destruct (Stat (fs s) ps1) as [n|]; [clear Hstat | done].
    rewrite !bind_try.
    set (s1 := snd (on_fs (RemoveAll _) s)).
    set (s2 := snd (on_fs _ s1)).
    assert (Hc2 : config s2 = Some c) by exact Hc.
    rewrite (bind_ok _ _ _ _ _ (cfg_write_some _ _ _ Hc2)).
    set (s3 := set_config (Some (Config.set_TestResults ∅ c)) s2).
    rewrite (bind_ok _ _ _ _ _ (cfg_write_some _ s3 _ eq_refl)).
    set (s4 := set_config _ s3).
    rewrite (bind_ok _ _ _ _ _ (cfg_write_some _ s4 _ eq_refl)).
    set (s5 := set_config _ s4).
    unfold bind at 1, gets.
    rewrite (bind_ok _ _ _ _ _ (cfg_write_some _ s5 _ eq_refl)).
    change (now (env s5)) with (now (env s)).
    set (c' := set_LastTestAt (now (env s))
                 (set_TestInProgress true
                    (Config.set_BestStrategy "" (Config.set_TestResults ∅ c)))).
    set (s6 := set_config (Some c') s5).
    rewrite bind_try, (saveConfig_some s6 c' eq_refl). cbn [snd].
    eexists. split; [reflexivity|]. cbn zeta.
    destruct (saved_fields c' s6) as (H1 & H2 & _ & H3 & H4 & _ & H5).
    split; [exact H1|]. split; [exact H2|]. split; [exact H3|]. split.
    + rewrite H5. apply elem_of_app. right. by left.
    + exact H4.
Qed.

Lemma RunTests_prepare_outcome_witness :
  let s := set_config (Some (Fixture.cfg "1.8.0")) Fixture.sys in
  RunTests_prepare (λ _ fs, (Ok tt, fs)) s = (Err (PathError "stat"), s).
Proof.
  intros s.
  destruct (RunTests_prepare_outcome (λ _ fs, (Ok tt, fs)) s (Fixture.cfg "1.8.0") eq_refl)
    as (_ & Hmissing & _).
  apply Hmissing; [discriminate | reflexivity].
Defined.

(** X28. One tick of the watcher of [RunTests] only reads and never fails. It
    sends a result only when the results directory holds a file whose
    lowered name starts with "test_results_" and ends with ".txt"; what it
    sends is what [parseLatestResult] gives, with at least one result. It
    sends an error exactly when the results directory cannot be read. *)
Theorem waitForResultFile_tick_outcome current s :
  let dir := (current ++ ["utils"; "test results"])%list in
  snd (waitForResultFile_tick current s) = s ∧
  (∃ t, fst (waitForResultFile_tick current s) = Ok t) ∧
  (∀ p, fst (waitForResultFile_tick current s) = Ok (SendResult p) →
     fst (Service.parseLatestResult current s) = Ok p ∧ Results p ≠ ∅ ∧
     ∃ name data mtime,
       fs s !! (dir ++ [name])%list = Some (FileNode data mtime) ∧
       strings.HasPrefix (strings.ToLower name) "test_results_" = true ∧
       strings.HasSuffix (strings.ToLower name) ".txt" = true) ∧
  (∀ e, fst (waitForResultFile_tick current s) = Ok (SendErr e) ↔
        ReadDir (fs s) dir = Err e).
Proof.
  intros dir. unfold waitForResultFile_tick. fold dir.
  rewrite bind_try. unfold read. cbn [fst snd].
  destruct (ReadDir (fs s) dir) as [entries|e0] eqn:Hdir.
  2:{ cbn. split; [done|]. split; [by eexists|]. split; [done|].
      intros e. split; by intros [= ->]. }
  destruct (hasResultFile entries) eqn:Hhas; cbn [negb].
  2:{ cbn. split; [done|]. split; [by eexists|]. split; [done|]. by intros e. }
  rewrite bind_try, parseLatestResult_pure.
  destruct (fst (Service.parseLatestResult current s)) as [p|e1] eqn:Hp; cbn.
  2:{ split; [done|]. split; [by eexists|]. split; [done|]. by intros e. }
  split; [done|]. split; [by eexists|]. split; [|by intros e].
  intros p' [= <-]. split; [done|]. split; [by apply (parseLatestResult_nonempty current s)|].
  unfold hasResultFile in Hhas. apply existsb_exists in Hhas as ([name n] & Hin & Hn).
  apply andb_true_iff in Hn as [Hn Hsuffix]. apply andb_true_iff in Hn as [Hfile Hprefix].
  simpl in *. destruct n as [|data mtime]; [done|].
  exists name, data, mtime. split; [|done].
  apply (ReadDir_elem _ _ _ _ _ Hdir). by apply list_elem_of_In.
Qed.

Lemma waitForResultFile_tick_outcome_witness :
  fst (waitForResultFile_tick ["1.8.0"] Fixture.sys) = Ok (SendResult Fixture.parsed) ∧
  Results Fixture.parsed ≠ ∅.
Proof.
  assert (H : fst (waitForResultFile_tick ["1.8.0"] Fixture.sys)
              = Ok (SendResult Fixture.parsed)) by reflexivity.
  split; [exact H|].
  destruct (waitForResultFile_tick_outcome ["1.8.0"] Fixture.sys) as (_ & _ & Hsend & _).
  by destruct (Hsend _ H) as (_ & Hne & _).
Defined.

